(** * Betfair exchange ladder builder: a shallow embedding

    This development embeds the order-book pipeline of
    [src/exchange/orderbook.py] (class [LadderBuilder]) and
    [src/exchange/metadata.py] (class [MetadataBuilder] and its sport
    variants) and proves properties of the embedded functions.

    Modelling conventions.
    - JSON numbers (prices, sizes, volumes) are finite floating-point
      numbers, kept as the rationals [Q] they denote.  The result of an
      arithmetic operation is rounded by [rnd] (class [Rounding]): a
      statement made for every rounding holds for the binary64
      arithmetic of the code, and a statement that names no rounding is
      made for [exact_arithmetic], the idealisation without rounding.
      Python compares dictionary keys with [==], which on numbers is
      numeric equality: keys are compared with [Qeq_bool], not with
      Leibniz equality, and an entry keeps the key object it was first
      inserted with, as a Python [dict] does.
    - A Python [dict] is an association list in insertion order without
      duplicate keys ([dset] overwrites in place or appends).
    - Exceptions are values of [exn]; a function that may raise returns
      [result].
    - A timestamp is the integer number of milliseconds since the
      epoch; [pd.to_datetime(pt, unit="ms")] keeps the count and raises
      [OutOfBoundsDatetime] outside the range of a [pd.Timestamp].
    - [copy.deepcopy] is the identity: values are immutable here. *)

From Stdlib Require Import ZArith QArith Qround Qabs Bool List Lia Lqa.
From Stdlib Require Import String Ascii Sorted Permutation SetoidList.
Import ListNotations.

(** ** Exceptions and the error monad *)

(** The key of a failed subscript: a field name, or a runner id
    ([str] is injective on the integer ids, so the id stands for its
    decimal string). *)
Inductive pykey : Type :=
| KField (name : string)
| KRunner (id : Z).

Inductive exn : Type :=
| KeyError (k : pykey)
| IndexError
| AssertionError
| ValueError
| OutOfBoundsDatetime.

Inductive result (A : Type) : Type :=
| Ok (a : A)
| Raise (e : exn).

Arguments Ok {A} a.
Arguments Raise {A} e.

Definition bind {A B : Type} (r : result A) (f : A -> result B) : result B :=
  match r with
  | Ok a => f a
  | Raise e => Raise e
  end.

Notation "x <- r ;; k" := (bind r (fun x => k))
  (at level 61, r at next level, right associativity).
Notation "' p <- r ;; k" := (bind r (fun x => let p := x in k))
  (at level 61, p pattern, r at next level, right associativity).

(** [d[name]] on an optional record field: [KeyError] when absent. *)
Definition subscript {A : Type} (name : string) (field : option A) : result A :=
  match field with
  | Some a => Ok a
  | None => Raise (KeyError (KField name))
  end.

Definition raises {A : Type} (r : result A) : Prop :=
  exists e, r = Raise e.

(** ** Python dictionaries as insertion-ordered association lists *)

Section Dict.
Context {K V : Type}.
Variable keq : K -> K -> bool.

(** [d.get(k)] *)
Fixpoint dget (d : list (K * V)) (k : K) : option V :=
  match d with
  | [] => None
  | (k', v) :: d' => if keq k' k then Some v else dget d' k
  end.

(** [d[k] = v]: an existing key keeps its place (and its key object),
    a new key goes last. *)
Fixpoint dset (d : list (K * V)) (k : K) (v : V) : list (K * V) :=
  match d with
  | [] => [(k, v)]
  | (k', v') :: d' =>
      if keq k' k then (k', v) :: d' else (k', v') :: dset d' k v
  end.

(** [d.update(u)] for the items [u] of another dictionary, and also the
    comprehension [{k: v for k, v in u}] when started from [[]]. *)
Definition dupdate (d u : list (K * V)) : list (K * V) :=
  fold_left (fun acc kv => dset acc (fst kv) (snd kv)) u d.

Definition dkeys (d : list (K * V)) : list K := map fst d.

Definition eqk (a b : K * V) : Prop := keq (fst a) (fst b) = true.

(** Well-formed dictionary: no two entries with equal keys. *)
Definition dict_wf (d : list (K * V)) : Prop := NoDupA eqk d.

End Dict.

(** ** Python's stable sort *)

Section Sort.
Context {A : Type}.
Variable ltb : A -> A -> bool.

(** [x] is placed before the first element that is not below it, so
    elements that compare equal keep their order. *)
Fixpoint insert_sorted (x : A) (l : list A) : list A :=
  match l with
  | [] => [x]
  | y :: l' => if ltb y x then y :: insert_sorted x l' else x :: l
  end.

(** [sorted(l)] with [ltb] playing the role of [<]. *)
Fixpoint py_sorted (l : list A) : list A :=
  match l with
  | [] => []
  | x :: l' => insert_sorted x (py_sorted l')
  end.

Definition leb (a b : A) : bool := negb (ltb b a).

End Sort.

(** ** Numbers *)

Definition Qlt_bool (a b : Q) : bool := negb (Qle_bool b a).

(** A price or [float("inf")]. *)
Inductive price_ext : Type :=
| Fin (q : Q)
| PlusInf.

(** [p >= e] *)
Definition ge_ext (p : Q) (e : price_ext) : bool :=
  match e with
  | Fin q => Qle_bool q p
  | PlusInf => false
  end.

(** [p > e] *)
Definition gt_ext (p : Q) (e : price_ext) : bool :=
  match e with
  | Fin q => Qlt_bool q p
  | PlusInf => false
  end.

(** Rounding to the nearest integer, ties to the even one. *)
Definition round_half_even (x : Q) : Z :=
  let f := Qfloor x in
  let r := x - inject_Z f in
  if Qlt_bool r (1 # 2) then f
  else if Qlt_bool (1 # 2) r then (f + 1)%Z
  else if Z.even f then f else (f + 1)%Z.

(** The decimal with two places nearest to [x], ties to the even one. *)
Definition round2 (x : Q) : Q := Qmake (round_half_even (x * 100)) 100.

(** *** Floating-point results

    A floating-point operation returns the representable number nearest
    to the exact result: [a - b] is [rnd (a - b)], [a + b] is
    [rnd (a + b)], and [round(x, 2)], which CPython computes by
    rounding the exact value of [x] to two decimal places (ties to even)
    and converting the decimal back, is [rnd (round2 x)]. *)
Class Rounding : Type := rnd : Q -> Q.

(** No rounding: arithmetic on the rationals. *)
#[export] Instance exact_arithmetic : Rounding := fun x => x.

(** The exponent of the unit in the last place of the binary64 numbers
    around [x <> 0]: 53 significant bits, and no exponent below -1074. *)
Definition binary64_exponent (x : Q) : Z :=
  let e0 := (Z.log2 (Z.abs (Qnum x)) - Z.log2 (Zpos (Qden x)))%Z in
  let e := if Qlt_bool (Qabs x) (2 ^ e0) then (e0 - 1)%Z else e0 in
  Z.max (e - 52) (-1074).

(** Rounding to the nearest binary64 number, ties to the even
    significand.  The exponent is not bounded above: prices and volumes
    are far from overflow. *)
Definition binary64 : Rounding := fun x =>
  if Qeq_bool x 0 then 0
  else
    let ulp := 2 ^ binary64_exponent x in
    Qred (inject_Z (round_half_even (x / ulp)) * ulp).

(** Truthiness of a number that may be absent ([None] and [0] are falsy). *)
Definition truthy (v : option Q) : bool :=
  match v with
  | Some q => negb (Qeq_bool q 0)
  | None => false
  end.

(** ** The price ladders *)

Definition ladder : Type := list (Q * Q).

(** [(k1, v1) < (k2, v2)] on tuples: the keys decide unless they are
    equal. *)
Definition item_ltb (a b : Q * Q) : bool :=
  if Qeq_bool (fst a) (fst b) then Qlt_bool (snd a) (snd b)
  else Qlt_bool (fst a) (fst b).

(** The order of [sorted(..., reverse=True)]. *)
Definition item_gtb (a b : Q * Q) : bool := item_ltb b a.

Definition list_ladder_to_dict (l : list (Q * Q)) : ladder :=
  dupdate Qeq_bool [] l.

Inductive price_key : Type := ATB | ATL | TRD.

(** A trade [[price, volume, side]], side one of "b", "l", "nan". *)
Definition trade : Type := (Q * Q * string)%type.

Record runner_ladder : Type := mkRunnerLadder {
  atb : ladder;
  atl : ladder;
  trd : ladder;
  trades : list trade;
  ltp : option Q;
  tv : option Q;
  ttrdv : Q;
  bbp : Q;
  blp : price_ext
}.

Record runner_change : Type := mkRunnerChange {
  rc_id : Z;
  rc_atb : option (list (Q * Q));
  rc_atl : option (list (Q * Q));
  rc_trd : option (list (Q * Q));
  rc_ltp : option Q;
  rc_tv : option Q
}.

Definition side_of (rl : runner_ladder) (key : price_key) : ladder :=
  match key with
  | ATB => atb rl
  | ATL => atl rl
  | TRD => trd rl
  end.

(** [runner_change.get(price_key, [])] *)
Definition change_of (chg : runner_change) (key : price_key) : list (Q * Q) :=
  match match key with
        | ATB => rc_atb chg
        | ATL => rc_atl chg
        | TRD => rc_trd chg
        end with
  | Some l => l
  | None => []
  end.

Definition positive_size (kv : Q * Q) : bool := Qlt_bool 0 (snd kv).

Definition update_runner_ladder
    (rl : runner_ladder) (chg : runner_change) (key : price_key) : ladder :=
  let ladder0 := side_of rl key in
  let update_list := change_of chg key in
  let update_dict := list_ladder_to_dict update_list in
  let merged := dupdate Qeq_bool ladder0 update_dict in
  let kept := filter positive_size merged in
  match key with
  | ATB => firstn 10 (py_sorted item_gtb kept)
  | ATL => firstn 10 (py_sorted item_ltb kept)
  | TRD => py_sorted item_ltb kept
  end.

Definition set_atb (rl : runner_ladder) (x : ladder) : runner_ladder :=
  mkRunnerLadder x (atl rl) (trd rl) (trades rl) (ltp rl) (tv rl)
    (ttrdv rl) (bbp rl) (blp rl).
Definition set_atl (rl : runner_ladder) (x : ladder) : runner_ladder :=
  mkRunnerLadder (atb rl) x (trd rl) (trades rl) (ltp rl) (tv rl)
    (ttrdv rl) (bbp rl) (blp rl).
Definition set_trd (rl : runner_ladder) (x : ladder) : runner_ladder :=
  mkRunnerLadder (atb rl) (atl rl) x (trades rl) (ltp rl) (tv rl)
    (ttrdv rl) (bbp rl) (blp rl).
Definition set_trades (rl : runner_ladder) (x : list trade) : runner_ladder :=
  mkRunnerLadder (atb rl) (atl rl) (trd rl) x (ltp rl) (tv rl)
    (ttrdv rl) (bbp rl) (blp rl).
Definition set_ltp (rl : runner_ladder) (x : option Q) : runner_ladder :=
  mkRunnerLadder (atb rl) (atl rl) (trd rl) (trades rl) x (tv rl)
    (ttrdv rl) (bbp rl) (blp rl).
Definition set_tv (rl : runner_ladder) (x : option Q) : runner_ladder :=
  mkRunnerLadder (atb rl) (atl rl) (trd rl) (trades rl) (ltp rl) x
    (ttrdv rl) (bbp rl) (blp rl).
Definition set_ttrdv (rl : runner_ladder) (x : Q) : runner_ladder :=
  mkRunnerLadder (atb rl) (atl rl) (trd rl) (trades rl) (ltp rl) (tv rl)
    x (bbp rl) (blp rl).
Definition set_best (rl : runner_ladder) (b : Q) (l : price_ext) : runner_ladder :=
  mkRunnerLadder (atb rl) (atl rl) (trd rl) (trades rl) (ltp rl) (tv rl)
    (ttrdv rl) b l.

(** The market's book: runner id to runner ladder, in roster order. *)
Definition book : Type := list (Z * runner_ladder).

Definition default_best_back_price : Q := 0.
Definition default_best_lay_price : price_ext := PlusInf.

Definition empty_runner_ladder : runner_ladder :=
  mkRunnerLadder [] [] [] [] None None 0
    default_best_back_price default_best_lay_price.

Definition create_ladder_ds (runner_ids : list Z) : book :=
  fold_left (fun runners runner_id => dset Z.eqb runners runner_id empty_runner_ladder)
    runner_ids [].

(** ** Trades and scalar fields *)

(** The side of a trade at [traded_price] against the runner's stored
    best prices. *)
Definition trade_side (rl : runner_ladder) (traded_price : Q) : string :=
  if Qle_bool traded_price (bbp rl) then "b"%string
  else if ge_ext traded_price (blp rl) then "l"%string
  else "nan"%string.

(** [current_trd.get(traded_price, 0)] *)
Definition prior_volume (current_trd : ladder) (traded_price : Q) : Q :=
  match dget Qeq_bool current_trd traded_price with
  | Some v => v
  | None => 0
  end.

(** One iteration of the loop of [update_runner_trades]; the state is the
    runner ladder (only its [ttrdv] is written) and the local [trades]. *)
Definition trade_step {R : Rounding} (current_trd : ladder)
    (st : runner_ladder * list trade) (trd_update : Q * Q)
    : runner_ladder * list trade :=
  let (rl, acc) := st in
  let traded_price := fst trd_update in
  let total_volume := snd trd_update in
  let traded_volume :=
    rnd (total_volume - prior_volume current_trd traded_price) in
  let traded_volume := rnd (round2 traded_volume) in
  if Qle_bool traded_volume 0 then st
  else
    (set_ttrdv rl (rnd (ttrdv rl + traded_volume)),
     acc ++ [(traded_price, traded_volume, trade_side rl traded_price)]).

Definition update_runner_trades {R : Rounding}
    (rl : runner_ladder) (chg : runner_change)
    : runner_ladder * list trade :=
  let current_trd := trd rl in
  fold_left (trade_step current_trd) (change_of chg TRD) (rl, []).

(** [value if value else runner_ladder[key]] *)
Definition update_runner_value (stored change : option Q) : option Q :=
  if truthy change then change else stored.

(** ** Applying a packet's runner changes *)

Definition apply_runner_change {R : Rounding}
    (current_ladder : book) (chg : runner_change)
    : result book :=
  let runner_id := rc_id chg in
  match dget Z.eqb current_ladder runner_id with
  | None => Raise (KeyError (KRunner runner_id))
  | Some runner_ladder =>
      let (runner_ladder, new_trades) := update_runner_trades runner_ladder chg in
      let runner_ladder := set_trades runner_ladder new_trades in
      let runner_ladder := set_atb runner_ladder (update_runner_ladder runner_ladder chg ATB) in
      let runner_ladder := set_atl runner_ladder (update_runner_ladder runner_ladder chg ATL) in
      let runner_ladder := set_trd runner_ladder (update_runner_ladder runner_ladder chg TRD) in
      let runner_ladder := set_ltp runner_ladder (update_runner_value (ltp runner_ladder) (rc_ltp chg)) in
      let runner_ladder := set_tv runner_ladder (update_runner_value (tv runner_ladder) (rc_tv chg)) in
      Ok (dset Z.eqb current_ladder runner_id runner_ladder)
  end.

Fixpoint apply_runner_changes {R : Rounding}
    (current_ladder : book) (rc : list runner_change)
    : result book :=
  match rc with
  | [] => Ok current_ladder
  | chg :: rc' =>
      current_ladder' <- apply_runner_change current_ladder chg ;;
      apply_runner_changes current_ladder' rc'
  end.

(** ** Packets, market changes and market definitions *)

(** A timestamp: milliseconds since the epoch. *)
Definition timestamp : Type := Z.

(** A [pd.Timestamp] counts nanoseconds in a signed 64-bit integer:
    the largest millisecond count it can hold is [(2^63 - 1) / 10^6]. *)
Definition MAX_TIMESTAMP_MS : Z := 9223372036854.

Definition timestamp_in_range (pt : Z) : bool :=
  (- MAX_TIMESTAMP_MS <=? pt)%Z && (pt <=? MAX_TIMESTAMP_MS)%Z.

(** [pd.to_datetime(pt, unit="ms")] on an integer [pt]. *)
Definition to_datetime (pt : Z) : result timestamp :=
  if timestamp_in_range pt then Ok pt else Raise OutOfBoundsDatetime.

(** A [datetime.datetime] value. *)
Record datetime : Type := mkDatetime {
  dt_year : Z;
  dt_month : Z;
  dt_day : Z;
  dt_hour : Z;
  dt_minute : Z;
  dt_second : Z;
  dt_microsecond : Z
}.

(** An entry of [marketDefinition["runners"]]; [bsp] may be absent. *)
Record runner_def : Type := mkRunnerDef {
  rd_id : Z;
  rd_name : string;
  rd_status : string;
  rd_bsp : option Q
}.

(** The fields of a market definition that the code reads ([None] is an
    absent key), and whether the object has any other key. *)
Record market_definition : Type := mkMarketDefinition {
  md_eventId : option string;
  md_openDate : option string;
  md_marketTime : option string;
  md_suspendTime : option string;
  md_inPlay : option bool;
  md_name : option string;
  md_marketType : option string;
  md_runners : option (list runner_def);
  md_other_keys : bool
}.

Record market_change : Type := mkMarketChange {
  mc_id : option string;
  mc_rc : option (list runner_change);
  mc_marketDefinition : option market_definition
}.

Record packet : Type := mkPacket {
  p_pt : option Z;
  p_mc : option (list market_change);
  p_clk : option string;
  p_op : option string
}.

Definition is_some {A : Type} (o : option A) : bool :=
  match o with Some _ => true | None => false end.

(** Truthiness of a market definition object: only [{}] is falsy. *)
Definition md_truthy (md : market_definition) : bool :=
  is_some (md_eventId md) || is_some (md_openDate md)
  || is_some (md_marketTime md) || is_some (md_suspendTime md)
  || is_some (md_inPlay md) || is_some (md_name md)
  || is_some (md_marketType md) || is_some (md_runners md)
  || md_other_keys md.

Definition process_packet (p : packet) : result (timestamp * market_change) :=
  pt <- subscript "pt" (p_pt p) ;;
  mc <- subscript "mc" (p_mc p) ;;
  market_change <- match mc with
                   | [] => Raise IndexError
                   | m :: _ => Ok m
                   end ;;
  pt_date <- to_datetime pt ;;
  _ <- (if Nat.eqb (List.length mc) 1 then Ok tt else Raise AssertionError) ;;
  Ok (pt_date, market_change).

(** The rewritten raw packet: [pt] is the timestamp, [metadata] the
    market id, [clk] and [op] are gone. *)
Record raw_packet : Type := mkRawPacket {
  raw_pt : timestamp;
  raw_metadata : string;
  raw_mc : option (list market_change)
}.

Definition set_raw_marketdata (market_id : string) (p : packet) (pt : timestamp)
    : result raw_packet :=
  _ <- subscript "clk" (p_clk p) ;;
  _ <- subscript "op" (p_op p) ;;
  Ok (mkRawPacket pt market_id (p_mc p)).

(** ** Snapshot formatting *)

Record formatted_runner : Type := mkFormattedRunner {
  f_atb : option (list (Q * Q));
  f_atl : option (list (Q * Q));
  f_trd : option (list (Q * Q));
  f_ltp : option Q;
  f_tv : option Q;
  f_ttrdv : option Q;
  f_trades : option (list trade)
}.

(** A field that is set only when the container is non-empty. *)
Definition if_nonempty {A : Type} (l : list A) : option (list A) :=
  match l with
  | [] => None
  | _ :: _ => Some l
  end.

Definition if_truthy (v : option Q) : option Q :=
  if truthy v then v else None.

(** The items of [trd] are emitted under the keys [str(k)]; distinct
    numeric keys have distinct strings, so the price stands for its
    string. *)
Definition format_runner {R : Rounding} (l : runner_ladder)
    : formatted_runner :=
  mkFormattedRunner
    (if_nonempty (atb l))
    (if_nonempty (atl l))
    (if_nonempty (trd l))
    (if_truthy (ltp l))
    (if_truthy (tv l))
    (if negb (Qeq_bool (ttrdv l) 0) then Some (rnd (round2 (ttrdv l))) else None)
    (if_nonempty (trades l)).

Definition format_ladder {R : Rounding} (current_ladder : book)
    : list (Z * formatted_runner) :=
  map (fun kv => (fst kv, format_runner (snd kv))) current_ladder.

(** ** Arbitrage check on the formatted snapshot *)

(** [side[0][0] if side else default] *)
Definition best_price_of {P : Type} (inj : Q -> P) (default : P)
    (side : option (list (Q * Q))) : P :=
  match side with
  | Some (item :: _) => inj (fst item)
  | Some [] => default
  | None => default
  end.

Definition check_arbitrage (current_ladder : book)
    (runner_ladder : formatted_runner) (runner_id : Z) : result (book * bool) :=
  let best_back_price :=
    best_price_of (fun q => q) default_best_back_price (f_atb runner_ladder) in
  let best_lay_price :=
    best_price_of Fin default_best_lay_price (f_atl runner_ladder) in
  match dget Z.eqb current_ladder runner_id with
  | None => Raise (KeyError (KRunner runner_id))
  | Some stored =>
      let current_ladder :=
        dset Z.eqb current_ladder runner_id
          (set_best stored best_back_price best_lay_price) in
      Ok (current_ladder, gt_ext best_back_price best_lay_price)
  end.

(** The loop of [raise_if_arbitrage]: the result of each check is
    discarded (the [raise] is commented out in the source). *)
Fixpoint raise_if_arbitrage (current_ladder : book)
    (runner_ladders : list (Z * formatted_runner)) : result book :=
  match runner_ladders with
  | [] => Ok current_ladder
  | (runner_id, runner_ladder) :: rest =>
      r <- check_arbitrage current_ladder runner_ladder runner_id ;;
      (if snd r then raise_if_arbitrage (fst r) rest
       else raise_if_arbitrage (fst r) rest)
  end.

Definition reset_runner_trades (current_ladder : book) : book :=
  map (fun kv => (fst kv, set_trades (snd kv) [])) current_ladder.

Definition update_ladder {R : Rounding}
    (current_ladder : book) (mc : market_change)
    : result book :=
  rc <- subscript "rc" (mc_rc mc) ;;
  apply_runner_changes current_ladder rc.

(** ** Metadata *)

(** [metadata["marketDefinition"]] after the three date strings have
    been replaced by [datetime] objects. *)
Record parsed_definition : Type := mkParsedDefinition {
  pd_fields : market_definition;
  pd_openDate : datetime;
  pd_marketTime : datetime;
  pd_suspendTime : datetime
}.

Record ts_document : Type := mkTsDocument {
  ts_pt : timestamp;
  ts_metadata : string;
  ts_runners : list (Z * formatted_runner);
  ts_marketDefinition : option parsed_definition
}.

Record winner_info : Type := mkWinnerInfo {
  w_name : string;
  w_id : Z;
  w_bsp : option Q
}.

Record favourite : Type := mkFavourite {
  fav_name : string;
  fav_id : Z;
  fav_bsp : Q
}.

(** The metadata dictionary; an optional field that is [None] is an
    absent key, except [m_inPlayStartTime], whose [None] is Python's. *)
Record metadata : Type := mkMetadata {
  m_marketId : string;
  m__id : string;
  m_eventId : string;
  m_marketDefinition : parsed_definition;
  m_rc : option (list runner_change);
  m_inPlayStartTime : option timestamp;
  m_inPlayEndTime : option timestamp;
  m_pre0ladder : option (list (Z * formatted_runner));
  m_pre5ladder : option (list (Z * formatted_runner));
  m_pre10ladder : option (list (Z * formatted_runner));
  m_winnerInfo : option winner_info;
  m_favouriteInfo : option (list favourite);
  m_raceTypeAdjusted : option string;
  m_distance : option (option string);
  m_isHandicap : option bool
}.

Definition FIVE_MINUTES : Z := 5 * 60 * 1000.
Definition TEN_MINUTES : Z := 10 * 60 * 1000.
Definition ONE_SECOND : Z := 1000.

Inductive sport : Type := Football | Tennis | HorseRacing.

Record metadata_builder : Type := mkMetadataBuilder {
  mb_sport : sport;
  mb_in_play_start : option timestamp;
  mb_in_play_end : timestamp;
  mb_pre10ladder : option ts_document;
  mb_pre5ladder : option ts_document;
  mb_pre0ladder : option ts_document;
  mb_metadata : metadata;
  mb_market_id : string;
  mb_event_id : string
}.

Definition set_pre0 (mb : metadata_builder) (doc : ts_document) : metadata_builder :=
  let m := mb_metadata mb in
  mkMetadataBuilder (mb_sport mb) (mb_in_play_start mb) (mb_in_play_end mb)
    (mb_pre10ladder mb) (mb_pre5ladder mb) (Some doc)
    (mkMetadata (m_marketId m) (m__id m) (m_eventId m) (m_marketDefinition m)
       (m_rc m) (m_inPlayStartTime m) (m_inPlayEndTime m)
       (Some (ts_runners doc)) (m_pre5ladder m) (m_pre10ladder m)
       (m_winnerInfo m) (m_favouriteInfo m)
       (m_raceTypeAdjusted m) (m_distance m) (m_isHandicap m))
    (mb_market_id mb) (mb_event_id mb).

Definition set_pre5 (mb : metadata_builder) (doc : ts_document) : metadata_builder :=
  let m := mb_metadata mb in
  mkMetadataBuilder (mb_sport mb) (mb_in_play_start mb) (mb_in_play_end mb)
    (mb_pre10ladder mb) (Some doc) (mb_pre0ladder mb)
    (mkMetadata (m_marketId m) (m__id m) (m_eventId m) (m_marketDefinition m)
       (m_rc m) (m_inPlayStartTime m) (m_inPlayEndTime m)
       (m_pre0ladder m) (Some (ts_runners doc)) (m_pre10ladder m)
       (m_winnerInfo m) (m_favouriteInfo m)
       (m_raceTypeAdjusted m) (m_distance m) (m_isHandicap m))
    (mb_market_id mb) (mb_event_id mb).

Definition set_pre10 (mb : metadata_builder) (doc : ts_document) : metadata_builder :=
  let m := mb_metadata mb in
  mkMetadataBuilder (mb_sport mb) (mb_in_play_start mb) (mb_in_play_end mb)
    (Some doc) (mb_pre5ladder mb) (mb_pre0ladder mb)
    (mkMetadata (m_marketId m) (m__id m) (m_eventId m) (m_marketDefinition m)
       (m_rc m) (m_inPlayStartTime m) (m_inPlayEndTime m)
       (m_pre0ladder m) (m_pre5ladder m) (Some (ts_runners doc))
       (m_winnerInfo m) (m_favouriteInfo m)
       (m_raceTypeAdjusted m) (m_distance m) (m_isHandicap m))
    (mb_market_id mb) (mb_event_id mb).

Definition set_metadata (mb : metadata_builder) (m : metadata) : metadata_builder :=
  mkMetadataBuilder (mb_sport mb) (mb_in_play_start mb) (mb_in_play_end mb)
    (mb_pre10ladder mb) (mb_pre5ladder mb) (mb_pre0ladder mb)
    m (mb_market_id mb) (mb_event_id mb).

(** [(in_play_start - pt).total_seconds() * 1000]: on millisecond
    timestamps the product is the integer difference (the float detour
    is exact well beyond the three thresholds). *)
Definition milliseconds_between (in_play_start pt : timestamp) : Z :=
  in_play_start - pt.

(** A [ts_document] always has the keys [pt], [metadata] and [runners],
    so [not self.preNladder] holds exactly while the field is [None]. *)
Definition unset (field : option ts_document) : bool :=
  match field with
  | None => true
  | Some _ => false
  end.

Definition extend_pre_market (mb : metadata_builder)
    (ts_ladder_document : ts_document) (pt : timestamp) : metadata_builder :=
  match mb_in_play_start mb with
  | None => mb
  | Some in_play_start =>
      let milliseconds_to_in_play := milliseconds_between in_play_start pt in
      let mb :=
        if unset (mb_pre0ladder mb) && (milliseconds_to_in_play <? ONE_SECOND)%Z
        then set_pre0 mb ts_ladder_document else mb in
      let mb :=
        if unset (mb_pre5ladder mb) && (milliseconds_to_in_play <? FIVE_MINUTES)%Z
        then set_pre5 mb ts_ladder_document else mb in
      let mb :=
        if unset (mb_pre10ladder mb) && (milliseconds_to_in_play <? TEN_MINUTES)%Z
        then set_pre10 mb ts_ladder_document else mb in
      mb
  end.

(** *** Winner and favourites *)

Fixpoint index_of (x : string) (l : list string) : option nat :=
  match l with
  | [] => None
  | y :: l' =>
      if String.eqb y x then Some O
      else match index_of x l' with
           | Some i => Some (S i)
           | None => None
           end
  end.

(** [l[i]] *)
Definition item {A : Type} (l : list A) (i : nat) : result A :=
  match nth_error l i with
  | Some a => Ok a
  | None => Raise IndexError
  end.

Definition extract_winner_info (runner_names : list string)
    (runner_ids : list Z) (status : list string) (bsp : list Q)
    : result (option winner_info) :=
  match index_of "WINNER" status with
  | None => Ok None
  | Some winner_index =>
      name <- item runner_names winner_index ;;
      id <- item runner_ids winner_index ;;
      match bsp with
      | [] => Ok (Some (mkWinnerInfo name id None))
      | _ :: _ =>
          b <- item bsp winner_index ;;
          Ok (Some (mkWinnerInfo name id (Some b)))
      end
  end.

Fixpoint enumerate_from {A : Type} (i : nat) (l : list A) : list (nat * A) :=
  match l with
  | [] => []
  | x :: l' => (i, x) :: enumerate_from (S i) l'
  end.

Definition enumerate {A : Type} (l : list A) : list (nat * A) :=
  enumerate_from O l.

Fixpoint favourites_of (runner_names : list string) (runner_ids : list Z)
    (bsp_tuples : list (nat * Q)) : result (list favourite) :=
  match bsp_tuples with
  | [] => Ok []
  | (index, bsp) :: rest =>
      name <- item runner_names index ;;
      id <- item runner_ids index ;;
      favs <- favourites_of runner_names runner_ids rest ;;
      Ok (mkFavourite name id bsp :: favs)
  end.

Definition extract_favourite_info (runner_names : list string)
    (runner_ids : list Z) (bsp : list Q) : result (option (list favourite)) :=
  match bsp with
  | [] => Ok None
  | _ :: _ =>
      let bsp_tuples :=
        filter (fun ib => negb (Qeq_bool (snd ib) 0)) (enumerate bsp) in
      let bsp_tuples :=
        py_sorted (fun a b => Qlt_bool (snd a) (snd b)) bsp_tuples in
      favs <- favourites_of runner_names runner_ids bsp_tuples ;;
      Ok (Some favs)
  end.

(** The [bsps] list of [extend_post_market]: only the truthy [bsp]
    values, in roster order. *)
Fixpoint collect_bsps (runners : list runner_def) : list Q :=
  match runners with
  | [] => []
  | runner :: rest =>
      if truthy (rd_bsp runner)
      then match rd_bsp runner with
           | Some b => b :: collect_bsps rest
           | None => collect_bsps rest
           end
      else collect_bsps rest
  end.

(** *** The horse racing hook *)

(** [sub in s] *)
Definition contains (sub s : string) : bool := is_some (index 0 sub s).

Definition extract_race_type_adjusted (name : string) : string :=
  if contains "Hrd" name || contains "Hurdle" name then "Hurdle"%string
  else if contains "Chs" name || contains "Chase" name then "Chase"%string
  else if contains "INHF" name then "NH Flat"%string
  else "Flat"%string.

Definition is_digit (c : ascii) : bool :=
  (48 <=? nat_of_ascii c)%nat && (nat_of_ascii c <=? 57)%nat.

(** The longest prefix of digits, and what follows it. *)
Fixpoint span_digits (s : string) : string * string :=
  match s with
  | EmptyString => (EmptyString, EmptyString)
  | String c s' =>
      if is_digit c
      then let (ds, rest) := span_digits s' in (String c ds, rest)
      else (EmptyString, s)
  end.

(** A match of [\d+m\d*f|\d+m|\d+f] anchored at the start of [s]: every
    alternative begins with a run of digits followed by a letter, so the
    run is the longest one. *)
Definition distance_match_at (s : string) : option string :=
  let (ds, rest) := span_digits s in
  match ds with
  | EmptyString => None
  | String _ _ =>
      match rest with
      | String "m"%char rest' =>
          let (ds2, rest2) := span_digits rest' in
          match rest2 with
          | String "f"%char _ => Some (ds ++ "m" ++ ds2 ++ "f")%string
          | _ => Some (ds ++ "m")%string
          end
      | String "f"%char _ => Some (ds ++ "f")%string
      | _ => None
      end
  end.

(** [re.search]: the leftmost position with a match. *)
Fixpoint extract_distance (name : string) : option string :=
  match name with
  | EmptyString => None
  | String _ name' =>
      match distance_match_at name with
      | Some m => Some m
      | None => extract_distance name'
      end
  end.

Definition is_handicap (name : string) : bool :=
  contains "Hcap" name || contains "Handicap" name.

Definition set_post_market (m : metadata) (w : option winner_info)
    (f : option (list favourite)) : metadata :=
  mkMetadata (m_marketId m) (m__id m) (m_eventId m) (m_marketDefinition m)
    (m_rc m) (m_inPlayStartTime m) (m_inPlayEndTime m)
    (m_pre0ladder m) (m_pre5ladder m) (m_pre10ladder m)
    (match w with Some _ => w | None => m_winnerInfo m end)
    (match f with Some (_ :: _) => f | _ => m_favouriteInfo m end)
    (m_raceTypeAdjusted m) (m_distance m) (m_isHandicap m).

Definition set_race_fields (m : metadata) (market_name : string) : metadata :=
  mkMetadata (m_marketId m) (m__id m) (m_eventId m) (m_marketDefinition m)
    (m_rc m) (m_inPlayStartTime m) (m_inPlayEndTime m)
    (m_pre0ladder m) (m_pre5ladder m) (m_pre10ladder m)
    (m_winnerInfo m) (m_favouriteInfo m)
    (Some (extract_race_type_adjusted market_name))
    (Some (extract_distance market_name))
    (Some (is_handicap market_name)).

(** [_extend_post_market], dispatched on the builder's class; the
    [MetaBuilder] enumeration offers the three sport classes only. *)
Definition sport_hook (s : sport) (m : metadata) (market_name : string)
    : result metadata :=
  match s with
  | Football => Ok m
  | Tennis => Ok m
  | HorseRacing =>
      market_type <-
        subscript "marketType" (md_marketType (pd_fields (m_marketDefinition m))) ;;
      if String.eqb market_type "WIN"
      then Ok (set_race_fields m market_name)
      else Ok m
  end.

Definition extend_post_market (mb : metadata_builder) : result metadata_builder :=
  let m := mb_metadata mb in
  let definition := pd_fields (m_marketDefinition m) in
  market_name <- subscript "name" (md_name definition) ;;
  runners <- subscript "runners" (md_runners definition) ;;
  let runner_names := map rd_name runners in
  let runner_ids := map rd_id runners in
  let status := map rd_status runners in
  let bsps := collect_bsps runners in
  winner <- extract_winner_info runner_names runner_ids status bsps ;;
  favourite_info <- extract_favourite_info runner_names runner_ids bsps ;;
  let m := set_post_market m winner favourite_info in
  m <- sport_hook (mb_sport mb) m market_name ;;
  Ok (set_metadata mb m).

(** ** Building the metadata base and running the pipeline

    [datetime.strptime(_, "%Y-%m-%dT%H:%M:%S.%fZ")] is a library
    function: it is a parameter of the pipeline, [None] standing for the
    [ValueError] it raises on a string that is not in the format. *)

Section Pipeline.
Context {R : Rounding}.
Variable strptime : string -> option datetime.

Definition parse_date (name : string) (field : option string) : result datetime :=
  s <- subscript name field ;;
  match strptime s with
  | Some d => Ok d
  | None => Raise ValueError
  end.

Definition format_metadata (mc : market_change)
    : result (metadata * string * string) :=
  market_id <- subscript "id" (mc_id mc) ;;
  definition <- subscript "marketDefinition" (mc_marketDefinition mc) ;;
  event_id <- subscript "eventId" (md_eventId definition) ;;
  let _id := ("metadata_" ++ market_id ++ "_" ++ event_id)%string in
  openDate <- parse_date "openDate" (md_openDate definition) ;;
  marketTime <- parse_date "marketTime" (md_marketTime definition) ;;
  suspendTime <- parse_date "suspendTime" (md_suspendTime definition) ;;
  Ok (mkMetadata market_id _id event_id
        (mkParsedDefinition definition openDate marketTime suspendTime)
        (mc_rc mc) None None None None None None None None None None,
      market_id, event_id).

Definition update_market_definition (mc : market_change)
    : result (option parsed_definition) :=
  match mc_marketDefinition mc with
  | None => Ok None
  | Some definition =>
      if md_truthy definition
      then r <- format_metadata mc ;;
           Ok (Some (m_marketDefinition (fst (fst r))))
      else Ok None
  end.

Definition create_ts_document (market_id : string)
    (ladder : list (Z * formatted_runner))
    (market_definition : option parsed_definition) (pt : timestamp)
    : ts_document :=
  mkTsDocument pt market_id ladder market_definition.

(** [marketdata[-1]] *)
Definition last_item {A : Type} (l : list A) : result A :=
  match rev l with
  | [] => Raise IndexError
  | x :: _ => Ok x
  end.

Definition MetadataBuilder_init (s : sport) (marketdata : list packet)
    (in_play_start : option timestamp) (in_play_end : timestamp)
    : result metadata_builder :=
  last_packet <- last_item marketdata ;;
  mc <- subscript "mc" (p_mc last_packet) ;;
  mc0 <- item mc 0 ;;
  r <- format_metadata mc0 ;;
  let m := fst (fst r) in
  let m :=
    mkMetadata (m_marketId m) (m__id m) (m_eventId m) (m_marketDefinition m)
      (m_rc m) in_play_start (Some in_play_end)
      (m_pre0ladder m) (m_pre5ladder m) (m_pre10ladder m)
      (m_winnerInfo m) (m_favouriteInfo m)
      (m_raceTypeAdjusted m) (m_distance m) (m_isHandicap m) in
  Ok (mkMetadataBuilder s in_play_start in_play_end None None None
        m (snd (fst r)) (snd r)).

Fixpoint get_in_play_start_pt (marketdata : list packet)
    : result (option timestamp) :=
  match marketdata with
  | [] => Ok None
  | p :: rest =>
      r <- process_packet p ;;
      match mc_marketDefinition (snd r) with
      | None => get_in_play_start_pt rest
      | Some definition =>
          if md_truthy definition
          then in_play <- subscript "inPlay" (md_inPlay definition) ;;
               if (in_play : bool) then Ok (Some (fst r))
               else get_in_play_start_pt rest
          else get_in_play_start_pt rest
      end
  end.

Definition get_in_play_end_pt (marketdata : list packet) : result timestamp :=
  last_packet <- last_item marketdata ;;
  r <- process_packet last_packet ;;
  Ok (fst r).

Definition get_runner_ids (definition : market_definition) : result (list Z) :=
  runner_objects <- subscript "runners" (md_runners definition) ;;
  Ok (map rd_id runner_objects).

Record ladder_builder : Type := mkLadderBuilder {
  lb_marketdata : list raw_packet;
  lb_ladders : list ts_document;
  lb_current_ladder : book;
  lb_metadata_builder : metadata_builder
}.

Definition LadderBuilder_init (marketdata : list packet)
    (definition : market_definition) (meta_builder : sport)
    : result ladder_builder :=
  runner_ids <- get_runner_ids definition ;;
  let current_ladder := create_ladder_ds runner_ids in
  in_play_start <- get_in_play_start_pt marketdata ;;
  in_play_end <- get_in_play_end_pt marketdata ;;
  mb <- MetadataBuilder_init meta_builder marketdata in_play_start in_play_end ;;
  Ok (mkLadderBuilder [] [] current_ladder mb).

(** One iteration of the loop of [run]. *)
Definition run_packet (lb : ladder_builder) (p : packet) : result ladder_builder :=
  let mb := lb_metadata_builder lb in
  r <- process_packet p ;;
  let pt := fst r in
  let market_change := snd r in
  raw <- set_raw_marketdata (mb_market_id mb) p pt ;;
  current_ladder <- update_ladder (lb_current_ladder lb) market_change ;;
  market_definition <- update_market_definition market_change ;;
  let formatted_ladder := format_ladder current_ladder in
  let ts_ladder_document :=
    create_ts_document (mb_market_id mb) formatted_ladder market_definition pt in
  current_ladder <-
    raise_if_arbitrage current_ladder (ts_runners ts_ladder_document) ;;
  let mb := extend_pre_market mb ts_ladder_document pt in
  Ok (mkLadderBuilder
        (lb_marketdata lb ++ [raw])
        (lb_ladders lb ++ [ts_ladder_document])
        (reset_runner_trades current_ladder)
        mb).

Fixpoint run_packets (lb : ladder_builder) (marketdata : list packet)
    : result ladder_builder :=
  match marketdata with
  | [] => Ok lb
  | p :: rest =>
      lb' <- run_packet lb p ;;
      run_packets lb' rest
  end.

Definition run (lb : ladder_builder) (marketdata : list packet)
    : result (metadata * list ts_document * list raw_packet) :=
  lb <- run_packets lb marketdata ;;
  mb <- extend_post_market (lb_metadata_builder lb) ;;
  Ok (mb_metadata mb, lb_ladders lb, lb_marketdata lb).

(** [LadderBuilder(marketdata, market_definition, meta_builder).run()] *)
Definition pipeline (marketdata : list packet) (definition : market_definition)
    (meta_builder : sport)
    : result (metadata * list ts_document * list raw_packet) :=
  lb <- LadderBuilder_init marketdata definition meta_builder ;;
  run lb marketdata.

End Pipeline.

(** * Vocabulary of the statements, and an example market *)

Definition key_lt (a b : Q * Q) : Prop := fst a < fst b.
Definition key_gt (a b : Q * Q) : Prop := fst b < fst a.

(** Ascending and descending price order, without equal prices. *)
Definition ascending (l : ladder) : Prop := StronglySorted key_lt l.
Definition descending (l : ladder) : Prop := StronglySorted key_gt l.

(** The merged ladder with the removed levels filtered out. *)
Definition kept_levels (rl : runner_ladder) (chg : runner_change)
    (key : price_key) : ladder :=
  filter positive_size
    (dupdate Qeq_bool (side_of rl key) (list_ladder_to_dict (change_of chg key))).

(** [result] keeps the best levels of [kept]: what was dropped is worse
    than everything retained, and nothing is dropped before ten levels
    are retained. *)
Definition retained_top (better : Q * Q -> Q * Q -> Prop)
    (result kept : ladder) : Prop :=
  exists dropped,
    Permutation (result ++ dropped) kept /\
    (dropped <> [] -> List.length result = 10%nat) /\
    Forall (fun d => Forall (fun r => better r d) result) dropped.

(** A back ladder of ten levels and a change that removes one level,
    overwrites one and adds two, so that eleven levels compete. *)
Definition example_levels : ladder :=
  [(30, 5); (29, 5); (28, 5); (27, 5); (26, 5); (25, 5);
   (24, 5); (23, 5); (22, 5); (21, 5)].

Definition example_runner : runner_ladder :=
  mkRunnerLadder example_levels [] [] [] None None 0 30 PlusInf.

Definition example_change : runner_change :=
  mkRunnerChange 10 (Some [(29, 0); (28, 7); (31, 2); (20 # 1, 4); (31, 3)])
    None None None None.

(** The runner ladder after one runner change, field by field.  The best
    prices are not written by a runner change. *)
Definition changed_runner {R : Rounding}
    (rl : runner_ladder) (chg : runner_change)
    : runner_ladder :=
  mkRunnerLadder
    (update_runner_ladder rl chg ATB)
    (update_runner_ladder rl chg ATL)
    (update_runner_ladder rl chg TRD)
    (snd (update_runner_trades rl chg))
    (update_runner_value (ltp rl) (rc_ltp chg))
    (update_runner_value (tv rl) (rc_tv chg))
    (ttrdv (fst (update_runner_trades rl chg)))
    (bbp rl) (blp rl).

(** Two runner ladders that differ at most in [ttrdv]. *)
Definition same_but_ttrdv (a b : runner_ladder) : Prop :=
  a = set_ttrdv b (ttrdv a).

Definition best_back (l : ladder) : Q :=
  match l with
  | [] => default_best_back_price
  | level :: _ => fst level
  end.

Definition best_lay (l : ladder) : price_ext :=
  match l with
  | [] => default_best_lay_price
  | level :: _ => Fin (fst level)
  end.

(** What [check_arbitrage] stores for a runner. *)
Definition rebest (rl : runner_ladder) : runner_ladder :=
  set_best rl (best_back (atb rl)) (best_lay (atl rl)).

Definition is_max_key (m : Q) (l : ladder) : Prop :=
  (exists v, In (m, v) l) /\ forall k v, In (k, v) l -> k <= m.

Definition is_min_key (m : Q) (l : ladder) : Prop :=
  (exists v, In (m, v) l) /\ forall k v, In (k, v) l -> m <= k.

(** [bbp] is the greatest price of [atb], or 0 on an empty side. *)
Definition bbp_ok (rl : runner_ladder) : Prop :=
  match atb rl with
  | [] => bbp rl = 0
  | _ :: _ => is_max_key (bbp rl) (atb rl)
  end.

(** [blp] is the smallest price of [atl], or infinity on an empty side. *)
Definition blp_ok (rl : runner_ladder) : Prop :=
  match atl rl with
  | [] => blp rl = PlusInf
  | _ :: _ => exists m, blp rl = Fin m /\ is_min_key m (atl rl)
  end.

Definition runner_sorted (rl : runner_ladder) : Prop :=
  descending (atb rl) /\ ascending (atl rl) /\ ascending (trd rl).

(** Every runner of the book satisfies [P]. *)
Definition book_all (P : runner_ladder -> Prop) (cl : book) : Prop :=
  forall id rl, dget Z.eqb cl id = Some rl -> P rl.

Definition book_ok (cl : book) : Prop :=
  dict_wf Z.eqb cl /\
  book_all (fun rl => runner_sorted rl /\ bbp_ok rl /\ blp_ok rl) cl.

(** A strict reading of ["%Y-%m-%dT%H:%M:%S.%fZ"] with fixed-width
    fields, used to run the pipeline on the example market; the theorems
    hold for any parser. *)
Definition digit_value (c : ascii) : option Z :=
  if is_digit c then Some (Z.of_nat (nat_of_ascii c) - 48)%Z else None.

Fixpoint take_digits (n : nat) (s : string) (acc : Z) : option (Z * string) :=
  match n with
  | O => Some (acc, s)
  | S n' =>
      match s with
      | String c s' =>
          match digit_value c with
          | Some d => take_digits n' s' (acc * 10 + d)%Z
          | None => None
          end
      | EmptyString => None
      end
  end.

Definition field (width : nat) (lo hi : Z) (sep : ascii) (s : string)
    : option (Z * string) :=
  match take_digits width s 0%Z with
  | Some (v, String c rest) =>
      if Ascii.eqb c sep && (lo <=? v)%Z && (v <=? hi)%Z then Some (v, rest)
      else None
  | _ => None
  end.

Definition fraction (s : string) : option Z :=
  let (ds, rest) := span_digits s in
  let n := String.length ds in
  match take_digits n ds 0%Z, rest with
  | Some (v, _), String "Z"%char EmptyString =>
      if (1 <=? n)%nat && (n <=? 6)%nat
      then Some (v * 10 ^ Z.of_nat (6 - n))%Z else None
  | _, _ => None
  end.

Definition strptime_iso (s : string) : option datetime :=
  match field 4 1 9999 "-" s with
  | Some (y, s) =>
  match field 2 1 12 "-" s with
  | Some (mo, s) =>
  match field 2 1 31 "T" s with
  | Some (d, s) =>
  match field 2 0 23 ":" s with
  | Some (h, s) =>
  match field 2 0 59 ":" s with
  | Some (mi, s) =>
  match field 2 0 59 "." s with
  | Some (se, s) =>
  match fraction s with
  | Some us => Some (mkDatetime y mo d h mi se us)
  | None => None
  end
  | None => None end
  | None => None end
  | None => None end
  | None => None end
  | None => None end
  | None => None end.

Definition example_definition (in_play : bool) (runners : list runner_def)
    : market_definition :=
  mkMarketDefinition (Some "32100"%string)
    (Some "2023-01-03T12:30:00.000Z"%string) (Some "2023-01-03T12:30:00.000Z"%string)
    (Some "2023-01-03T12:30:00.000Z"%string)
    (Some in_play) (Some "2m4f Hcap Hrd"%string) (Some "WIN"%string) (Some runners)
    true.

Definition example_roster : list runner_def :=
  [mkRunnerDef 10 "Arkle" "ACTIVE" None; mkRunnerDef 20 "Desert Orchid" "ACTIVE" None].

Definition example_result : list runner_def :=
  [mkRunnerDef 10 "Arkle" "LOSER" (Some 5); mkRunnerDef 20 "Desert Orchid" "WINNER" (Some 3)].

Definition example_packet (pt : Z) (rc : list runner_change)
    (definition : option market_definition) : packet :=
  mkPacket (Some pt) (Some [mkMarketChange (Some "1.209"%string) (Some rc) definition])
    (Some "clk"%string) (Some "mcm"%string).

(** Four packets: the market definition with a first quote, a trade, a
    crossed book on the second runner, and the in-play transition with
    the final roster. *)
Definition example_stream (final : list runner_def) : list packet :=
  [example_packet 500001
     [mkRunnerChange 10 (Some [(5 # 2, 100)]) (Some [(3, 50)]) None None None]
     (Some (example_definition false example_roster));
   example_packet 700001
     [mkRunnerChange 10 (Some [(5 # 2, 90)]) None (Some [(5 # 2, 10)])
        (Some (5 # 2)) (Some 10)]
     None;
   example_packet 999500
     [mkRunnerChange 20 (Some [(3, 10)]) (Some [(2, 10)]) None None None]
     None;
   example_packet 1000000 []
     (Some (example_definition true final))].

Definition example_marketdata : list packet := example_stream example_result.

(** A final roster in which the winner has no [bsp]. *)
Definition winner_without_bsp : list runner_def :=
  [mkRunnerDef 10 "Arkle" "WINNER" None;
   mkRunnerDef 20 "Desert Orchid" "LOSER" (Some 3)].

(** A final roster in which a runner before the winner has no [bsp]. *)
Definition loser_without_bsp : list runner_def :=
  [mkRunnerDef 10 "Arkle" "LOSER" None;
   mkRunnerDef 20 "Desert Orchid" "WINNER" (Some 3)].

Definition known_runner (cl : book) (chg : runner_change) : Prop :=
  dget Z.eqb cl (rc_id chg) <> None.

Definition trade_runner : runner_ladder :=
  mkRunnerLadder [(5 # 2, 100)] [(3, 50)] [(5 # 2, 4)] [] None None 4
    (5 # 2) (Fin 3).

(** A back hit, a lay hit, a trade between the best prices, and a
    revaluation below the volume already traded at 2.5. *)
Definition trade_change : runner_change :=
  mkRunnerChange 10 None None
    (Some [(5 # 2, 10); (3, 5); (14 # 5, 1); (5 # 2, 3)]) None None.

(** Offering a snapshot to the metadata builder, as [run] does. *)
Definition offer (mb : metadata_builder) (doc : ts_document) : metadata_builder :=
  extend_pre_market mb doc (ts_pt doc).

Definition capture_all (mb : metadata_builder) (docs : list ts_document)
    : metadata_builder :=
  fold_left offer docs mb.

(** The snapshot is within [threshold] milliseconds of the in-play
    start (or after it). *)
Definition within (in_play_start : timestamp) (threshold : Z)
    (doc : ts_document) : bool :=
  (in_play_start - ts_pt doc <? threshold)%Z.

(** The runners of the first snapshot of the stream within the window. *)
Definition first_within (in_play_start : timestamp) (threshold : Z)
    (docs : list ts_document) : option (list (Z * formatted_runner)) :=
  option_map ts_runners (find (within in_play_start threshold) docs).

(** The metadata fields mirror the builder's three captured documents. *)
Definition coupled (mb : metadata_builder) : Prop :=
  m_pre0ladder (mb_metadata mb) = option_map ts_runners (mb_pre0ladder mb) /\
  m_pre5ladder (mb_metadata mb) = option_map ts_runners (mb_pre5ladder mb) /\
  m_pre10ladder (mb_metadata mb) = option_map ts_runners (mb_pre10ladder mb).

Definition fresh (mb : metadata_builder) : Prop :=
  mb_pre0ladder mb = None /\ mb_pre5ladder mb = None /\ mb_pre10ladder mb = None /\
  coupled mb /\
  m_inPlayStartTime (mb_metadata mb) = mb_in_play_start mb.

(** What a captured field holds after the snapshots [docs] were offered,
    when it held [held] before. *)
Definition captured (mb : metadata_builder) (threshold : Z)
    (held : option ts_document) (docs : list ts_document) : option ts_document :=
  match held with
  | Some d => Some d
  | None =>
      match mb_in_play_start mb with
      | Some t => find (within t threshold) docs
      | None => None
      end
  end.

Definition no_snapshot_within (start : option timestamp) (threshold : Z)
    (docs : list ts_document) : Prop :=
  match start with
  | None => True
  | Some t => forall d, In d docs -> within t threshold d = false
  end.

(** The exceptions with which a packet is rejected. *)
Definition MalformedPacket (e : exn) : Prop :=
  e = KeyError (KField "pt") \/ e = KeyError (KField "mc") \/
  e = IndexError \/ e = AssertionError.

(** The fields the metadata base is built from: the market id, the
    market definition with its event id, and the three date strings,
    each accepted by the date parser. *)
Definition base_fields (strptime : string -> option datetime)
    (mc : market_change) (id eid : string)
    (definition : market_definition) (d1 d2 d3 : datetime) : Prop :=
  mc_id mc = Some id /\
  mc_marketDefinition mc = Some definition /\
  md_eventId definition = Some eid /\
  (exists s, md_openDate definition = Some s /\ strptime s = Some d1) /\
  (exists s, md_marketTime definition = Some s /\ strptime s = Some d2) /\
  (exists s, md_suspendTime definition = Some s /\ strptime s = Some d3).

(** The record [format_metadata] returns on those fields. *)
Definition base_record (mc : market_change) (id eid : string)
    (definition : market_definition) (d1 d2 d3 : datetime) : metadata :=
  mkMetadata id ("metadata_" ++ id ++ "_" ++ eid) eid
    (mkParsedDefinition definition d1 d2 d3) (mc_rc mc)
    None None None None None None None None None None.

(** ** Vocabulary of the further properties *)

Definition trade_volume (t : trade) : Q := snd (fst t).

(** The sum of the volumes of a list of trades. *)
Definition total_volume (l : list trade) : Q :=
  fold_right (fun t acc => trade_volume t + acc) 0 l.

(** A side as [update_runner_ladder] leaves it: positive sizes, prices
    in the side's order, at most ten levels on [atb] and [atl]. *)
Definition side_ok (key : price_key) (l : ladder) : Prop :=
  Forall (fun kv => 0 < snd kv) l /\
  match key with
  | ATB => descending l /\ (List.length l <= 10)%nat
  | ATL => ascending l /\ (List.length l <= 10)%nat
  | TRD => ascending l
  end.

(** The size a price has after the merge and the removal of the levels
    without a positive size. *)
Definition kept_size (merged : ladder) (k : Q) : option Q :=
  match dget Qeq_bool merged k with
  | Some v => if Qlt_bool 0 v then Some v else None
  | None => None
  end.

Definition sides_ok (rl : runner_ladder) : Prop :=
  side_ok ATB (atb rl) /\ side_ok ATL (atl rl) /\ side_ok TRD (trd rl).

(** What a snapshot shows of a runner: each side that is present is
    non-empty and in the state [side_ok] describes, and a scalar that is
    present is not zero. *)
Definition snapshot_ok (fr : formatted_runner) : Prop :=
  (forall l, f_atb fr = Some l -> l <> [] /\ side_ok ATB l) /\
  (forall l, f_atl fr = Some l -> l <> [] /\ side_ok ATL l) /\
  (forall l, f_trd fr = Some l -> l <> [] /\ side_ok TRD l) /\
  (forall q, f_ltp fr = Some q -> ~ q == 0) /\
  (forall q, f_tv fr = Some q -> ~ q == 0) /\
  (forall l, f_trades fr = Some l -> l <> []).

(** Every entry of the book satisfies [P]. *)
Definition book_every (P : runner_ladder -> Prop) (cl : book) : Prop :=
  Forall (fun kv => P (snd kv)) cl.

(** The runner change list does not name the runner. *)
Definition unnamed (id : Z) (rc : list runner_change) : Prop :=
  Forall (fun chg => rc_id chg <> id) rc.

(** The packet's market change carries a definition with [inPlay] true. *)
Definition packet_in_play (p : packet) : bool :=
  match p_mc p with
  | Some (mc :: _) =>
      match mc_marketDefinition mc with
      | Some d =>
          match md_inPlay d with
          | Some b => b
          | None => false
          end
      | None => false
      end
  | _ => false
  end.

(** The snapshot made for a packet: its timestamp is the packet's [pt],
    its [metadata] is the market id [mid], and it carries a market
    definition exactly when the packet's market change has a non-empty
    one. *)
Definition snapshot_of (mid : string) (p : packet) (doc : ts_document) : Prop :=
  p_pt p = Some (ts_pt doc) /\
  ts_metadata doc = mid /\
  exists mc,
    p_mc p = Some [mc] /\
    is_some (ts_marketDefinition doc) =
      match mc_marketDefinition mc with
      | Some d => md_truthy d
      | None => false
      end.

(** The rewritten packet: the timestamp, the market id, the unchanged
    market changes. *)
Definition rewrite_of (mid : string) (p : packet) (r : raw_packet) : Prop :=
  p_pt p = Some (raw_pt r) /\ raw_metadata r = mid /\ raw_mc r = p_mc p.

(** The condition on the market definition of a market change under
    which [update_market_definition] does not raise. *)
Definition definition_ok (strptime : string -> option datetime)
    (mc : market_change) : Prop :=
  match mc_marketDefinition mc with
  | None => True
  | Some d =>
      md_truthy d = false \/
      exists id eid d1 d2 d3, base_fields strptime mc id eid d d1 d2 d3
  end.

(** No runner of the book has pending trades. *)
Definition quiet (cl : book) : Prop :=
  book_all (fun rl => trades rl = []) cl.

(** The runner's status is [WINNER]. *)
Definition is_winner (r : runner_def) : bool :=
  String.eqb (rd_status r) "WINNER".

(** The winner entry made of a runner's own name, id and [bsp]. *)
Definition winner_of (r : runner_def) : winner_info :=
  mkWinnerInfo (rd_name r) (rd_id r) (rd_bsp r).

(** The favourite is the runner at position [i] of the three lists. *)
Definition favourite_at (runner_names : list string) (runner_ids : list Z)
    (bsp : list Q) (f : favourite) (i : nat) : Prop :=
  nth_error runner_names i = Some (fav_name f) /\
  nth_error runner_ids i = Some (fav_id f) /\
  nth_error bsp i = Some (fav_bsp f).

(** The market gets the race fields: the builder is the horse racing
    one and the market type is [WIN]. *)
Definition race_market (s : sport) (d : market_definition) : bool :=
  match s with
  | HorseRacing =>
      match md_marketType d with
      | Some market_type => String.eqb market_type "WIN"
      | None => false
      end
  | _ => false
  end.

(** What the post-market step reads and writes in a builder. *)
Definition post_view (mb : metadata_builder) :=
  let m := mb_metadata mb in
  (mb_sport mb, m_marketDefinition m, m_winnerInfo m, m_favouriteInfo m,
   m_raceTypeAdjusted m, m_distance m, m_isHandicap m).

(** * The over/under strategy ([football/strats/strat_ou.py])

    [StratOU] replays stored snapshots and tracks the playing time.  A
    snapshot's market definition is a JSON object: the two keys the code
    reads, and whether it has any other key (an empty object is falsy).
    [current_timestamp] starts as [np.inf]; [milliseconds] starts as
    [0.0] and only has integers added to it, so it is kept as an
    integer.  The keys of a snapshot dictionary are taken as already
    converted by [int(pt)]. *)













(** Every character of the string is a digit. *)
Fixpoint all_digits (s : string) : bool :=
  match s with
  | EmptyString => true
  | String c s' => is_digit c && all_digits s'
  end.

(** The three forms of a distance: [2m4f] (or [2mf]), [2m], [4f]. *)
Definition distance_shape (m : string) : Prop :=
  exists ds, ds <> EmptyString /\ all_digits ds = true /\
    (m = (ds ++ "m")%string \/ m = (ds ++ "f")%string \/
     exists ds2, all_digits ds2 = true /\ m = (ds ++ "m" ++ ds2 ++ "f")%string).

(** The name has a digit directly followed by the letter [m] or [f]. *)
Definition has_distance (name : string) : Prop :=
  exists pre c l post,
    name = (pre ++ String c (String l post))%string /\
    is_digit c = true /\ (l = "m"%char \/ l = "f"%char).

(** * Market files ([exchange/betfair_utils.py]) *)

(** [s.split("/")]: the pieces between the slashes, at least one. *)
Fixpoint split_slash (s : string) : list string :=
  match s with
  | EmptyString => [EmptyString]
  | String c s' =>
      if Ascii.eqb c "/" then EmptyString :: split_slash s'
      else match split_slash s' with
           | piece :: pieces => String c piece :: pieces
           | [] => [String c EmptyString]
           end
  end.

Definition is_market_file (file_key : string) : bool :=
  let file_name := last (split_slash file_key) EmptyString in
  prefix "1." file_name.

(** The string has no slash. *)
Fixpoint no_slash (s : string) : bool :=
  match s with
  | EmptyString => true
  | String c s' => negb (Ascii.eqb c "/") && no_slash s'
  end.

(** * Batched inserts ([exchange/mongo.py])

    [insert_many] is modelled by the calls it issues on the database,
    in the order it issues them, for a database on which no call
    fails. *)

Inductive db_call (A : Type) : Type :=
| CreateCollection
| InsertMany (batch : list A).
Arguments CreateCollection {A}.
Arguments InsertMany {A} batch.

(** [range(0, stop, step)] for a positive [step]. *)
Definition range_step (stop step : nat) : list nat :=
  map (fun k => (k * step)%nat) (seq 0 ((stop + step - 1) / step)).

(** [data[i:j]] *)
Definition slice {A : Type} (data : list A) (i j : nat) : list A :=
  firstn (j - i) (skipn i data).

Definition BATCH : nat := 1000.

(** [metadata_duplicated]: the metadata insert ended in a
    [DuplicateKeyError]; [listed]: the collection is among
    [list_collection_names()]; [ts]: [type == "ts"]. *)
Definition insert_many {A : Type} (metadata_duplicated listed ts : bool)
    (data : list A) : list (db_call A) :=
  if metadata_duplicated then []
  else
    (if negb listed && ts then [CreateCollection] else []) ++
    (if (length data <? BATCH)%nat then [InsertMany data]
     else map (fun i => InsertMany (slice data i (i + BATCH)))
            (range_step (length data) BATCH)).

(** The documents of the insert calls, in order. *)
Fixpoint inserted {A : Type} (calls : list (db_call A)) : list (list A) :=
  match calls with
  | [] => []
  | CreateCollection :: rest => inserted rest
  | InsertMany batch :: rest => batch :: inserted rest
  end.

(** * Facts about dictionaries *)

Section DictFacts.
Context {K V : Type}.
Variable keq : K -> K -> bool.

Local Abbreviation dget := (@dget K V keq).
Local Abbreviation dset := (@dset K V keq).
Local Abbreviation dupdate := (@dupdate K V keq).
Local Abbreviation eqk := (@eqk K V keq).
Local Abbreviation dict_wf := (@dict_wf K V keq).

Hypothesis keq_refl : forall k, keq k k = true.
Hypothesis keq_sym : forall a b, keq a b = true -> keq b a = true.
Hypothesis keq_trans :
  forall a b c, keq a b = true -> keq b c = true -> keq a c = true.

Lemma keq_false_sym a b : keq a b = false -> keq b a = false.
Proof.
  intros H. destruct (keq b a) eqn:E; [|reflexivity].
  apply keq_sym in E. congruence.
Qed.

Lemma keq_rewrite_r a b c : keq a b = true -> keq c a = keq c b.
Proof.
  intros H. destruct (keq c a) eqn:E1, (keq c b) eqn:E2; try reflexivity.
  - rewrite (keq_trans _ _ _ E1 H) in E2. discriminate.
  - apply keq_sym in H. rewrite (keq_trans _ _ _ E2 H) in E1. discriminate.
Qed.

Lemma dget_keq d a b : keq a b = true -> dget d a = dget d b.
Proof.
  intros H. induction d as [|[k v] d IH]; simpl; [reflexivity|].
  rewrite (keq_rewrite_r _ _ k H). now rewrite IH.
Qed.

Lemma dget_dset_eq d k k' v : keq k k' = true -> dget (dset d k v) k' = Some v.
Proof.
  intros H. induction d as [|[k0 v0] d IH]; simpl.
  - now rewrite H.
  - destruct (keq k0 k) eqn:E; simpl.
    + now rewrite (keq_trans _ _ _ E H).
    + destruct (keq k0 k') eqn:E'; [|exact IH].
      apply keq_sym in H. rewrite (keq_trans _ _ _ E' H) in E. discriminate.
Qed.

Lemma dget_dset_ne d k k' v : keq k k' = false -> dget (dset d k v) k' = dget d k'.
Proof.
  intros H. induction d as [|[k0 v0] d IH]; simpl.
  - now rewrite H.
  - destruct (keq k0 k) eqn:E; simpl.
    + destruct (keq k0 k') eqn:E'; [|reflexivity].
      apply keq_sym in E. rewrite (keq_trans _ _ _ E E') in H. discriminate.
    + destruct (keq k0 k'); [reflexivity|exact IH].
Qed.

Lemma dget_dset d k k' v :
  dget (dset d k v) k' = if keq k k' then Some v else dget d k'.
Proof.
  destruct (keq k k') eqn:E.
  - now apply dget_dset_eq.
  - now apply dget_dset_ne.
Qed.

Lemma dupdate_snoc d u kv :
  dupdate d (u ++ [kv]) = dset (dupdate d u) (fst kv) (snd kv).
Proof. unfold dupdate. now rewrite fold_left_app. Qed.

(** Lookup after a merge: the update wins, otherwise the old entry stays. *)
Lemma dget_dupdate d u k :
  dget (dupdate d u) k =
  match dget (dupdate [] u) k with
  | Some v => Some v
  | None => dget d k
  end.
Proof.
  induction u as [|kv u IH] using rev_ind.
  - reflexivity.
  - rewrite !dupdate_snoc, !dget_dset.
    destruct (keq (fst kv) k); [reflexivity|exact IH].
Qed.

(** The comprehension keeps, for each key, its last item in the list. *)
Lemma dget_comprehension u k :
  dget (dupdate [] u) k = dget (rev u) k.
Proof.
  induction u as [|kv u IH] using rev_ind.
  - reflexivity.
  - rewrite dupdate_snoc, dget_dset, rev_app_distr. simpl.
    destruct kv as [k0 v0]; simpl.
    destruct (keq k0 k); [reflexivity|exact IH].
Qed.

Lemma InA_eqk_dget d k v : InA eqk (k, v) d <-> dget d k <> None.
Proof.
  induction d as [|[k0 v0] d IH]; simpl.
  - split; [intros H; inversion H|congruence].
  - split.
    + intros H. inversion H as [? ? E|? ? E]; subst.
      * unfold eqk in E; simpl in E. apply keq_sym in E. now rewrite E.
      * destruct (keq k0 k); [discriminate|now apply IH].
    + intros H. destruct (keq k0 k) eqn:E.
      * left. unfold eqk; simpl. now apply keq_sym.
      * right. now apply IH.
Qed.

Lemma dget_In d k v : dget d k = Some v -> exists k', keq k' k = true /\ In (k', v) d.
Proof.
  induction d as [|[k0 v0] d IH]; simpl; [discriminate|].
  destruct (keq k0 k) eqn:E.
  - intros [= <-]. exists k0. auto.
  - intros H. destruct (IH H) as (k' & Hk & Hin). exists k'. auto.
Qed.

Lemma In_dget d k v : dict_wf d -> In (k, v) d -> dget d k = Some v.
Proof.
  induction d as [|[k0 v0] d IH]; simpl; [easy|].
  intros Hwf [[= -> ->]|Hin].
  - now rewrite keq_refl.
  - inversion Hwf as [|? ? Hnin Hwf']; subst.
    destruct (keq k0 k) eqn:E.
    + exfalso. apply Hnin. apply InA_eqk_dget with (v := v0).
      rewrite (dget_keq d _ _ E). rewrite (IH Hwf' Hin). discriminate.
    + now apply IH.
Qed.

Lemma dict_wf_dset d k v : dict_wf d -> dict_wf (dset d k v).
Proof.
  unfold dict_wf. induction d as [|[k0 v0] d IH]; simpl; intros Hwf.
  - constructor; [intros H; inversion H|constructor].
  - inversion Hwf as [|? ? Hnin Hwf']; subst.
    destruct (keq k0 k) eqn:E.
    + constructor; [|exact Hwf'].
      intros H. apply Hnin. apply InA_eqk_dget with (v := v0).
      now apply InA_eqk_dget in H.
    + constructor; [|now apply IH].
      intros H. apply InA_eqk_dget in H. rewrite dget_dset_ne in H.
      * apply Hnin. now apply InA_eqk_dget with (v := v0).
      * now apply keq_false_sym.
Qed.

Lemma dict_wf_dupdate d u : dict_wf d -> dict_wf (dupdate d u).
Proof.
  revert d. induction u as [|kv u IH]; intros d Hwf; [exact Hwf|].
  apply IH. now apply dict_wf_dset.
Qed.

Lemma dkeys_dset_present d k v :
  dget d k <> None -> dkeys (dset d k v) = dkeys d.
Proof.
  induction d as [|[k0 v0] d IH]; simpl; [congruence|].
  destruct (keq k0 k); simpl; [reflexivity|].
  intros H. now rewrite IH.
Qed.

Lemma dget_app d1 d2 k :
  dget (d1 ++ d2) k =
  match dget d1 k with
  | Some v => Some v
  | None => dget d2 k
  end.
Proof.
  induction d1 as [|[k0 v0] d1 IH]; simpl; [reflexivity|].
  destruct (keq k0 k); [reflexivity|exact IH].
Qed.

(** In a dictionary the order of the items does not matter for lookup. *)
Lemma dget_rev_wf d k : dict_wf d -> dget (rev d) k = dget d k.
Proof.
  induction d as [|[k0 v0] d IH]; simpl; intros Hwf; [reflexivity|].
  inversion Hwf as [|? ? Hnin Hwf']; subst.
  rewrite dget_app, (IH Hwf'). simpl.
  destruct (keq k0 k) eqn:E.
  - destruct (dget d k) eqn:E'; [|reflexivity].
    exfalso. apply Hnin. apply InA_eqk_dget with (v := v0).
    rewrite (dget_keq d _ _ E). congruence.
  - now destruct (dget d k).
Qed.

(** [d.update(u)] for a dictionary [u]. *)
Lemma dget_dupdate_dict d u k :
  dict_wf u ->
  dget (dupdate d u) k =
  match dget u k with
  | Some v => Some v
  | None => dget d k
  end.
Proof.
  intros Hwf. rewrite dget_dupdate, dget_comprehension.
  now rewrite dget_rev_wf.
Qed.

End DictFacts.

(** * Facts about sorting *)

Section SortFacts.
Context {A : Type}.
Variable ltb : A -> A -> bool.

Local Abbreviation insert_sorted := (insert_sorted ltb).
Local Abbreviation py_sorted := (py_sorted ltb).
Local Abbreviation leb := (leb ltb).

Lemma insert_sorted_perm x l : Permutation (insert_sorted x l) (x :: l).
Proof.
  induction l as [|y l IH]; simpl; [reflexivity|].
  destruct (ltb y x); [|reflexivity].
  rewrite IH. apply perm_swap.
Qed.

Lemma py_sorted_perm l : Permutation (py_sorted l) l.
Proof.
  induction l as [|x l IH]; simpl; [reflexivity|].
  rewrite insert_sorted_perm. now constructor.
Qed.

Hypothesis ltb_asym : forall a b, ltb a b = true -> ltb b a = false.
Hypothesis leb_trans :
  forall a b c, leb a b = true -> leb b c = true -> leb a c = true.

Lemma insert_sorted_sorted x l :
  StronglySorted (fun a b => leb a b = true) l ->
  StronglySorted (fun a b => leb a b = true) (insert_sorted x l).
Proof.
  induction l as [|y l IH]; simpl; intros Hs.
  - constructor; constructor.
  - inversion Hs as [|? ? Hs' Hall]; subst.
    destruct (ltb y x) eqn:E.
    + constructor; [now apply IH|].
      eapply Permutation_Forall; [symmetry; apply insert_sorted_perm|].
      constructor; [|exact Hall].
      unfold leb. now rewrite (ltb_asym _ _ E).
    + assert (Hxy : leb x y = true) by (unfold leb; now rewrite E).
      constructor; [exact Hs|].
      constructor; [exact Hxy|].
      eapply Forall_impl; [|exact Hall].
      intros a Ha. now apply leb_trans with y.
Qed.

Lemma py_sorted_sorted l :
  StronglySorted (fun a b => leb a b = true) (py_sorted l).
Proof.
  induction l as [|x l IH]; simpl; [constructor|].
  now apply insert_sorted_sorted.
Qed.

End SortFacts.

(** * Facts about numbers *)

Lemma Qlt_bool_iff a b : Qlt_bool a b = true <-> a < b.
Proof.
  unfold Qlt_bool. rewrite negb_true_iff.
  split; intros H.
  - apply Qnot_le_lt. intros Hle. apply Qle_bool_iff in Hle. congruence.
  - destruct (Qle_bool b a) eqn:E; [|reflexivity].
    apply Qle_bool_iff in E. exfalso. now apply (Qlt_not_le a b).
Qed.

Lemma Qle_bool_false_iff a b : Qle_bool a b = false <-> b < a.
Proof.
  rewrite <- Qlt_bool_iff. unfold Qlt_bool.
  now rewrite negb_true_iff.
Qed.

Lemma Qeq_bool_false_iff a b : Qeq_bool a b = false <-> ~ a == b.
Proof.
  split.
  - apply Qeq_bool_neq.
  - intros H. destruct (Qeq_bool a b) eqn:E; [|reflexivity].
    apply Qeq_bool_iff in E. contradiction.
Qed.

(** Boolean comparisons on [Q] as propositions, for [lra]. *)
Ltac q_reflect :=
  repeat match goal with
  | H : Qeq_bool _ _ = true |- _ => apply Qeq_bool_iff in H
  | H : Qeq_bool _ _ = false |- _ => apply Qeq_bool_false_iff in H
  | H : Qle_bool _ _ = true |- _ => apply Qle_bool_iff in H
  | H : Qle_bool _ _ = false |- _ => apply Qle_bool_false_iff in H
  | H : Qlt_bool _ _ = true |- _ => apply Qlt_bool_iff in H
  | H : Qlt_bool _ _ = false |- _ =>
      apply negb_false_iff in H; apply Qle_bool_iff in H
  | |- Qeq_bool _ _ = true => apply Qeq_bool_iff
  | |- Qeq_bool _ _ = false => apply Qeq_bool_false_iff
  | |- Qle_bool _ _ = true => apply Qle_bool_iff
  | |- Qle_bool _ _ = false => apply Qle_bool_false_iff
  | |- Qlt_bool _ _ = true => apply Qlt_bool_iff
  | |- Qlt_bool _ _ = false => apply negb_false_iff; apply Qle_bool_iff
  end.

Lemma Qeq_bool_trans' a b c :
  Qeq_bool a b = true -> Qeq_bool b c = true -> Qeq_bool a c = true.
Proof. intros H1 H2. q_reflect. lra. Qed.

Lemma Zeqb_sym a b : Z.eqb a b = true -> Z.eqb b a = true.
Proof. rewrite !Z.eqb_eq. congruence. Qed.

Lemma Zeqb_trans a b c : Z.eqb a b = true -> Z.eqb b c = true -> Z.eqb a c = true.
Proof. rewrite !Z.eqb_eq. congruence. Qed.

(** ** The order on ladder items *)

Lemma item_ltb_asym a b : item_ltb a b = true -> item_ltb b a = false.
Proof.
  unfold item_ltb. destruct a as [k1 v1], b as [k2 v2]; simpl.
  destruct (Qeq_bool k1 k2) eqn:E1, (Qeq_bool k2 k1) eqn:E2; intros H;
    q_reflect; try lra; exfalso; (apply E1 || apply E2); lra.
Qed.

Lemma item_leb_trans a b c :
  leb item_ltb a b = true -> leb item_ltb b c = true -> leb item_ltb a c = true.
Proof.
  unfold leb, item_ltb. destruct a as [k1 v1], b as [k2 v2], c as [k3 v3]; simpl.
  rewrite !negb_true_iff.
  destruct (Qeq_bool k2 k1) eqn:E1, (Qeq_bool k3 k2) eqn:E2,
    (Qeq_bool k3 k1) eqn:E3; intros H1 H2; q_reflect; try lra;
    try (exfalso; (apply E1 || apply E2 || apply E3); lra).
Qed.

Lemma item_gtb_asym a b : item_gtb a b = true -> item_gtb b a = false.
Proof. unfold item_gtb. apply item_ltb_asym. Qed.

Lemma item_geb_trans a b c :
  leb item_gtb a b = true -> leb item_gtb b c = true -> leb item_gtb a c = true.
Proof.
  unfold leb, item_gtb. intros H1 H2.
  exact (item_leb_trans c b a H2 H1).
Qed.

(** ** Lists without equal keys, sorted lists and their prefixes *)

Section ListFacts.
Context {A : Type}.
Variable eqA : A -> A -> Prop.
Hypothesis eqA_sym : forall a b, eqA a b -> eqA b a.

Lemma InA_filter (f : A -> bool) x l : InA eqA x (filter f l) -> InA eqA x l.
Proof.
  induction l as [|y l IH]; simpl; [easy|].
  destruct (f y); intros H.
  - inversion H; subst; [now left|right; auto].
  - right; auto.
Qed.

Lemma NoDupA_filter (f : A -> bool) l : NoDupA eqA l -> NoDupA eqA (filter f l).
Proof.
  induction 1 as [|x l Hnin Hnd IH]; simpl; [constructor|].
  destruct (f x); [|exact IH].
  constructor; [|exact IH].
  intros H. apply Hnin. now apply InA_filter in H.
Qed.

Lemma InA_perm x l l' : Permutation l l' -> InA eqA x l -> InA eqA x l'.
Proof.
  intros Hp H. apply InA_alt in H. destruct H as (y & Hxy & Hin).
  apply InA_alt. exists y. split; [exact Hxy|].
  now apply Permutation_in with l.
Qed.

Lemma NoDupA_perm l l' : Permutation l l' -> NoDupA eqA l -> NoDupA eqA l'.
Proof.
  induction 1 as [|x l l' Hp IH|x y l|l l' l'' Hp1 IH1 Hp2 IH2]; intros Hnd.
  - constructor.
  - inversion Hnd as [|? ? Hnin Hnd']; subst.
    constructor; [|now apply IH].
    intros H. apply Hnin. apply InA_perm with l'; [now symmetry|exact H].
  - inversion Hnd as [|? ? Hnin Hnd']; subst.
    inversion Hnd' as [|? ? Hnin' Hnd'']; subst.
    constructor.
    + intros H. inversion H; subst; [|contradiction].
      apply Hnin. left. now apply eqA_sym.
    + constructor; [|exact Hnd''].
      intros H. apply Hnin. now right.
  - auto.
Qed.

Lemma StronglySorted_firstn (R : A -> A -> Prop) n l :
  StronglySorted R l -> StronglySorted R (firstn n l).
Proof.
  revert l. induction n as [|n IH]; intros l Hs; simpl; [constructor|].
  destruct l as [|x l]; [constructor|].
  inversion Hs as [|? ? Hs' Hall]; subst.
  constructor; [now apply IH|].
  rewrite Forall_forall in *. intros y Hy. apply Hall.
  rewrite <- (firstn_skipn n l). apply in_or_app. now left.
Qed.

Lemma StronglySorted_app_cross (R : A -> A -> Prop) l1 l2 :
  StronglySorted R (l1 ++ l2) ->
  Forall (fun b => Forall (fun a => R a b) l1) l2.
Proof.
  induction l1 as [|x l1 IH]; simpl; intros Hs.
  - apply Forall_forall. intros b _. constructor.
  - inversion Hs as [|? ? Hs' Hall]; subst.
    specialize (IH Hs'). rewrite Forall_forall in *.
    intros b Hb. constructor; [|now apply IH].
    apply Hall. apply in_or_app. now right.
Qed.

Lemma skipn_nonempty_length n (l : list A) :
  skipn n l <> [] -> List.length (firstn n l) = n.
Proof.
  intros H. apply firstn_length_le.
  destruct (Nat.le_gt_cases n (List.length l)) as [Hle|Hgt]; [exact Hle|].
  exfalso. apply H. apply skipn_all2. lia.
Qed.

End ListFacts.

(** ** Sorted ladders *)

Lemma eqk_Q_sym (a b : Q * Q) : eqk Qeq_bool a b -> eqk Qeq_bool b a.
Proof. unfold eqk. apply Qeq_bool_sym. Qed.

Lemma ladder_wf_dupdate (d u : ladder) :
  dict_wf Qeq_bool d -> dict_wf Qeq_bool (dupdate Qeq_bool d u).
Proof.
  apply dict_wf_dupdate.
  - apply Qeq_bool_sym.
  - apply Qeq_bool_trans'.
Qed.

Lemma sorted_distinct_ascending (l : ladder) :
  StronglySorted (fun a b => leb item_ltb a b = true) l ->
  dict_wf Qeq_bool l -> ascending l.
Proof.
  unfold ascending. induction 1 as [|x l Hs IH Hall]; intros Hwf; [constructor|].
  inversion Hwf as [|? ? Hnin Hwf']; subst.
  constructor; [now apply IH|].
  rewrite Forall_forall in *. intros y Hy.
  specialize (Hall y Hy). unfold leb, item_ltb in Hall.
  rewrite negb_true_iff in Hall. unfold key_lt.
  destruct (Qeq_bool (fst y) (fst x)) eqn:E.
  - exfalso. apply Hnin. apply InA_alt. exists y. split; [|exact Hy].
    unfold eqk. now apply Qeq_bool_sym.
  - q_reflect. destruct (Qlt_le_dec (fst x) (fst y)) as [Hlt|Hle]; [exact Hlt|].
    exfalso. apply E. lra.
Qed.

Lemma sorted_distinct_descending (l : ladder) :
  StronglySorted (fun a b => leb item_gtb a b = true) l ->
  dict_wf Qeq_bool l -> descending l.
Proof.
  unfold descending. induction 1 as [|x l Hs IH Hall]; intros Hwf; [constructor|].
  inversion Hwf as [|? ? Hnin Hwf']; subst.
  constructor; [now apply IH|].
  rewrite Forall_forall in *. intros y Hy.
  specialize (Hall y Hy). unfold leb, item_gtb, item_ltb in Hall.
  rewrite negb_true_iff in Hall. unfold key_gt.
  destruct (Qeq_bool (fst x) (fst y)) eqn:E.
  - exfalso. apply Hnin. apply InA_alt. exists y. split; [|exact Hy].
    exact E.
  - q_reflect. destruct (Qlt_le_dec (fst y) (fst x)) as [Hlt|Hle]; [exact Hlt|].
    exfalso. apply E. lra.
Qed.

Lemma ascending_wf (l : ladder) : ascending l -> dict_wf Qeq_bool l.
Proof.
  induction 1 as [|x l Hs IH Hall]; [constructor|].
  constructor; [|exact IH].
  intros H. apply InA_alt in H. destruct H as (y & Hxy & Hy).
  rewrite Forall_forall in Hall. specialize (Hall y Hy).
  unfold eqk in Hxy. unfold key_lt in Hall. q_reflect. lra.
Qed.

Lemma descending_wf (l : ladder) : descending l -> dict_wf Qeq_bool l.
Proof.
  induction 1 as [|x l Hs IH Hall]; [constructor|].
  constructor; [|exact IH].
  intros H. apply InA_alt in H. destruct H as (y & Hxy & Hy).
  rewrite Forall_forall in Hall. specialize (Hall y Hy).
  unfold eqk in Hxy. unfold key_gt in Hall. q_reflect. lra.
Qed.

Lemma kept_levels_wf rl chg key :
  dict_wf Qeq_bool (side_of rl key) -> dict_wf Qeq_bool (kept_levels rl chg key).
Proof.
  intros Hwf. unfold kept_levels, dict_wf.
  apply NoDupA_filter. now apply ladder_wf_dupdate.
Qed.

Lemma py_sorted_ascending (l : ladder) :
  dict_wf Qeq_bool l -> ascending (py_sorted item_ltb l).
Proof.
  intros Hwf. apply sorted_distinct_ascending.
  - apply py_sorted_sorted; [apply item_ltb_asym|apply item_leb_trans].
  - unfold dict_wf. apply NoDupA_perm with l; [apply eqk_Q_sym| |exact Hwf].
    symmetry. apply py_sorted_perm.
Qed.

Lemma py_sorted_descending (l : ladder) :
  dict_wf Qeq_bool l -> descending (py_sorted item_gtb l).
Proof.
  intros Hwf. apply sorted_distinct_descending.
  - apply py_sorted_sorted; [apply item_gtb_asym|apply item_geb_trans].
  - unfold dict_wf. apply NoDupA_perm with l; [apply eqk_Q_sym| |exact Hwf].
    symmetry. apply py_sorted_perm.
Qed.

Lemma firstn_retained_top better (sorted kept : ladder) :
  StronglySorted better sorted -> Permutation sorted kept ->
  retained_top better (firstn 10 sorted) kept.
Proof.
  intros Hs Hp. exists (skipn 10 sorted). repeat split.
  - now rewrite firstn_skipn.
  - apply skipn_nonempty_length.
  - apply StronglySorted_app_cross. now rewrite firstn_skipn.
Qed.

Lemma kept_levels_positive rl chg key :
  Forall (fun kv => 0 < snd kv) (kept_levels rl chg key).
Proof.
  apply Forall_forall. intros kv H. unfold kept_levels in H.
  apply filter_In in H. destruct H as [_ H].
  unfold positive_size in H. now apply Qlt_bool_iff.
Qed.

Lemma Forall_firstn {A : Type} (P : A -> Prop) n (l : list A) :
  Forall P l -> Forall P (firstn n l).
Proof.
  rewrite !Forall_forall. intros H x Hx. apply H.
  rewrite <- (firstn_skipn n l). apply in_or_app. now left.
Qed.

Lemma merged_lookup (d : ladder) (u : list (Q * Q)) (k : Q) :
  dget Qeq_bool (dupdate Qeq_bool d (list_ladder_to_dict u)) k =
  match dget Qeq_bool (rev u) k with
  | Some v => Some v
  | None => dget Qeq_bool d k
  end.
Proof.
  unfold list_ladder_to_dict.
  rewrite dget_dupdate_dict;
    try (apply Qeq_bool_sym || apply Qeq_bool_trans' || apply Qeq_bool_refl).
  - now rewrite dget_comprehension
      by (apply Qeq_bool_sym || apply Qeq_bool_trans').
  - apply ladder_wf_dupdate. constructor.
Qed.

(** * The ladder-side update *)

(** C5. A ladder-side update merges the update list into the side's
    mapping (the last entry for a price wins, other prices keep their
    size), drops every level whose size is not positive, and then keeps
    for [atb] the (at most) ten greatest prices in descending order, for
    [atl] the (at most) ten smallest prices in ascending order, and for
    [trd] all prices in ascending order.  Hence at most ten levels on
    [atb] and [atl], and only positive sizes; the snapshot emits the
    levels in the stored order. *)
Theorem update_runner_ladder_top10_sorted
    (rl : runner_ladder) (chg : runner_change) (key : price_key) :
  dict_wf Qeq_bool (side_of rl key) ->
  let merged :=
    dupdate Qeq_bool (side_of rl key) (list_ladder_to_dict (change_of chg key)) in
  let result := update_runner_ladder rl chg key in
  (forall k,
     dget Qeq_bool merged k =
     match dget Qeq_bool (rev (change_of chg key)) k with
     | Some v => Some v
     | None => dget Qeq_bool (side_of rl key) k
     end) /\
  Forall (fun kv => 0 < snd kv) result /\
  match key with
  | ATB =>
      descending result /\ (List.length result <= 10)%nat /\
      retained_top key_gt result (filter positive_size merged) /\
      f_atb (format_runner (set_atb rl result)) = if_nonempty result
  | ATL =>
      ascending result /\ (List.length result <= 10)%nat /\
      retained_top key_lt result (filter positive_size merged) /\
      f_atl (format_runner (set_atl rl result)) = if_nonempty result
  | TRD =>
      ascending result /\
      Permutation result (filter positive_size merged) /\
      f_trd (format_runner (set_trd rl result)) = if_nonempty result
  end.
Proof.
  intros Hwf merged result.
  pose proof (kept_levels_wf rl chg key Hwf) as Hkwf.
  pose proof (kept_levels_positive rl chg key) as Hpos.
  split; [intros k; apply merged_lookup|].
  split.
  - subst result. unfold update_runner_ladder. fold (kept_levels rl chg key).
    destruct key; try apply Forall_firstn;
      (eapply Permutation_Forall; [symmetry; apply py_sorted_perm|exact Hpos]).
  - subst result merged. unfold update_runner_ladder.
    fold (kept_levels rl chg key). destruct key.
    + pose proof (py_sorted_descending _ Hkwf) as Hs.
      repeat split.
      * now apply StronglySorted_firstn.
      * apply firstn_le_length.
      * apply firstn_retained_top; [exact Hs|apply py_sorted_perm].
    + pose proof (py_sorted_ascending _ Hkwf) as Hs.
      repeat split.
      * now apply StronglySorted_firstn.
      * apply firstn_le_length.
      * apply firstn_retained_top; [exact Hs|apply py_sorted_perm].
    + repeat split.
      * now apply py_sorted_ascending.
      * apply py_sorted_perm.
Qed.

Lemma example_levels_wf : dict_wf Qeq_bool example_levels.
Proof.
  apply descending_wf. unfold example_levels, descending.
  repeat (constructor; [|repeat constructor; unfold key_gt; simpl; lra]).
  constructor.
Qed.

Lemma update_runner_ladder_top10_sorted_witness :
  dict_wf Qeq_bool (side_of example_runner ATB) /\
  update_runner_ladder example_runner example_change ATB =
    [(31, 3); (30, 5); (28, 7); (27, 5); (26, 5); (25, 5);
     (24, 5); (23, 5); (22, 5); (21, 5)] /\
  descending (update_runner_ladder example_runner example_change ATB).
Proof.
  split; [exact example_levels_wf|].
  split; [reflexivity|].
  exact (proj1 (proj2 (proj2
    (update_runner_ladder_top10_sorted example_runner example_change ATB
       example_levels_wf)))).
Defined.

(** * One runner change *)

Lemma same_but_ttrdv_refl rl : same_but_ttrdv rl rl.
Proof. now destruct rl. Qed.

Lemma trade_step_frame {R : Rounding} ct st upd rl :
  same_but_ttrdv (fst st) rl -> same_but_ttrdv (fst (trade_step ct st upd)) rl.
Proof.
  destruct st as [r acc]. unfold trade_step. simpl.
  destruct (Qle_bool _ 0); simpl; [easy|].
  unfold same_but_ttrdv. intros ->. reflexivity.
Qed.

Lemma trade_loop_frame {R : Rounding} ct l st rl :
  same_but_ttrdv (fst st) rl ->
  same_but_ttrdv (fst (fold_left (trade_step ct) l st)) rl.
Proof.
  revert st. induction l as [|upd l IH]; intros st H; simpl; [exact H|].
  apply IH. now apply trade_step_frame.
Qed.

Lemma update_runner_trades_frame {R : Rounding} rl chg :
  same_but_ttrdv (fst (update_runner_trades rl chg)) rl.
Proof.
  unfold update_runner_trades. apply trade_loop_frame. apply same_but_ttrdv_refl.
Qed.

Lemma apply_runner_change_known {R : Rounding} cl chg rl :
  dget Z.eqb cl (rc_id chg) = Some rl ->
  apply_runner_change cl chg =
  Ok (dset Z.eqb cl (rc_id chg) (changed_runner rl chg)).
Proof.
  intros H. unfold apply_runner_change. rewrite H.
  unfold changed_runner.
  pose proof (update_runner_trades_frame rl chg) as Hf.
  destruct (update_runner_trades rl chg) as [rl1 tr]. simpl in *.
  rewrite Hf. destruct rl. reflexivity.
Qed.

Lemma apply_runner_change_unknown {R : Rounding} cl chg :
  dget Z.eqb cl (rc_id chg) = None ->
  apply_runner_change cl chg = Raise (KeyError (KRunner (rc_id chg))).
Proof. intros H. unfold apply_runner_change. now rewrite H. Qed.

(** * Scalar fields *)

(** C9. For [ltp] and [tv]: a truthy value carried by the change
    overwrites the stored one; an absent value or a falsy one (a literal
    zero) leaves the stored value as it was.  A zero is therefore never
    recorded: if the stored value is not a zero, neither is the new one.
    A runner change writes both fields this way. *)
Theorem update_runner_value_truthy_only
    (rl : runner_ladder) (chg : runner_change) (stored change : option Q) :
  (truthy change = true -> update_runner_value stored change = change) /\
  (truthy change = false -> update_runner_value stored change = stored) /\
  update_runner_value stored None = stored /\
  (forall z, z == 0 -> update_runner_value stored (Some z) = stored) /\
  ((forall q, stored = Some q -> ~ q == 0) ->
   forall q, update_runner_value stored change = Some q -> ~ q == 0) /\
  (forall cl, dget Z.eqb cl (rc_id chg) = Some rl ->
   exists rl',
     apply_runner_change cl chg = Ok (dset Z.eqb cl (rc_id chg) rl') /\
     ltp rl' = update_runner_value (ltp rl) (rc_ltp chg) /\
     tv rl' = update_runner_value (tv rl) (rc_tv chg)).
Proof.
  unfold update_runner_value.
  split; [now intros ->|].
  split; [now intros ->|].
  split; [reflexivity|].
  split.
  - intros z Hz. simpl. apply Qeq_bool_iff in Hz. now rewrite Hz.
  - split.
    + intros Hst q. destruct (truthy change) eqn:E.
      * intros ->. simpl in E. rewrite negb_true_iff in E. now q_reflect.
      * apply Hst.
    + intros cl Hcl. exists (changed_runner rl chg).
      split; [now apply apply_runner_change_known|split; reflexivity].
Qed.

(** * The book between packets *)

Section DictMap.
Context {K V W : Type}.
Variable keq : K -> K -> bool.
Variable f : V -> W.

Lemma dget_map_values (d : list (K * V)) k :
  dget keq (map (fun kv => (fst kv, f (snd kv))) d) k = option_map f (dget keq d k).
Proof.
  induction d as [|[k0 v0] d IH]; simpl; [reflexivity|].
  destruct (keq k0 k); [reflexivity|exact IH].
Qed.

Lemma dict_wf_map_values (d : list (K * V)) :
  dict_wf keq d -> dict_wf keq (map (fun kv => (fst kv, f (snd kv))) d).
Proof.
  unfold dict_wf. induction 1 as [|[k0 v0] d Hnin Hnd IH]; simpl; constructor.
  - intros H. apply Hnin. apply InA_alt in H. destruct H as (y & Hy & Hin).
    apply in_map_iff in Hin. destruct Hin as ([k1 v1] & <- & Hin).
    apply InA_alt. exists (k1, v1). split; [exact Hy|exact Hin].
  - exact IH.
Qed.

End DictMap.

Lemma best_price_back l :
  best_price_of (fun q => q) default_best_back_price (if_nonempty l) = best_back l.
Proof. now destruct l. Qed.

Lemma best_price_lay l :
  best_price_of Fin default_best_lay_price (if_nonempty l) = best_lay l.
Proof. now destruct l. Qed.

Lemma rebest_idem rl : rebest (rebest rl) = rebest rl.
Proof. reflexivity. Qed.

Lemma descending_head_max (l : ladder) x :
  descending (x :: l) -> is_max_key (fst x) (x :: l).
Proof.
  intros Hs. inversion Hs as [|? ? _ Hall]; subst. split.
  - exists (snd x). left. now destruct x.
  - intros k v [->|Hin]; simpl; [lra|].
    rewrite Forall_forall in Hall. specialize (Hall _ Hin).
    unfold key_gt in Hall. simpl in Hall. lra.
Qed.

Lemma ascending_head_min (l : ladder) x :
  ascending (x :: l) -> is_min_key (fst x) (x :: l).
Proof.
  intros Hs. inversion Hs as [|? ? _ Hall]; subst. split.
  - exists (snd x). left. now destruct x.
  - intros k v [->|Hin]; simpl; [lra|].
    rewrite Forall_forall in Hall. specialize (Hall _ Hin).
    unfold key_lt in Hall. simpl in Hall. lra.
Qed.

Lemma rebest_ok rl :
  runner_sorted rl ->
  runner_sorted (rebest rl) /\ bbp_ok (rebest rl) /\ blp_ok (rebest rl).
Proof.
  intros (Hb & Hl & Ht). split; [exact (conj Hb (conj Hl Ht))|].
  unfold bbp_ok, blp_ok, rebest. simpl. split.
  - destruct (atb rl) as [|x l]; [reflexivity|]. now apply descending_head_max.
  - destruct (atl rl) as [|x l]; [reflexivity|].
    exists (fst x). split; [reflexivity|]. now apply ascending_head_min.
Qed.

Ltac zeq := first [apply Z.eqb_refl | apply Zeqb_sym | apply Zeqb_trans].

Lemma book_dget_dset (cl : book) id id' rl :
  dget Z.eqb (dset Z.eqb cl id rl) id' =
  if Z.eqb id id' then Some rl else dget Z.eqb cl id'.
Proof. apply dget_dset; zeq. Qed.

Lemma check_arbitrage_known cl rl stored id :
  dget Z.eqb cl id = Some stored ->
  check_arbitrage cl (format_runner rl) id =
  Ok (dset Z.eqb cl id (set_best stored (best_back (atb rl)) (best_lay (atl rl))),
      gt_ext (best_back (atb rl)) (best_lay (atl rl))).
Proof.
  intros H. unfold check_arbitrage. rewrite H. simpl.
  now rewrite best_price_back, best_price_lay.
Qed.

(** The loop of [raise_if_arbitrage] over a formatted book: it does not
    raise, and it stores the best prices of every runner it visits. *)
Lemma raise_if_arbitrage_loop (fl : list (Z * formatted_runner)) :
  forall cl : book,
  (forall id fr, In (id, fr) fl ->
     exists rl, dget Z.eqb cl id = Some rl /\
       f_atb fr = if_nonempty (atb rl) /\ f_atl fr = if_nonempty (atl rl)) ->
  exists cl',
    raise_if_arbitrage cl fl = Ok cl' /\
    forall id,
      dget Z.eqb cl' id =
      match dget Z.eqb cl id with
      | Some rl =>
          Some (if existsb (Z.eqb id) (map fst fl) then rebest rl else rl)
      | None => None
      end.
Proof.
  induction fl as [|[id0 fr] fl IH]; intros cl H.
  - exists cl. split; [reflexivity|]. intros id. simpl.
    now destruct (dget Z.eqb cl id).
  - destruct (H id0 fr (or_introl eq_refl)) as (rl0 & Hget & Hb & Hl).
    simpl. unfold check_arbitrage. rewrite Hget, Hb, Hl.
    rewrite best_price_back, best_price_lay. simpl. fold (rebest rl0).
    set (b := gt_ext _ _). set (cl1 := dset Z.eqb cl id0 (rebest rl0)).
    assert (Hloop : (if b then raise_if_arbitrage cl1 fl
                     else raise_if_arbitrage cl1 fl) = raise_if_arbitrage cl1 fl)
      by now destruct b.
    rewrite Hloop. clear Hloop.
    destruct (IH cl1) as (cl' & Hrun & Hcl').
    + intros id fr' Hin. subst cl1. rewrite book_dget_dset.
      destruct (H id fr' (or_intror Hin)) as (rl & Hg & Hb' & Hl').
      destruct (Z.eqb id0 id) eqn:E.
      * apply Z.eqb_eq in E. subst id.
        exists (rebest rl0). split; [reflexivity|].
        assert (rl = rl0) by congruence. subst rl. now split.
      * exists rl. now repeat split.
    + exists cl'. split; [exact Hrun|]. intros id.
      rewrite Hcl'. subst cl1. rewrite book_dget_dset.
      rewrite (Z.eqb_sym id id0).
      destruct (Z.eqb id0 id) eqn:E; simpl.
      * apply Z.eqb_eq in E. subst id. rewrite Hget.
        now destruct (existsb _ _).
      * reflexivity.
Qed.

Lemma format_ladder_In {R : Rounding} cl id fr :
  In (id, fr) (format_ladder cl) -> exists rl, In (id, rl) cl /\ fr = format_runner rl.
Proof.
  unfold format_ladder. intros H. apply in_map_iff in H.
  destruct H as ([id' rl] & [= <- <-] & Hin). now exists rl.
Qed.

Lemma book_In_dget (cl : book) id rl :
  dict_wf Z.eqb cl -> In (id, rl) cl -> dget Z.eqb cl id = Some rl.
Proof. apply In_dget; zeq. Qed.

Lemma book_dget_keys (cl : book) id rl :
  dget Z.eqb cl id = Some rl -> existsb (Z.eqb id) (map fst cl) = true.
Proof.
  intros H. apply dget_In in H. destruct H as (k' & Hk & Hin).
  apply existsb_exists. exists k'. split.
  - apply in_map_iff. now exists (k', rl).
  - now apply Zeqb_sym.
Qed.

Lemma format_ladder_keys {R : Rounding} cl : map fst (format_ladder cl) = map fst cl.
Proof. unfold format_ladder. rewrite map_map. reflexivity. Qed.

(** On a book without equal runner ids the re-scan recomputes the best
    prices of every runner. *)
Lemma raise_if_arbitrage_rebest {R : Rounding} (cl : book) :
  dict_wf Z.eqb cl ->
  exists cl',
    raise_if_arbitrage cl (format_ladder cl) = Ok cl' /\
    forall id, dget Z.eqb cl' id = option_map rebest (dget Z.eqb cl id).
Proof.
  intros Hwf.
  destruct (raise_if_arbitrage_loop (format_ladder cl) cl) as (cl' & Hrun & Hcl').
  - intros id fr Hin. apply format_ladder_In in Hin.
    destruct Hin as (rl & Hin & ->). exists rl.
    split; [now apply book_In_dget|now split].
  - exists cl'. split; [exact Hrun|]. intros id. rewrite Hcl'.
    destruct (dget Z.eqb cl id) as [rl|] eqn:E; [|reflexivity].
    rewrite format_ladder_keys, (book_dget_keys cl id rl E). reflexivity.
Qed.

Lemma dict_wf_book_dset (cl : book) id rl :
  dict_wf Z.eqb cl -> dict_wf Z.eqb (dset Z.eqb cl id rl).
Proof. apply dict_wf_dset; zeq. Qed.

(** Equal lookups everywhere carry over the absence of equal ids only
    through the operations of the loop, so well-formedness of the book
    after the re-scan is proved along the loop. *)
Lemma raise_if_arbitrage_wf (fl : list (Z * formatted_runner)) :
  forall cl cl', dict_wf Z.eqb cl ->
    raise_if_arbitrage cl fl = Ok cl' -> dict_wf Z.eqb cl'.
Proof.
  induction fl as [|[id0 fr] fl IH]; intros cl cl' Hwf; simpl.
  - now intros [= <-].
  - unfold check_arbitrage.
    destruct (dget Z.eqb cl id0) as [stored|]; simpl; [|discriminate].
    destruct (gt_ext _ _); apply IH; now apply dict_wf_book_dset.
Qed.

Lemma bind_ok {A B : Type} (r : result A) (f : A -> result B) b :
  bind r f = Ok b -> exists a, r = Ok a /\ f a = Ok b.
Proof. destruct r as [a|e]; simpl; [now exists a|discriminate]. Qed.

Lemma bind_raise {A B : Type} (r : result A) (f : A -> result B) e :
  r = Raise e -> bind r f = Raise e.
Proof. now intros ->. Qed.

Lemma update_runner_ladder_atb_descending rl chg :
  dict_wf Qeq_bool (atb rl) -> descending (update_runner_ladder rl chg ATB).
Proof.
  intros Hwf. unfold update_runner_ladder. fold (kept_levels rl chg ATB).
  apply StronglySorted_firstn. apply py_sorted_descending.
  now apply kept_levels_wf.
Qed.

Lemma update_runner_ladder_atl_ascending rl chg :
  dict_wf Qeq_bool (atl rl) -> ascending (update_runner_ladder rl chg ATL).
Proof.
  intros Hwf. unfold update_runner_ladder. fold (kept_levels rl chg ATL).
  apply StronglySorted_firstn. apply py_sorted_ascending.
  now apply kept_levels_wf.
Qed.

Lemma update_runner_ladder_trd_ascending rl chg :
  dict_wf Qeq_bool (trd rl) -> ascending (update_runner_ladder rl chg TRD).
Proof.
  intros Hwf. unfold update_runner_ladder. fold (kept_levels rl chg TRD).
  apply py_sorted_ascending. now apply kept_levels_wf.
Qed.

Lemma changed_runner_sorted {R : Rounding} rl chg :
  runner_sorted rl -> runner_sorted (changed_runner rl chg).
Proof.
  intros (Hb & Hl & Ht). repeat split; simpl.
  - apply update_runner_ladder_atb_descending. now apply descending_wf.
  - apply update_runner_ladder_atl_ascending. now apply ascending_wf.
  - apply update_runner_ladder_trd_ascending. now apply ascending_wf.
Qed.

(** The runner changes of a packet keep the roster, keep every side
    sorted, and leave the stored best prices alone. *)
Lemma apply_runner_changes_inv {R : Rounding} (rc : list runner_change) :
  forall cl cl',
  apply_runner_changes cl rc = Ok cl' ->
  dict_wf Z.eqb cl -> book_all runner_sorted cl ->
  dict_wf Z.eqb cl' /\ book_all runner_sorted cl' /\
  forall id rl', dget Z.eqb cl' id = Some rl' ->
    exists rl, dget Z.eqb cl id = Some rl /\
      bbp rl' = bbp rl /\ blp rl' = blp rl.
Proof.
  induction rc as [|chg rc IH]; intros cl cl' Hrun Hwf Hall; simpl in Hrun.
  - injection Hrun as <-. split; [exact Hwf|split; [exact Hall|]].
    intros id rl' H. now exists rl'.
  - apply bind_ok in Hrun. destruct Hrun as (cl1 & H1 & Hrun).
    destruct (dget Z.eqb cl (rc_id chg)) as [rl0|] eqn:E.
    + rewrite (apply_runner_change_known cl chg rl0 E) in H1.
      injection H1 as <-.
      destruct (IH _ _ Hrun) as (Hwf' & Hall' & Hbest).
      * now apply dict_wf_book_dset.
      * intros id rl. rewrite book_dget_dset.
        destruct (Z.eqb (rc_id chg) id).
        -- intros [= <-]. apply changed_runner_sorted. exact (Hall _ _ E).
        -- apply Hall.
      * split; [exact Hwf'|split; [exact Hall'|]].
        intros id rl' Hg. destruct (Hbest id rl' Hg) as (rl1 & Hg1 & Hb & Hl).
        rewrite book_dget_dset in Hg1.
        destruct (Z.eqb (rc_id chg) id) eqn:E'.
        -- apply Z.eqb_eq in E'. subst id. injection Hg1 as <-.
           exists rl0. now repeat split.
        -- exists rl1. now repeat split.
    + rewrite (apply_runner_change_unknown cl chg E) in H1. discriminate.
Qed.

Lemma create_ladder_ds_ok (runner_ids : list Z) : book_ok (create_ladder_ds runner_ids).
Proof.
  unfold create_ladder_ds.
  assert (Hgen : forall ids cl, book_ok cl ->
    book_ok (fold_left (fun runners runner_id =>
      dset Z.eqb runners runner_id empty_runner_ladder) ids cl)).
  { induction ids as [|i ids IH]; intros cl Hok; simpl; [exact Hok|].
    apply IH. destruct Hok as [Hwf Hall]. split.
    - now apply dict_wf_book_dset.
    - intros id rl. rewrite book_dget_dset. destruct (Z.eqb i id).
      + intros [= <-]. repeat split; try constructor.
      + apply Hall. }
  apply Hgen. split; [constructor|]. intros id rl. discriminate.
Qed.

Lemma reset_runner_trades_ok cl : book_ok cl -> book_ok (reset_runner_trades cl).
Proof.
  intros [Hwf Hall]. unfold reset_runner_trades. split.
  - now apply (dict_wf_map_values Z.eqb (fun v => set_trades v [])).
  - intros id rl.
    rewrite (dget_map_values Z.eqb (fun v => set_trades v [])).
    destruct (dget Z.eqb cl id) as [rl0|] eqn:E; simpl; [|discriminate].
    intros [= <-]. exact (Hall _ _ E).
Qed.

(** The book part of one iteration of [run]: runner changes, re-scan,
    reset of the trades. *)
Lemma packet_book_ok {R : Rounding} cl rc cl1 cl2 :
  book_ok cl ->
  apply_runner_changes cl rc = Ok cl1 ->
  raise_if_arbitrage cl1 (format_ladder cl1) = Ok cl2 ->
  book_ok (reset_runner_trades cl2).
Proof.
  intros [Hwf Hall] H1 H2. apply reset_runner_trades_ok.
  destruct (apply_runner_changes_inv rc cl cl1 H1 Hwf) as (Hwf1 & Hall1 & _).
  { intros id rl Hg. exact (proj1 (Hall _ _ Hg)). }
  split; [exact (raise_if_arbitrage_wf _ _ _ Hwf1 H2)|].
  destruct (raise_if_arbitrage_rebest cl1 Hwf1) as (cl' & Hrun & Hcl').
  assert (cl' = cl2) by congruence. subst cl'.
  intros id rl. rewrite Hcl'.
  destruct (dget Z.eqb cl1 id) as [rl1|] eqn:E; simpl; [|discriminate].
  intros [= <-]. apply rebest_ok. exact (Hall1 _ _ E).
Qed.

(** * The run loop *)

Section PipelineFacts.
Context {R : Rounding}.
Variable strptime : string -> option datetime.

(** What a successful iteration of [run] did. *)
Lemma run_packet_inv lb p lb' :
  run_packet strptime lb p = Ok lb' ->
  exists pt mc raw rc cl1 mdef cl2,
    process_packet p = Ok (pt, mc) /\
    set_raw_marketdata (mb_market_id (lb_metadata_builder lb)) p pt = Ok raw /\
    mc_rc mc = Some rc /\
    apply_runner_changes (lb_current_ladder lb) rc = Ok cl1 /\
    update_market_definition strptime mc = Ok mdef /\
    raise_if_arbitrage cl1 (format_ladder cl1) = Ok cl2 /\
    let doc :=
      create_ts_document (mb_market_id (lb_metadata_builder lb))
        (format_ladder cl1) mdef pt in
    lb' = mkLadderBuilder (lb_marketdata lb ++ [raw]) (lb_ladders lb ++ [doc])
            (reset_runner_trades cl2)
            (extend_pre_market (lb_metadata_builder lb) doc pt).
Proof.
  unfold run_packet. intros H.
  apply bind_ok in H. destruct H as ([pt mc] & Hp & H).
  apply bind_ok in H. destruct H as (raw & Hraw & H).
  apply bind_ok in H. destruct H as (cl1 & Hupd & H).
  apply bind_ok in H. destruct H as (mdef & Hdef & H).
  apply bind_ok in H. destruct H as (cl2 & Harb & H).
  simpl in *. unfold update_ladder in Hupd.
  apply bind_ok in Hupd. destruct Hupd as (rc & Hrc & Hupd).
  unfold subscript in Hrc. destruct (mc_rc mc) as [rc'|] eqn:Erc; [|discriminate].
  injection Hrc as ->. injection H as <-.
  exists pt, mc, raw, rc, cl1, mdef, cl2. simpl in *.
  now repeat split.
Qed.

Lemma run_packet_book_ok lb p lb' :
  book_ok (lb_current_ladder lb) ->
  run_packet strptime lb p = Ok lb' ->
  book_ok (lb_current_ladder lb').
Proof.
  intros Hok H. apply run_packet_inv in H.
  destruct H as (pt & mc & raw & rc & cl1 & mdef & cl2 & _ & _ & _ & H1 & _ & H2 & Hlb).
  cbv zeta in Hlb. subst lb'. simpl. exact (packet_book_ok _ rc _ _ Hok H1 H2).
Qed.

Lemma run_packets_book_ok (marketdata : list packet) :
  forall lb lb',
  book_ok (lb_current_ladder lb) ->
  run_packets strptime lb marketdata = Ok lb' ->
  book_ok (lb_current_ladder lb').
Proof.
  induction marketdata as [|p rest IH]; intros lb lb' Hok H; simpl in H.
  - now injection H as <-.
  - apply bind_ok in H. destruct H as (lb1 & H1 & H).
    apply (IH lb1 lb'); [|exact H].
    exact (run_packet_book_ok lb p lb1 Hok H1).
Qed.

Lemma LadderBuilder_init_book marketdata definition sp lb :
  LadderBuilder_init strptime marketdata definition sp = Ok lb ->
  exists runner_ids,
    get_runner_ids definition = Ok runner_ids /\
    lb_current_ladder lb = create_ladder_ds runner_ids /\
    lb_ladders lb = [].
Proof.
  unfold LadderBuilder_init. intros H.
  apply bind_ok in H. destruct H as (ids & Hids & H).
  apply bind_ok in H. destruct H as (s & _ & H).
  apply bind_ok in H. destruct H as (e & _ & H).
  apply bind_ok in H. destruct H as (mb & _ & H).
  injection H as <-. exists ids. now repeat split.
Qed.

End PipelineFacts.

(** * Best prices between packets *)

(** C6. Whenever the builder was constructed and a sequence of packets
    was processed (none at all for the initial state), every runner's
    [bbp] is the greatest price of its [atb] side, or 0 when the side is
    empty, and its [blp] is the smallest price of its [atl] side, or
    infinity when the side is empty.  The values stored after a packet
    are the ones the next packet starts from. *)
Theorem best_prices_at_packet_boundary
    (strptime : string -> option datetime)
    (marketdata processed : list packet) (definition : market_definition)
    (sp : sport) (lb0 lb : ladder_builder) (id : Z) (rl : runner_ladder) :
  LadderBuilder_init strptime marketdata definition sp = Ok lb0 ->
  run_packets strptime lb0 processed = Ok lb ->
  dget Z.eqb (lb_current_ladder lb) id = Some rl ->
  bbp_ok rl /\ blp_ok rl.
Proof.
  intros Hinit Hrun Hget.
  destruct (LadderBuilder_init_book strptime _ _ _ _ Hinit) as (ids & _ & Hcl & _).
  assert (Hok0 : book_ok (lb_current_ladder lb0)).
  { rewrite Hcl. apply create_ladder_ds_ok. }
  pose proof (run_packets_book_ok strptime processed lb0 lb Hok0 Hrun) as [_ Hall].
  exact (proj2 (Hall id rl Hget)).
Qed.

Lemma best_prices_at_packet_boundary_witness :
  exists lb0 lb rl,
    LadderBuilder_init strptime_iso example_marketdata
      (example_definition false example_roster) HorseRacing = Ok lb0 /\
    run_packets strptime_iso lb0 (firstn 2 example_marketdata) = Ok lb /\
    dget Z.eqb (lb_current_ladder lb) 10%Z = Some rl /\
    atb rl = [(5 # 2, 90)] /\ atl rl = [(3, 50)] /\
    bbp rl = 5 # 2 /\ blp rl = Fin 3 /\
    bbp_ok rl /\ blp_ok rl.
Proof.
  eexists. eexists. eexists.
  split; [vm_compute; reflexivity|].
  split; [vm_compute; reflexivity|].
  split; [vm_compute; reflexivity|].
  split; [reflexivity|]. split; [reflexivity|].
  split; [reflexivity|]. split; [reflexivity|].
  eapply (best_prices_at_packet_boundary strptime_iso example_marketdata
            (firstn 2 example_marketdata)
            (example_definition false example_roster) HorseRacing _ _ 10%Z).
  - vm_compute; reflexivity.
  - vm_compute; reflexivity.
  - vm_compute; reflexivity.
Defined.

(** * The arbitrage re-scan *)

Lemma keys_dget (cl : book) id : In id (map fst cl) -> dget Z.eqb cl id <> None.
Proof.
  induction cl as [|[k v] cl IH]; simpl; [easy|].
  intros [->|Hin].
  - now rewrite Z.eqb_refl.
  - destruct (Z.eqb k id); [discriminate|now apply IH].
Qed.

Lemma raise_if_arbitrage_total (fl : list (Z * formatted_runner)) :
  forall cl : book,
  (forall id, In id (map fst fl) -> dget Z.eqb cl id <> None) ->
  exists cl', raise_if_arbitrage cl fl = Ok cl'.
Proof.
  induction fl as [|[id0 fr] fl IH]; intros cl H; simpl.
  - now exists cl.
  - unfold check_arbitrage.
    destruct (dget Z.eqb cl id0) as [stored|] eqn:E.
    + simpl.
      assert (Hnext : forall cl1,
        (forall id, In id (map fst fl) -> dget Z.eqb cl1 id <> None) ->
        exists cl', (if gt_ext
          (best_price_of (fun q => q) default_best_back_price (f_atb fr))
          (best_price_of Fin default_best_lay_price (f_atl fr))
          then raise_if_arbitrage cl1 fl else raise_if_arbitrage cl1 fl) = Ok cl').
      { intros cl1 H1. destruct (gt_ext _ _); now apply IH. }
      apply Hnext. intros id Hin. rewrite book_dget_dset.
      destruct (Z.eqb id0 id); [discriminate|].
      apply H. now right.
    + exfalso. apply (H id0); [now left|exact E].
Qed.

(** The first three packets of the example cross the book of runner 20
    (back 3, lay 2): the re-scan reads the formatted lists of pairs and
    reports the crossed book. *)
Lemma check_arbitrage_detects_crossed_book :
  exists lb0 lb cl1 fr cl2,
    LadderBuilder_init strptime_iso example_marketdata
      (example_definition false example_roster) HorseRacing = Ok lb0 /\
    run_packets strptime_iso lb0 (firstn 2 example_marketdata) = Ok lb /\
    apply_runner_changes (lb_current_ladder lb)
      [mkRunnerChange 20 (Some [(3, 10)]) (Some [(2, 10)]) None None None]
      = Ok cl1 /\
    dget Z.eqb (format_ladder cl1) 20%Z = Some fr /\
    f_atb fr = Some [(3, 10)] /\ f_atl fr = Some [(2, 10)] /\
    check_arbitrage cl1 fr 20 = Ok (cl2, true).
Proof.
  do 5 eexists.
  split; [vm_compute; reflexivity|].
  split; [vm_compute; reflexivity|].
  split; [vm_compute; reflexivity|].
  split; [vm_compute; reflexivity|].
  split; [reflexivity|]. split; [reflexivity|].
  vm_compute. reflexivity.
Qed.

(** C4, as the code has it.  [check_arbitrage] is handed the formatted
    snapshot, in which [atb] and [atl] are lists of pairs (absent when
    empty): it fails only on a runner id that is not in the book, with
    the [KeyError] of that id, and otherwise returns [True] exactly when
    the best back price ([atb[0][0]], or 0 without [atb]) is above the
    best lay price ([atl[0][0]]; never without [atl]).  It stores the
    two prices as the [bbp] and [blp] of that runner in the book, and
    changes nothing else of the runner and no other runner.
    [raise_if_arbitrage] discards the answers and never raises on the
    snapshot of the book; on a book without equal runner ids it leaves
    every runner with the best prices of its own sides. *)
Theorem check_arbitrage_on_formatted_snapshot
    (cl : book) (fr : formatted_runner) (id : Z) :
  let back_price := best_price_of (fun q => q) default_best_back_price (f_atb fr) in
  let lay_price := best_price_of Fin default_best_lay_price (f_atl fr) in
  match check_arbitrage cl fr id with
  | Ok (cl', flag) =>
      (flag = true <->
       exists l ls, f_atl fr = Some (l :: ls) /\ fst l < back_price) /\
      (exists stored rl',
         dget Z.eqb cl id = Some stored /\ dget Z.eqb cl' id = Some rl' /\
         bbp rl' = back_price /\ blp rl' = lay_price /\
         rl' = set_best stored back_price lay_price /\
         atb rl' = atb stored /\ atl rl' = atl stored /\ trd rl' = trd stored /\
         trades rl' = trades stored /\ ltp rl' = ltp stored /\
         tv rl' = tv stored /\ ttrdv rl' = ttrdv stored) /\
      (forall id', id' <> id -> dget Z.eqb cl' id' = dget Z.eqb cl id') /\
      map fst cl' = map fst cl
  | Raise e => dget Z.eqb cl id = None /\ e = KeyError (KRunner id)
  end /\
  (exists cl', raise_if_arbitrage cl (format_ladder cl) = Ok cl') /\
  (dict_wf Z.eqb cl ->
   exists cl',
     raise_if_arbitrage cl (format_ladder cl) = Ok cl' /\
     forall id' rl,
       dget Z.eqb cl id' = Some rl ->
       dget Z.eqb cl' id' =
         Some (set_best rl (best_back (atb rl)) (best_lay (atl rl)))).
Proof.
  intros bb bl. split; [|split].
  - unfold check_arbitrage. fold bb bl.
    destruct (dget Z.eqb cl id) as [stored|] eqn:Eid; [|now split].
    split; [|split; [|split]].
    + subst bb bl. destruct (f_atl fr) as [[|l ls]|]; simpl.
      * split; [discriminate|]. intros (l & ls & [=] & _).
      * rewrite Qlt_bool_iff. split.
        -- intros H. now exists l, ls.
        -- intros (l' & ls' & [= <- <-] & H). exact H.
      * split; [discriminate|]. intros (l & ls & [=] & _).
    + exists stored, (set_best stored bb bl).
      rewrite book_dget_dset, Z.eqb_refl. now repeat split.
    + intros id' Hne. rewrite book_dget_dset.
      destruct (Z.eqb id id') eqn:E; [|reflexivity].
      apply Z.eqb_eq in E. congruence.
    + apply (dkeys_dset_present Z.eqb). congruence.
  - apply raise_if_arbitrage_total. intros id' Hin.
    rewrite format_ladder_keys in Hin. now apply keys_dget.
  - intros Hwf. destruct (raise_if_arbitrage_rebest cl Hwf) as (cl' & Hrun & Hcl').
    exists cl'. split; [exact Hrun|]. intros id' rl Hg.
    rewrite Hcl', Hg. reflexivity.
Qed.

(** * Unknown runners *)

Lemma known_after_dset (cl : book) id rl id' :
  dget Z.eqb cl id' <> None -> dget Z.eqb (dset Z.eqb cl id rl) id' <> None.
Proof.
  intros H. rewrite book_dget_dset. now destruct (Z.eqb id id').
Qed.

Lemma apply_runner_changes_known (rc : list runner_change) :
  forall cl, Forall (known_runner cl) rc ->
  exists cl', apply_runner_changes cl rc = Ok cl'.
Proof.
  induction rc as [|chg rc IH]; intros cl H; simpl.
  - now exists cl.
  - inversion H as [|? ? Hk Hrest]; subst. unfold known_runner in Hk.
    destruct (dget Z.eqb cl (rc_id chg)) as [rl|] eqn:E; [|congruence].
    rewrite (apply_runner_change_known cl chg rl E). simpl.
    apply IH. eapply Forall_impl; [|exact Hrest].
    intros c Hc. now apply known_after_dset.
Qed.

Lemma apply_runner_changes_unknown (known : list runner_change) :
  forall cl chg rest,
  Forall (known_runner cl) known ->
  dget Z.eqb cl (rc_id chg) = None ->
  apply_runner_changes cl (known ++ chg :: rest) =
  Raise (KeyError (KRunner (rc_id chg))).
Proof.
  induction known as [|c known IH]; intros cl chg rest Hk Hu; simpl.
  - now rewrite (apply_runner_change_unknown cl chg Hu).
  - inversion Hk as [|? ? Hc Hrest]; subst. unfold known_runner in Hc.
    destruct (dget Z.eqb cl (rc_id c)) as [rl|] eqn:E; [|congruence].
    rewrite (apply_runner_change_known cl c rl E). simpl.
    apply IH.
    + eapply Forall_impl; [|exact Hrest].
      intros c' Hc'. now apply known_after_dset.
    + rewrite book_dget_dset.
      destruct (Z.eqb (rc_id c) (rc_id chg)) eqn:E'; [|exact Hu].
      apply Z.eqb_eq in E'. congruence.
Qed.

(** After construction on the example market, a packet with a change
    for runner 99, which is not in the roster, is not applied: the
    lookup of the runner raises [KeyError]. *)
Lemma unknown_runner_change_raises_KeyError :
  exists lb0,
    LadderBuilder_init strptime_iso example_marketdata
      (example_definition false example_roster) HorseRacing = Ok lb0 /\
    run_packet strptime_iso lb0
      (example_packet 600000
         [mkRunnerChange 99 (Some [(2, 5)]) None None None None] None)
    = Raise (KeyError (KRunner 99)).
Proof.
  eexists. split.
  - vm_compute; reflexivity.
  - vm_compute; reflexivity.
Qed.

(** C1, as the code has it.  A runner change whose runner id is not in
    the book (the roster of the first-seen market definition) is not
    ignored: the runner changes before it are applied and at the first
    unknown id the lookup raises [KeyError], so the iteration of [run]
    fails with that error and no snapshot is made for the packet.  When
    every runner change names a rostered runner, none of them raises. *)
Theorem unknown_runner_stops_the_packet
    (strptime : string -> option datetime) (cl : book) :
  (forall rc, Forall (known_runner cl) rc ->
     exists cl', apply_runner_changes cl rc = Ok cl') /\
  (forall known chg rest,
     Forall (known_runner cl) known ->
     dget Z.eqb cl (rc_id chg) = None ->
     let rc := known ++ chg :: rest in
     let e := KeyError (KRunner (rc_id chg)) in
     apply_runner_changes cl rc = Raise e /\
     forall lb p pt mc raw,
       lb_current_ladder lb = cl ->
       process_packet p = Ok (pt, mc) ->
       set_raw_marketdata (mb_market_id (lb_metadata_builder lb)) p pt = Ok raw ->
       mc_rc mc = Some rc ->
       run_packet strptime lb p = Raise e).
Proof.
  split.
  - intros rc. apply apply_runner_changes_known.
  - intros known chg rest Hk Hu rc e.
    assert (Hr : apply_runner_changes cl rc = Raise e)
      by now apply apply_runner_changes_unknown.
    split; [exact Hr|].
    intros lb p pt mc raw Hcl Hp Hraw Hrc.
    unfold run_packet. rewrite Hp. simpl. rewrite Hraw. simpl.
    unfold update_ladder. rewrite Hrc. simpl. rewrite Hcl, Hr. reflexivity.
Qed.

(** * Trades derived from the traded volumes *)

Lemma same_but_ttrdv_best a b :
  same_but_ttrdv a b -> bbp a = bbp b /\ blp a = blp b /\ trd a = trd b.
Proof. unfold same_but_ttrdv. intros ->. now repeat split. Qed.

(** The trades already collected stay in the list. *)
Lemma trade_loop_extends {R : Rounding} ct l :
  forall st, exists more, snd (fold_left (trade_step ct) l st) = snd st ++ more.
Proof.
  induction l as [|upd l IH]; intros st; simpl.
  - exists []. now rewrite app_nil_r.
  - destruct (IH (trade_step ct st upd)) as (more & ->).
    destruct st as [r acc]. unfold trade_step. simpl.
    destruct (Qle_bool _ 0); simpl.
    + now exists more.
    + eexists. now rewrite <- app_assoc.
Qed.

(** Runner changes never write the stored best prices. *)
Lemma apply_runner_changes_best {R : Rounding} (rc : list runner_change) :
  forall cl cl',
  apply_runner_changes cl rc = Ok cl' ->
  forall id rl', dget Z.eqb cl' id = Some rl' ->
    exists rl, dget Z.eqb cl id = Some rl /\
      bbp rl' = bbp rl /\ blp rl' = blp rl.
Proof.
  induction rc as [|chg rc IH]; intros cl cl' Hrun id rl' Hg; simpl in Hrun.
  - injection Hrun as <-. now exists rl'.
  - apply bind_ok in Hrun. destruct Hrun as (cl1 & H1 & Hrun).
    destruct (dget Z.eqb cl (rc_id chg)) as [rl0|] eqn:E.
    + rewrite (apply_runner_change_known cl chg rl0 E) in H1.
      injection H1 as <-.
      destruct (IH _ _ Hrun id rl' Hg) as (rl1 & Hg1 & Hb & Hl).
      rewrite book_dget_dset in Hg1.
      destruct (Z.eqb (rc_id chg) id) eqn:E'.
      * apply Z.eqb_eq in E'. subst id. injection Hg1 as <-.
        exists rl0. now repeat split.
      * exists rl1. now repeat split.
    + rewrite (apply_runner_change_unknown cl chg E) in H1. discriminate.
Qed.

(** In binary64 arithmetic the growth of [ttrdv] is not exactly the
    recorded volume.  A runner without trades gets the volumes 0.1 at
    price 2 and 0.2 at price 3 (as the binary64 numbers the parser
    yields): the second trade is recorded with the volume 0.2, and
    [ttrdv] goes from 0.1 to the binary64 sum 0.30000000000000004, which
    is the rounded sum and not 0.1 plus the recorded volume. *)
Lemma ttrdv_growth_is_rounded :
  let before :=
    fold_left (trade_step (R := binary64) (trd empty_runner_ladder))
      [(2, binary64 (1 # 10))] (empty_runner_ladder, []) in
  let after :=
    fold_left (trade_step (R := binary64) (trd empty_runner_ladder))
      ([(2, binary64 (1 # 10))] ++ [(3, binary64 (2 # 10))])
      (empty_runner_ladder, []) in
  let delta := binary64 (round2 (binary64 (binary64 (2 # 10) - 0))) in
  delta = binary64 (2 # 10) /\ 0 < delta /\
  snd after = snd before ++ [(3, delta, "nan"%string)] /\
  ttrdv (fst before) = binary64 (1 # 10) /\
  ttrdv (fst after) = binary64 (ttrdv (fst before) + delta) /\
  ~ ttrdv (fst after) == ttrdv (fst before) + delta.
Proof.
  split; [vm_compute; reflexivity|].
  split; [vm_compute; reflexivity|].
  split; [vm_compute; reflexivity|].
  split; [vm_compute; reflexivity|].
  split; [vm_compute; reflexivity|].
  apply Qeq_bool_neq. vm_compute. reflexivity.
Qed.

(** C2, as the code has it, for every rounding of the arithmetic and so
    for the binary64 arithmetic of the code.  For the entry
    [(price, total)] of a runner change's [trd] list, reached after the
    entries [done]: with [delta] the result of [round(total - prior, 2)],
    where [prior] is the runner's volume at that price before the change
    (0 when the price is not in its [trd] map), the entry changes
    nothing when [delta <= 0]; otherwise [ttrdv] becomes the rounded
    sum of [ttrdv] and [delta] and the trade [(price, delta, side)] is
    appended, with side "b" if [price <= bbp], else "l" if
    [price >= blp], else "nan".  The trade stays in the list the runner
    change stores as the runner's [trades].  The [bbp] and [blp] read
    here are the ones the book held when the packet began, whichever
    runner changes of the packet came before; every book the run loop
    reaches holds there the recomputed best prices, and the initial book
    0 and infinity. *)
Theorem update_runner_trades_delta {R : Rounding}
    (rl : runner_ladder) (chg : runner_change)
    (done rest : list (Q * Q)) (price total : Q) :
  change_of chg TRD = done ++ (price, total) :: rest ->
  let before := fold_left (trade_step (trd rl)) done (rl, []) in
  let after := fold_left (trade_step (trd rl)) (done ++ [(price, total)]) (rl, []) in
  let prior :=
    match dget Qeq_bool (trd rl) price with
    | Some v => v
    | None => 0
    end in
  let delta := rnd (round2 (rnd (total - prior))) in
  let side :=
    if Qle_bool price (bbp rl) then "b"%string
    else if ge_ext price (blp rl) then "l"%string
    else "nan"%string in
  (delta <= 0 -> after = before) /\
  (0 < delta ->
     ttrdv (fst after) = rnd (ttrdv (fst before) + delta) /\
     snd after = snd before ++ [(price, delta, side)]) /\
  (exists more, snd (update_runner_trades rl chg) = snd after ++ more) /\
  trades (changed_runner rl chg) = snd (update_runner_trades rl chg) /\
  ttrdv (changed_runner rl chg) = ttrdv (fst (update_runner_trades rl chg)) /\
  (forall cl known cl_mid,
     book_ok cl ->
     apply_runner_changes cl known = Ok cl_mid ->
     dget Z.eqb cl_mid (rc_id chg) = Some rl ->
     exists rl0,
       dget Z.eqb cl (rc_id chg) = Some rl0 /\
       bbp rl = bbp rl0 /\ blp rl = blp rl0 /\ bbp_ok rl0 /\ blp_ok rl0) /\
  (forall strptime marketdata processed definition sp lb0 lb,
     LadderBuilder_init strptime marketdata definition sp = Ok lb0 ->
     run_packets strptime lb0 processed = Ok lb ->
     book_ok (lb_current_ladder lb)) /\
  (forall runner_ids id rl0,
     dget Z.eqb (create_ladder_ds runner_ids) id = Some rl0 ->
     bbp rl0 = 0 /\ blp rl0 = PlusInf).
Proof.
  intros Hchg before after prior delta side.
  assert (Hafter : after = trade_step (trd rl) before (price, total)).
  { subst after before. now rewrite fold_left_app. }
  pose proof (trade_loop_frame (trd rl) done (rl, []) rl
                (same_but_ttrdv_refl rl)) as Hframe.
  fold before in Hframe.
  destruct (same_but_ttrdv_best _ _ Hframe) as (Hb & Hl & _).
  destruct before as [r acc] eqn:Ebefore. simpl in Hb, Hl.
  assert (Hstep : trade_step (trd rl) (r, acc) (price, total) =
    if Qle_bool delta 0 then (r, acc)
    else (set_ttrdv r (rnd (ttrdv r + delta)), acc ++ [(price, delta, side)])).
  { unfold trade_step, trade_side, prior_volume. simpl.
    fold prior. fold delta. rewrite Hb, Hl. reflexivity. }
  rewrite Hstep in Hafter.
  split; [|split; [|split; [|split; [|split; [|split; [|split]]]]]].
  - intros Hle. apply Qle_bool_iff in Hle. now rewrite Hle in Hafter.
  - intros Hlt. apply Qle_bool_false_iff in Hlt. rewrite Hlt in Hafter.
    rewrite Hafter. simpl. repeat split; reflexivity.
  - unfold update_runner_trades. rewrite Hchg.
    replace (done ++ (price, total) :: rest)
      with ((done ++ [(price, total)]) ++ rest)
      by now rewrite <- app_assoc.
    rewrite fold_left_app. fold after. apply trade_loop_extends.
  - reflexivity.
  - reflexivity.
  - intros cl known cl_mid Hok Hrun Hg.
    destruct (apply_runner_changes_best known cl cl_mid Hrun _ _ Hg)
      as (rl0 & Hg0 & Hb0 & Hl0).
    exists rl0. repeat split; try assumption; apply (proj2 Hok _ _ Hg0).
  - intros strptime marketdata processed definition sp lb0 lb Hinit Hrun.
    destruct (LadderBuilder_init_book strptime _ _ _ _ Hinit) as (ids & _ & Hcl & _).
    apply (run_packets_book_ok strptime processed lb0 lb); [|exact Hrun].
    rewrite Hcl. apply create_ladder_ds_ok.
  - intros ids id rl0 Hg.
    destruct (create_ladder_ds_ok ids) as [_ Hall].
    assert (Hempty : forall ids' cl,
      book_all (fun rl => bbp rl = 0 /\ blp rl = PlusInf) cl ->
      book_all (fun rl => bbp rl = 0 /\ blp rl = PlusInf)
        (fold_left (fun runners runner_id =>
           dset Z.eqb runners runner_id empty_runner_ladder) ids' cl)).
    { induction ids' as [|i ids' IH]; intros cl H; simpl; [exact H|].
      apply IH. intros id' rl'. rewrite book_dget_dset.
      destruct (Z.eqb i id'); [now intros [= <-]|apply H]. }
    apply (Hempty ids [] (fun id' rl' H => ltac:(discriminate)) id rl0 Hg).
Qed.

(** In binary64 arithmetic a reported volume of 0.005 (the binary64
    number just above it) is rounded to 0.01 and recorded. *)
Lemma update_runner_trades_delta_witness :
  let chg :=
    mkRunnerChange 10 None None (Some [(2, binary64 (5 # 1000))]) None None in
  change_of chg TRD = [] ++ (2, binary64 (5 # 1000)) :: [] /\
  update_runner_trades (R := binary64) empty_runner_ladder chg =
    (set_ttrdv empty_runner_ladder (binary64 (1 # 100)),
     [(2, binary64 (1 # 100), "nan"%string)]) /\
  0 < binary64 (round2 (binary64 (binary64 (5 # 1000) - 0))) /\
  ttrdv (fst (fold_left (trade_step (R := binary64) (trd empty_runner_ladder))
                ([] ++ [(2, binary64 (5 # 1000))]) (empty_runner_ladder, []))) =
  binary64
    (ttrdv (fst (fold_left (trade_step (R := binary64) (trd empty_runner_ladder))
                   [] (empty_runner_ladder, [])))
     + binary64 (round2 (binary64 (binary64 (5 # 1000) - 0)))).
Proof.
  split; [reflexivity|]. split; [vm_compute; reflexivity|].
  split; [vm_compute; reflexivity|].
  refine (proj1 (proj1 (proj2
    (update_runner_trades_delta (R := binary64) empty_runner_ladder
       (mkRunnerChange 10 None None (Some [(2, binary64 (5 # 1000))]) None None)
       [] [] 2 (binary64 (5 # 1000)) eq_refl)) _)).
  vm_compute; reflexivity.
Defined.

(** * Pre-in-play ladders *)

Lemma offer_fields mb doc :
  mb_in_play_start (offer mb doc) = mb_in_play_start mb /\
  m_inPlayStartTime (mb_metadata (offer mb doc)) = m_inPlayStartTime (mb_metadata mb) /\
  mb_sport (offer mb doc) = mb_sport mb /\
  mb_pre0ladder (offer mb doc) = captured mb 1000 (mb_pre0ladder mb) [doc] /\
  mb_pre5ladder (offer mb doc) = captured mb 300000 (mb_pre5ladder mb) [doc] /\
  mb_pre10ladder (offer mb doc) = captured mb 600000 (mb_pre10ladder mb) [doc] /\
  (coupled mb -> coupled (offer mb doc)).
Proof.
  unfold offer, extend_pre_market, captured, coupled, within,
    milliseconds_between, ONE_SECOND, FIVE_MINUTES, TEN_MINUTES.
  change (5 * 60 * 1000)%Z with 300000%Z.
  change (10 * 60 * 1000)%Z with 600000%Z.
  destruct mb as [sp start e p10 p5 p0 m mid eid].
  cbn [mb_sport mb_in_play_start mb_in_play_end mb_pre10ladder mb_pre5ladder
       mb_pre0ladder mb_metadata mb_market_id mb_event_id find].
  destruct start as [t|]; [|destruct p0, p5, p10; now repeat split].
  generalize (t - ts_pt doc <? 1000)%Z (t - ts_pt doc <? 300000)%Z
    (t - ts_pt doc <? 600000)%Z.
  intros b0 b5 b10.
  destruct p0, p5, p10, b0, b5, b10; simpl;
    do 6 (split; [reflexivity|]);
    intros (H0 & H5 & H10); repeat split; assumption.
Qed.

Lemma captured_nil mb threshold held : captured mb threshold held [] = held.
Proof.
  unfold captured. destruct held; [reflexivity|].
  now destruct (mb_in_play_start mb).
Qed.

Lemma captured_step mb threshold held doc docs :
  mb_in_play_start (offer mb doc) = mb_in_play_start mb ->
  captured (offer mb doc) threshold (captured mb threshold held [doc]) docs =
  captured mb threshold held (doc :: docs).
Proof.
  intros Hs. unfold captured. rewrite Hs.
  destruct held; [reflexivity|].
  destruct (mb_in_play_start mb) as [t|]; [|reflexivity].
  simpl. now destruct (within t threshold doc).
Qed.

Lemma capture_all_fields (docs : list ts_document) :
  forall mb,
  let mb' := capture_all mb docs in
  mb_in_play_start mb' = mb_in_play_start mb /\
  m_inPlayStartTime (mb_metadata mb') = m_inPlayStartTime (mb_metadata mb) /\
  mb_sport mb' = mb_sport mb /\
  mb_pre0ladder mb' = captured mb 1000 (mb_pre0ladder mb) docs /\
  mb_pre5ladder mb' = captured mb 300000 (mb_pre5ladder mb) docs /\
  mb_pre10ladder mb' = captured mb 600000 (mb_pre10ladder mb) docs /\
  (coupled mb -> coupled mb').
Proof.
  induction docs as [|doc docs IH]; intros mb; simpl.
  - rewrite !captured_nil. do 6 (split; [reflexivity|]). exact (fun H => H).
  - destruct (offer_fields mb doc) as (Hs & Hm & Hsp & H0 & H5 & H10 & Hc).
    destruct (IH (offer mb doc)) as (Hs' & Hm' & Hsp' & H0' & H5' & H10' & Hc').
    unfold capture_all in *. simpl.
    split; [now rewrite Hs'|]. split; [now rewrite Hm'|].
    split; [now rewrite Hsp'|].
    split; [rewrite H0', H0; now apply captured_step|].
    split; [rewrite H5', H5; now apply captured_step|].
    split; [rewrite H10', H10; now apply captured_step|].
    intros H. apply Hc'. now apply Hc.
Qed.

Lemma find_app_some {A : Type} (f : A -> bool) l l' x :
  find f l = Some x -> find f (l ++ l') = Some x.
Proof.
  induction l as [|y l IH]; simpl; [discriminate|].
  destruct (f y); [easy|exact IH].
Qed.

Lemma extend_post_market_keeps mb mb' :
  extend_post_market mb = Ok mb' ->
  let m := mb_metadata mb in
  let m' := mb_metadata mb' in
  m_inPlayStartTime m' = m_inPlayStartTime m /\
  m_pre0ladder m' = m_pre0ladder m /\
  m_pre5ladder m' = m_pre5ladder m /\
  m_pre10ladder m' = m_pre10ladder m /\
  m_marketId m' = m_marketId m /\ m_eventId m' = m_eventId m /\
  m__id m' = m__id m.
Proof.
  unfold extend_post_market. intros H.
  apply bind_ok in H. destruct H as (name & _ & H).
  apply bind_ok in H. destruct H as (runners & _ & H).
  apply bind_ok in H. destruct H as (w & _ & H).
  apply bind_ok in H. destruct H as (f & _ & H).
  apply bind_ok in H. destruct H as (m1 & Hhook & H).
  injection H as <-. simpl.
  unfold sport_hook in Hhook.
  destruct (mb_sport mb).
  - injection Hhook as <-. now repeat split.
  - injection Hhook as <-. now repeat split.
  - apply bind_ok in Hhook. destruct Hhook as (mt & _ & Hhook).
    destruct (String.eqb mt "WIN"); injection Hhook as <-; now repeat split.
Qed.

Section CaptureFacts.
Variable strptime : string -> option datetime.

Lemma MetadataBuilder_init_fresh sp marketdata start e mb :
  MetadataBuilder_init strptime sp marketdata start e = Ok mb ->
  fresh mb /\ mb_in_play_start mb = start.
Proof.
  unfold MetadataBuilder_init. intros H.
  apply bind_ok in H. destruct H as (p & _ & H).
  apply bind_ok in H. destruct H as (mc & _ & H).
  apply bind_ok in H. destruct H as (mc0 & _ & H).
  apply bind_ok in H. destruct H as (r & Hfmt & H).
  injection H as <-.
  unfold format_metadata in Hfmt.
  apply bind_ok in Hfmt. destruct Hfmt as (mid & _ & Hfmt).
  apply bind_ok in Hfmt. destruct Hfmt as (d & _ & Hfmt).
  apply bind_ok in Hfmt. destruct Hfmt as (eid & _ & Hfmt).
  apply bind_ok in Hfmt. destruct Hfmt as (d1 & _ & Hfmt).
  apply bind_ok in Hfmt. destruct Hfmt as (d2 & _ & Hfmt).
  apply bind_ok in Hfmt. destruct Hfmt as (d3 & _ & Hfmt).
  injection Hfmt as <-. unfold fresh, coupled. simpl. now repeat split.
Qed.

(** The builder after some packets is the initial builder offered the
    snapshots made for them, in order. *)
Lemma run_packets_capture (marketdata : list packet) :
  forall lb lb',
  run_packets strptime lb marketdata = Ok lb' ->
  exists docs,
    lb_ladders lb' = lb_ladders lb ++ docs /\
    lb_metadata_builder lb' = capture_all (lb_metadata_builder lb) docs.
Proof.
  induction marketdata as [|p rest IH]; intros lb lb' H; simpl in H.
  - injection H as <-. exists []. now rewrite app_nil_r.
  - apply bind_ok in H. destruct H as (lb1 & H1 & H).
    apply run_packet_inv in H1.
    destruct H1 as (pt & mc & raw & rc & cl1 & mdef & cl2 & _ & _ & _ & _ & _ & _ & Hlb).
    cbv zeta in Hlb.
    destruct (IH _ _ H) as (docs & Hl & Hm).
    set (doc := create_ts_document (mb_market_id (lb_metadata_builder lb))
                  (format_ladder cl1) mdef pt) in *.
    exists (doc :: docs). subst lb1. simpl in Hl, Hm. split.
    + rewrite Hl. now rewrite <- app_assoc.
    + rewrite Hm. reflexivity.
Qed.

Lemma pipeline_capture marketdata definition sp meta ladders raw :
  pipeline strptime marketdata definition sp = Ok (meta, ladders, raw) ->
  exists mb0,
    fresh mb0 /\
    mb_in_play_start mb0 = m_inPlayStartTime meta /\
    let mb := capture_all mb0 ladders in
    m_pre0ladder meta = m_pre0ladder (mb_metadata mb) /\
    m_pre5ladder meta = m_pre5ladder (mb_metadata mb) /\
    m_pre10ladder meta = m_pre10ladder (mb_metadata mb).
Proof.
  unfold pipeline, run. intros H.
  apply bind_ok in H. destruct H as (lb0 & Hinit & H).
  apply bind_ok in H. destruct H as (lb & Hrun & H).
  apply bind_ok in H. destruct H as (mb' & Hpost & H).
  injection H as <- <- <-.
  unfold LadderBuilder_init in Hinit.
  apply bind_ok in Hinit. destruct Hinit as (ids & _ & Hinit).
  apply bind_ok in Hinit. destruct Hinit as (start & _ & Hinit).
  apply bind_ok in Hinit. destruct Hinit as (e & _ & Hinit).
  apply bind_ok in Hinit. destruct Hinit as (mb0 & Hmb & Hinit).
  injection Hinit as <-.
  destruct (MetadataBuilder_init_fresh _ _ _ _ _ Hmb) as (Hfresh & Hstart).
  destruct (run_packets_capture _ _ _ Hrun) as (docs & Hl & Hm).
  simpl in Hl, Hm. subst docs.
  destruct (extend_post_market_keeps _ _ Hpost) as (Hs & H0 & H5 & H10 & _).
  rewrite Hm in Hs, H0, H5, H10.
  destruct (capture_all_fields (lb_ladders lb) mb0) as (_ & Hs' & _).
  exists mb0. split; [exact Hfresh|]. split.
  - rewrite Hs, Hs'. symmetry. apply Hfresh.
  - now repeat split.
Qed.

End CaptureFacts.

Lemma fresh_capture mb docs :
  fresh mb ->
  let m := mb_metadata (capture_all mb docs) in
  match mb_in_play_start mb with
  | None =>
      m_pre0ladder m = None /\ m_pre5ladder m = None /\ m_pre10ladder m = None
  | Some t =>
      m_pre0ladder m = first_within t 1000 docs /\
      m_pre5ladder m = first_within t 300000 docs /\
      m_pre10ladder m = first_within t 600000 docs
  end.
Proof.
  intros (F0 & F5 & F10 & Hc & _).
  destruct (capture_all_fields docs mb) as (_ & _ & _ & H0 & H5 & H10 & Hc').
  destruct (Hc' Hc) as (C0 & C5 & C10). cbv zeta.
  rewrite C0, C5, C10, H0, H5, H10, F0, F5, F10. unfold captured, first_within.
  now destruct (mb_in_play_start mb).
Qed.

Lemma first_within_none t threshold docs :
  first_within t threshold docs = None <->
  no_snapshot_within (Some t) threshold docs.
Proof.
  unfold first_within, no_snapshot_within. split.
  - intros H d Hin.
    destruct (find (within t threshold) docs) eqn:E; [discriminate|].
    exact (find_none _ _ E d Hin).
  - intros H. destruct (find (within t threshold) docs) as [d|] eqn:E;
      [|reflexivity].
    apply find_some in E. destruct E as [Hin Hw].
    rewrite (H d Hin) in Hw. discriminate.
Qed.

Lemma first_within_app t threshold docs later x :
  first_within t threshold docs = Some x ->
  first_within t threshold (docs ++ later) = Some x.
Proof.
  unfold first_within. intros H.
  destruct (find (within t threshold) docs) as [d|] eqn:E; [|discriminate].
  now rewrite (find_app_some _ _ later _ E).
Qed.

(** C7. For a market whose pipeline ran to the end: when the market
    never went in-play ([inPlayStartTime] is [None]) no pre-ladder field
    is set; otherwise [pre0ladder], [pre5ladder] and [pre10ladder] are
    the runners of the first snapshot of the stream whose distance
    [inPlayStartTime - pt] is below 1000, 300000 and 600000 milliseconds
    respectively.  So a field is absent exactly when the market never
    went in-play or no snapshot falls in its window.  While packets are
    processed the builder is the freshly constructed one offered the
    snapshots made so far, and a field that is set keeps its value
    whatever snapshots follow. *)
Theorem pre_ladders_first_snapshot_in_window
    (strptime : string -> option datetime)
    (marketdata : list packet) (definition : market_definition) (sp : sport)
    (meta : metadata) (ladders : list ts_document) (raw : list raw_packet) :
  pipeline strptime marketdata definition sp = Ok (meta, ladders, raw) ->
  match m_inPlayStartTime meta with
  | None =>
      m_pre0ladder meta = None /\ m_pre5ladder meta = None /\
      m_pre10ladder meta = None
  | Some t =>
      m_pre0ladder meta = first_within t 1000 ladders /\
      m_pre5ladder meta = first_within t 300000 ladders /\
      m_pre10ladder meta = first_within t 600000 ladders
  end /\
  (m_pre0ladder meta = None <->
     no_snapshot_within (m_inPlayStartTime meta) 1000 ladders) /\
  (m_pre5ladder meta = None <->
     no_snapshot_within (m_inPlayStartTime meta) 300000 ladders) /\
  (m_pre10ladder meta = None <->
     no_snapshot_within (m_inPlayStartTime meta) 600000 ladders) /\
  (forall lb0 processed lb,
     LadderBuilder_init strptime marketdata definition sp = Ok lb0 ->
     run_packets strptime lb0 processed = Ok lb ->
     fresh (lb_metadata_builder lb0) /\
     lb_metadata_builder lb =
       capture_all (lb_metadata_builder lb0) (lb_ladders lb)) /\
  (forall mb docs later x,
     fresh mb ->
     let now := mb_metadata (capture_all mb docs) in
     let then' := mb_metadata (capture_all mb (docs ++ later)) in
     (m_pre0ladder now = Some x -> m_pre0ladder then' = Some x) /\
     (m_pre5ladder now = Some x -> m_pre5ladder then' = Some x) /\
     (m_pre10ladder now = Some x -> m_pre10ladder then' = Some x)).
Proof.
  intros Hrun.
  destruct (pipeline_capture strptime _ _ _ _ _ _ Hrun)
    as (mb0 & Hfresh & Hstart & H0 & H5 & H10).
  pose proof (fresh_capture mb0 ladders Hfresh) as Hcap. cbv zeta in Hcap.
  rewrite Hstart, <- H0, <- H5, <- H10 in Hcap.
  split; [exact Hcap|].
  assert (Habsent : forall threshold field,
    match m_inPlayStartTime meta with
    | None => field = None
    | Some t => field = first_within t threshold ladders
    end ->
    (field = None <->
     no_snapshot_within (m_inPlayStartTime meta) threshold ladders)).
  { intros threshold fld Hf.
    destruct (m_inPlayStartTime meta) as [t|]; simpl.
    - rewrite Hf. apply first_within_none.
    - now split. }
  split; [apply Habsent; destruct (m_inPlayStartTime meta); apply Hcap|].
  split; [apply Habsent; destruct (m_inPlayStartTime meta); apply Hcap|].
  split; [apply Habsent; destruct (m_inPlayStartTime meta); apply Hcap|].
  split.
  - intros lb0 processed lb Hinit Hpk.
    destruct (run_packets_capture strptime _ _ _ Hpk) as (docs & Hl & Hm).
    destruct (LadderBuilder_init_book strptime _ _ _ _ Hinit) as (ids & _ & _ & Hlad).
    rewrite Hlad in Hl. simpl in Hl. subst docs. split; [|exact Hm].
    unfold LadderBuilder_init in Hinit.
    apply bind_ok in Hinit. destruct Hinit as (ids' & _ & Hinit).
    apply bind_ok in Hinit. destruct Hinit as (start & _ & Hinit).
    apply bind_ok in Hinit. destruct Hinit as (e & _ & Hinit).
    apply bind_ok in Hinit. destruct Hinit as (mb & Hmb & Hinit).
    injection Hinit as <-. simpl.
    exact (proj1 (MetadataBuilder_init_fresh strptime _ _ _ _ _ Hmb)).
  - intros mb docs later x Hf now then'.
    pose proof (fresh_capture mb docs Hf) as Hd.
    pose proof (fresh_capture mb (docs ++ later) Hf) as Hdl.
    cbv zeta in Hd, Hdl. fold now in Hd. fold then' in Hdl.
    destruct (mb_in_play_start mb) as [t|].
    + destruct Hd as (D0 & D5 & D10). destruct Hdl as (L0 & L5 & L10).
      rewrite D0, D5, D10, L0, L5, L10.
      repeat split; apply first_within_app.
    + destruct Hd as (D0 & D5 & D10). rewrite D0, D5, D10.
      repeat split; discriminate.
Qed.

Lemma pre_ladders_first_snapshot_in_window_witness :
  exists meta ladders raw,
    pipeline strptime_iso example_marketdata
      (example_definition false example_roster) HorseRacing
      = Ok (meta, ladders, raw) /\
    m_inPlayStartTime meta = Some 1000000%Z /\
    map ts_pt ladders = [500001; 700001; 999500; 1000000]%Z /\
    m_pre10ladder meta = option_map ts_runners (nth_error ladders 0) /\
    m_pre5ladder meta = option_map ts_runners (nth_error ladders 1) /\
    m_pre0ladder meta = option_map ts_runners (nth_error ladders 2) /\
    (m_pre0ladder meta = None <->
       no_snapshot_within (m_inPlayStartTime meta) 1000 ladders).
Proof.
  do 3 eexists.
  split; [vm_compute; reflexivity|].
  split; [reflexivity|]. split; [reflexivity|].
  split; [reflexivity|]. split; [reflexivity|]. split; [reflexivity|].
  refine (proj1 (proj2
    (pre_ladders_first_snapshot_in_window strptime_iso example_marketdata
       (example_definition false example_roster) HorseRacing _ _ _ _))).
  vm_compute; reflexivity.
Defined.

(** * Decoding a packet *)

(** A packet with a [pt] and exactly one market change is not decoded
    when its [pt] is beyond the range of a [pd.Timestamp]: the
    conversion raises [OutOfBoundsDatetime], which is none of the
    rejections of a malformed packet. *)
Lemma process_packet_out_of_bounds :
  let p := example_packet (10 ^ 16) [] None in
  (exists pt m, p_pt p = Some pt /\ p_mc p = Some [m]) /\
  process_packet p = Raise OutOfBoundsDatetime /\
  ~ MalformedPacket OutOfBoundsDatetime.
Proof.
  split; [|split].
  - do 2 eexists. split; reflexivity.
  - vm_compute. reflexivity.
  - unfold MalformedPacket. intros [H|[H|[H|H]]]; discriminate.
Qed.

(** C8, as the code has it.  Decoding a packet gives its [pt], kept as
    the millisecond count of the timestamp, together with the single
    market change [mc[0]].  It raises exactly when [pt] is missing, [mc]
    is missing or empty, [mc] does not have exactly one element, or [pt]
    is outside the range of a [pd.Timestamp]; each case has its own
    exception, in the order in which the code meets them: [KeyError] for
    a missing [pt] or [mc], [IndexError] for an empty [mc],
    [OutOfBoundsDatetime] for the range, and the failed [assert] last.
    A packet with a [pt] in range and a one-element [mc] is decoded
    without an exception. *)
Theorem process_packet_rejects_malformed (p : packet) :
  (raises (process_packet p) <->
     p_pt p = None \/ p_mc p = None \/ p_mc p = Some [] \/
     (exists mc, p_mc p = Some mc /\ List.length mc <> 1%nat) \/
     (exists pt, p_pt p = Some pt /\ timestamp_in_range pt = false)) /\
  (forall e, process_packet p = Raise e ->
     MalformedPacket e \/ e = OutOfBoundsDatetime) /\
  (p_pt p = None -> process_packet p = Raise (KeyError (KField "pt"))) /\
  (forall pt, p_pt p = Some pt ->
     (p_mc p = None -> process_packet p = Raise (KeyError (KField "mc"))) /\
     (p_mc p = Some [] -> process_packet p = Raise IndexError) /\
     (forall m mc, p_mc p = Some (m :: mc) ->
        (timestamp_in_range pt = false ->
         process_packet p = Raise OutOfBoundsDatetime) /\
        (timestamp_in_range pt = true -> mc <> [] ->
         process_packet p = Raise AssertionError) /\
        (timestamp_in_range pt = true -> mc = [] ->
         process_packet p = Ok (pt, m)))) /\
  (forall t m, process_packet p = Ok (t, m) ->
     p_pt p = Some t /\ p_mc p = Some [m] /\
     (- MAX_TIMESTAMP_MS <= t <= MAX_TIMESTAMP_MS)%Z).
Proof.
  unfold process_packet, raises, MalformedPacket, to_datetime.
  split; [|split; [|split; [|split]]].
  - destruct (p_pt p) as [pt|]; simpl.
    2:{ split; [now left|intros _; now eexists]. }
    destruct (p_mc p) as [[|m [|m' mc]]|]; simpl.
    + split; [auto|intros _; now eexists].
    + destruct (timestamp_in_range pt) eqn:Er; simpl.
      * split; [intros [e [=]]|].
        intros [[=]|[[=]|[[=]|[(mc & [= <-] & H)|(pt' & [= <-] & H)]]]];
          [now contradiction H|congruence].
      * split; [|intros _; now eexists].
        intros _. do 4 right. now exists pt.
    + split.
      * intros _. do 3 right. left. eexists. split; [reflexivity|].
        simpl. lia.
      * intros _. destruct (timestamp_in_range pt); simpl; now eexists.
    + split; [auto|intros _; now eexists].
  - intros e. destruct (p_pt p) as [pt|]; simpl; [|intros [= <-]; auto].
    destruct (p_mc p) as [[|m [|m' mc]]|]; simpl;
      try (intros [= <-]; now auto);
      destruct (timestamp_in_range pt); simpl; intros [= <-]; auto.
  - intros ->. reflexivity.
  - intros pt ->. simpl. split; [|split].
    + intros ->. reflexivity.
    + intros ->. reflexivity.
    + intros m mc ->. simpl. split; [|split].
      * intros ->. reflexivity.
      * intros -> Hne. simpl. destruct mc; [congruence|reflexivity].
      * intros -> ->. reflexivity.
  - intros t m. destruct (p_pt p) as [pt|]; simpl; [|discriminate].
    destruct (p_mc p) as [[|m0 [|m' mc]]|]; simpl; try discriminate;
      destruct (timestamp_in_range pt) eqn:Er; simpl; try discriminate.
    intros [= <- <-]. split; [reflexivity|]. split; [reflexivity|].
    unfold timestamp_in_range in Er. apply andb_prop in Er.
    destruct Er as [E1 E2]. apply Z.leb_le in E1, E2. now split.
Qed.

(** * The metadata base *)

Lemma result_cases {A : Type} (r : result A) : (exists a, r = Ok a) \/ raises r.
Proof. destruct r as [a|e]; [left; now exists a|right; now exists e]. Qed.

Lemma raises_bind {A B : Type} (r : result A) (f : A -> result B) :
  raises r -> raises (bind r f).
Proof. intros [e ->]. now exists e. Qed.

Section BaseFacts.
Variable strptime : string -> option datetime.

Lemma parse_date_ok name fld d :
  parse_date strptime name fld = Ok d <->
  exists s, fld = Some s /\ strptime s = Some d.
Proof.
  unfold parse_date. destruct fld as [s|]; simpl.
  - destruct (strptime s) as [d'|] eqn:E.
    + split; [intros [= <-]; now exists s|].
      intros (s' & [= <-] & H). congruence.
    + split; [discriminate|]. intros (s' & [= <-] & H). congruence.
  - split; [discriminate|]. now intros (s & [=] & _).
Qed.

Lemma format_metadata_ok mc m id eid :
  format_metadata strptime mc = Ok (m, id, eid) <->
  exists definition d1 d2 d3,
    base_fields strptime mc id eid definition d1 d2 d3 /\
    m = base_record mc id eid definition d1 d2 d3.
Proof.
  unfold format_metadata, base_fields, base_record. split.
  - intros H.
    apply bind_ok in H. destruct H as (mid & Hid & H).
    apply bind_ok in H. destruct H as (d & Hd & H).
    apply bind_ok in H. destruct H as (e & He & H).
    apply bind_ok in H. destruct H as (d1 & H1 & H).
    apply bind_ok in H. destruct H as (d2 & H2 & H).
    apply bind_ok in H. destruct H as (d3 & H3 & H).
    injection H as <- <- <-.
    unfold subscript in Hid, Hd, He.
    destruct (mc_id mc) eqn:E1; [injection Hid as ->|discriminate].
    destruct (mc_marketDefinition mc) eqn:E2; [injection Hd as ->|discriminate].
    destruct (md_eventId d) eqn:E3; [injection He as ->|discriminate].
    apply parse_date_ok in H1, H2, H3.
    exists d, d1, d2, d3. now repeat split.
  - intros (d & d1 & d2 & d3 & (Hid & Hd & He & H1 & H2 & H3) & ->).
    rewrite Hid, Hd. simpl. rewrite He. simpl.
    apply (parse_date_ok "openDate") in H1.
    apply (parse_date_ok "marketTime") in H2.
    apply (parse_date_ok "suspendTime") in H3.
    rewrite H1. simpl. rewrite H2. simpl. rewrite H3. reflexivity.
Qed.

Lemma MetadataBuilder_init_inv sp marketdata start e mb :
  MetadataBuilder_init strptime sp marketdata start e = Ok mb ->
  exists p mc more m id eid,
    last_item marketdata = Ok p /\ p_mc p = Some (mc :: more) /\
    format_metadata strptime mc = Ok (m, id, eid) /\
    m_marketId (mb_metadata mb) = m_marketId m /\
    m_eventId (mb_metadata mb) = m_eventId m /\
    m__id (mb_metadata mb) = m__id m /\
    m_marketDefinition (mb_metadata mb) = m_marketDefinition m /\
    m_inPlayStartTime (mb_metadata mb) = start /\
    m_inPlayEndTime (mb_metadata mb) = Some e.
Proof.
  unfold MetadataBuilder_init. intros H.
  apply bind_ok in H. destruct H as (p & Hp & H).
  apply bind_ok in H. destruct H as (mcs & Hmc & H).
  apply bind_ok in H. destruct H as (mc0 & H0 & H).
  apply bind_ok in H. destruct H as ([[m id] eid] & Hf & H).
  injection H as <-.
  unfold subscript in Hmc. destruct (p_mc p) as [mcs'|] eqn:E; [|discriminate].
  injection Hmc as ->.
  destruct mcs as [|mc more]; [discriminate|]. injection H0 as ->.
  exists p, mc0, more, m, id, eid. now repeat split.
Qed.

End BaseFacts.

(** C10. The metadata base is built from the last packet's [mc[0]]
    when the builder is constructed, before any packet is processed.
    [format_metadata] succeeds exactly when [mc[0]] has an [id] and a
    [marketDefinition] with an [eventId] and with [openDate],
    [marketTime] and [suspendTime] strings that the date parser
    accepts, and then returns the record with [marketId = id], the
    [eventId], the parsed dates and [_id = "metadata_<id>_<eventId>"].
    A constructed builder carries that record; when a field is missing
    or a date is malformed, construction raises and so does the whole
    pipeline, which then returns no snapshot. *)
Theorem metadata_base_needs_id_event_and_dates
    (strptime : string -> option datetime) (mc : market_change) :
  (forall m id eid,
     format_metadata strptime mc = Ok (m, id, eid) <->
     exists definition d1 d2 d3,
       base_fields strptime mc id eid definition d1 d2 d3 /\
       m = base_record mc id eid definition d1 d2 d3) /\
  (forall id eid definition d1 d2 d3,
     let m := base_record mc id eid definition d1 d2 d3 in
     m_marketId m = id /\ m_eventId m = eid /\
     m__id m = ("metadata_" ++ id ++ "_" ++ eid)%string /\
     pd_openDate (m_marketDefinition m) = d1 /\
     pd_marketTime (m_marketDefinition m) = d2 /\
     pd_suspendTime (m_marketDefinition m) = d3) /\
  forall marketdata definition sp p more,
    last_item marketdata = Ok p -> p_mc p = Some (mc :: more) ->
    (forall lb,
       LadderBuilder_init strptime marketdata definition sp = Ok lb ->
       exists id eid definition' d1 d2 d3,
         base_fields strptime mc id eid definition' d1 d2 d3 /\
         let m := mb_metadata (lb_metadata_builder lb) in
         m_marketId m = id /\ m_eventId m = eid /\
         m__id m = ("metadata_" ++ id ++ "_" ++ eid)%string /\
         m_marketDefinition m = mkParsedDefinition definition' d1 d2 d3 /\
         lb_ladders lb = []) /\
    ((~ exists id eid definition' d1 d2 d3,
          base_fields strptime mc id eid definition' d1 d2 d3) ->
     raises (LadderBuilder_init strptime marketdata definition sp) /\
     raises (pipeline strptime marketdata definition sp)).
Proof.
  split; [intros m id eid; apply format_metadata_ok|].
  split; [intros; now repeat split|].
  intros marketdata definition sp p more Hp Hmc.
  assert (Hinit : forall lb,
    LadderBuilder_init strptime marketdata definition sp = Ok lb ->
    exists id eid definition' d1 d2 d3,
      base_fields strptime mc id eid definition' d1 d2 d3 /\
      let m := mb_metadata (lb_metadata_builder lb) in
      m_marketId m = id /\ m_eventId m = eid /\
      m__id m = ("metadata_" ++ id ++ "_" ++ eid)%string /\
      m_marketDefinition m = mkParsedDefinition definition' d1 d2 d3 /\
      lb_ladders lb = []).
  { intros lb H. unfold LadderBuilder_init in H.
    apply bind_ok in H. destruct H as (ids & _ & H).
    apply bind_ok in H. destruct H as (start & _ & H).
    apply bind_ok in H. destruct H as (e & _ & H).
    apply bind_ok in H. destruct H as (mb & Hmb & H).
    injection H as <-. simpl.
    apply MetadataBuilder_init_inv in Hmb.
    destruct Hmb as (p' & mc' & more' & m & id & eid & Hp' & Hmc' & Hf
                     & Hi & He & H_id & Hd & _).
    assert (p' = p) by congruence. subst p'.
    assert (mc' = mc) by congruence. subst mc'.
    apply format_metadata_ok in Hf.
    destruct Hf as (d & d1 & d2 & d3 & Hbase & ->).
    exists id, eid, d, d1, d2, d3. split; [exact Hbase|].
    rewrite Hi, He, H_id, Hd. now repeat split. }
  split; [exact Hinit|].
  intros Hno.
  assert (Hr : raises (LadderBuilder_init strptime marketdata definition sp)).
  { destruct (result_cases (LadderBuilder_init strptime marketdata definition sp))
      as [[lb Hlb]|Hr]; [|exact Hr].
    exfalso. apply Hno.
    destruct (Hinit lb Hlb) as (id & eid & d & d1 & d2 & d3 & Hbase & _).
    now exists id, eid, d, d1, d2, d3. }
  split; [exact Hr|]. unfold pipeline. now apply raises_bind.
Qed.

(** The example market is constructed, with the record of its last
    packet; with a malformed [openDate] in the last packet construction
    raises [ValueError]. *)
Example example_metadata_base :
  exists lb,
    LadderBuilder_init strptime_iso example_marketdata
      (example_definition false example_roster) HorseRacing = Ok lb /\
    m__id (mb_metadata (lb_metadata_builder lb)) = "metadata_1.209_32100"%string /\
    pd_openDate (m_marketDefinition (mb_metadata (lb_metadata_builder lb)))
      = mkDatetime 2023 1 3 12 30 0 0.
Proof.
  eexists. split; [vm_compute; reflexivity|]. split; reflexivity.
Qed.

Example example_malformed_date :
  let definition :=
    mkMarketDefinition (Some "32100"%string)
      (Some "2023-01-03 12:30:00"%string) (Some "2023-01-03T12:30:00.000Z"%string)
      (Some "2023-01-03T12:30:00.000Z"%string)
      (Some true) (Some "2m4f Hcap Hrd"%string) (Some "WIN"%string)
      (Some example_result) true in
  pipeline strptime_iso
    [example_packet 500001 [] (Some definition)] definition HorseRacing
  = Raise ValueError.
Proof. vm_compute. reflexivity. Qed.

(** * Winner and favourites when some runners have no bsp *)

(** C3, on the two example rosters.  [extend_post_market] collects
    only the [bsp] values that are present, so the list [bsps] is
    shorter than the lists of names and ids and its positions no longer
    belong to the same runners.  With the winner lacking a [bsp], the
    winner is emitted with the other runner's [bsp] and the favourite
    entry pairs the winner's name and id with that [bsp]; with a runner
    before the winner lacking a [bsp], the lookup [bsp[winner_index]] is
    out of range and the pipeline ends in [IndexError]. *)
Theorem post_market_bsp_misaligned :
  collect_bsps winner_without_bsp = [3] /\
  extract_winner_info (map rd_name winner_without_bsp)
    (map rd_id winner_without_bsp) (map rd_status winner_without_bsp)
    (collect_bsps winner_without_bsp)
  = Ok (Some (mkWinnerInfo "Arkle" 10 (Some 3))) /\
  extract_favourite_info (map rd_name winner_without_bsp)
    (map rd_id winner_without_bsp) (collect_bsps winner_without_bsp)
  = Ok (Some [mkFavourite "Arkle" 10 3]) /\
  (exists meta ladders raw,
     pipeline strptime_iso (example_stream winner_without_bsp)
       (example_definition false example_roster) HorseRacing
     = Ok (meta, ladders, raw) /\
     m_winnerInfo meta = Some (mkWinnerInfo "Arkle" 10 (Some 3)) /\
     m_favouriteInfo meta = Some [mkFavourite "Arkle" 10 3]) /\
  extract_winner_info (map rd_name loser_without_bsp)
    (map rd_id loser_without_bsp) (map rd_status loser_without_bsp)
    (collect_bsps loser_without_bsp)
  = Raise IndexError /\
  pipeline strptime_iso (example_stream loser_without_bsp)
    (example_definition false example_roster) HorseRacing
  = Raise IndexError.
Proof.
  split; [reflexivity|]. split; [reflexivity|]. split; [reflexivity|].
  split.
  - do 3 eexists. split; [vm_compute; reflexivity|]. split; reflexivity.
  - split; [reflexivity|]. vm_compute. reflexivity.
Qed.

(** With every [bsp] present the lists are aligned: the example market
    gets its winner and its favourites in ascending [bsp] order. *)
Example post_market_all_bsp_present :
  exists meta ladders raw,
    pipeline strptime_iso example_marketdata
      (example_definition false example_roster) HorseRacing
    = Ok (meta, ladders, raw) /\
    m_winnerInfo meta = Some (mkWinnerInfo "Desert Orchid" 20 (Some 3)) /\
    m_favouriteInfo meta =
      Some [mkFavourite "Desert Orchid" 20 3; mkFavourite "Arkle" 10 5] /\
    m_raceTypeAdjusted meta = Some "Hurdle"%string /\
    m_distance meta = Some (Some "2m4f"%string) /\
    m_isHandicap meta = Some true.
Proof.
  do 3 eexists. split; [vm_compute; reflexivity|]. repeat split; reflexivity.
Qed.

(** * Further properties of the ladder builder *)

(** ** The accumulated traded volume *)

Lemma total_volume_app l1 l2 :
  total_volume (l1 ++ l2) == total_volume l1 + total_volume l2.
Proof.
  induction l1 as [|t l1 IH]; simpl; [lra|]. rewrite IH. lra.
Qed.




(** ** Converting an update list to a dictionary *)

Section DictFresh.
Context {K V : Type}.
Variable keq : K -> K -> bool.
Hypothesis keq_sym : forall a b, keq a b = true -> keq b a = true.

Lemma dset_fresh (d : list (K * V)) k v :
  dget keq d k = None -> dset keq d k v = d ++ [(k, v)].
Proof.
  induction d as [|[k0 v0] d IH]; simpl; [reflexivity|].
  destruct (keq k0 k); [discriminate|]. intros H. now rewrite IH.
Qed.

Lemma dget_fresh_snoc (d : list (K * V)) k v k' :
  dget keq d k' = None -> keq k k' = false ->
  dget keq (d ++ [(k, v)]) k' = None.
Proof.
  induction d as [|[k0 v0] d IH]; simpl; intros H E.
  - now rewrite E.
  - destruct (keq k0 k'); [discriminate|]. now apply IH.
Qed.

(** Items with pairwise different keys, none of them in [d], are
    appended in their order. *)
Lemma dupdate_fresh (u : list (K * V)) :
  forall d,
  NoDupA (eqk keq) u ->
  (forall kv, In kv u -> dget keq d (fst kv) = None) ->
  dupdate keq d u = d ++ u.
Proof.
  induction u as [|[k v] u IH]; intros d Hnd Hfresh; simpl.
  - now rewrite app_nil_r.
  - inversion Hnd as [|? ? Hnin Hnd']; subst.
    unfold dupdate in *. simpl.
    rewrite (dset_fresh d k v (Hfresh (k, v) (or_introl eq_refl))).
    rewrite IH; [now rewrite <- app_assoc|exact Hnd'|].
    intros [k' v'] Hin. simpl. apply dget_fresh_snoc.
    + exact (Hfresh (k', v') (or_intror Hin)).
    + destruct (keq k k') eqn:E; [|reflexivity].
      exfalso. apply Hnin. apply InA_alt. exists (k', v'). now split.
Qed.

End DictFresh.

Lemma dset_length_le (d : ladder) k v :
  (List.length (dset Qeq_bool d k v) <= S (List.length d))%nat.
Proof.
  induction d as [|[k0 v0] d IH]; simpl; [lia|].
  destruct (Qeq_bool k0 k); simpl; lia.
Qed.

Lemma dupdate_length_le (u : list (Q * Q)) :
  forall d : ladder,
  (List.length (dupdate Qeq_bool d u) <= List.length d + List.length u)%nat.
Proof.
  induction u as [|kv u IH]; intros d; simpl; [lia|].
  unfold dupdate in *. simpl.
  specialize (IH (dset Qeq_bool d (fst kv) (snd kv))).
  pose proof (dset_length_le d (fst kv) (snd kv)). lia.
Qed.

(** X2. [list_ladder_to_dict] always yields a dictionary (no two equal
    prices) with at most as many entries as the list; a price that
    occurs several times keeps its last size; and a list whose prices
    are pairwise different is returned as it is, in its order. *)
Theorem list_ladder_to_dict_last_wins (l : list (Q * Q)) :
  dict_wf Qeq_bool (list_ladder_to_dict l) /\
  (List.length (list_ladder_to_dict l) <= List.length l)%nat /\
  (forall k, dget Qeq_bool (list_ladder_to_dict l) k = dget Qeq_bool (rev l) k) /\
  (dict_wf Qeq_bool l -> list_ladder_to_dict l = l).
Proof.
  unfold list_ladder_to_dict. split; [|split; [|split]].
  - apply ladder_wf_dupdate. constructor.
  - apply (dupdate_length_le l []).
  - intros k. apply dget_comprehension;
      [apply Qeq_bool_sym|apply Qeq_bool_trans'].
  - intros Hwf. rewrite (dupdate_fresh Qeq_bool l [] Hwf); [reflexivity|].
    reflexivity.
Qed.

(** ** Lookups in an updated side *)

Lemma In_firstn {A : Type} n (l : list A) x : In x (firstn n l) -> In x l.
Proof.
  intros H. rewrite <- (firstn_skipn n l). apply in_or_app. now left.
Qed.

Lemma update_runner_ladder_In rl chg key kv :
  In kv (update_runner_ladder rl chg key) -> In kv (kept_levels rl chg key).
Proof.
  unfold update_runner_ladder. fold (kept_levels rl chg key).
  destruct key; intros H; try apply In_firstn in H;
    (eapply Permutation_in; [apply py_sorted_perm|exact H]).
Qed.

Lemma update_runner_ladder_wf rl chg key :
  dict_wf Qeq_bool (side_of rl key) ->
  dict_wf Qeq_bool (update_runner_ladder rl chg key).
Proof.
  intros Hwf. destruct key.
  - apply descending_wf. now apply update_runner_ladder_atb_descending.
  - apply ascending_wf. now apply update_runner_ladder_atl_ascending.
  - apply ascending_wf. now apply update_runner_ladder_trd_ascending.
Qed.

Ltac qeq := first [apply Qeq_bool_refl | apply Qeq_bool_sym | apply Qeq_bool_trans'].

Lemma ladder_dget_keq (d : ladder) a b :
  Qeq_bool a b = true -> dget Qeq_bool d a = dget Qeq_bool d b.
Proof. apply dget_keq; qeq. Qed.

Lemma ladder_In_dget (d : ladder) k v :
  dict_wf Qeq_bool d -> In (k, v) d -> dget Qeq_bool d k = Some v.
Proof. apply In_dget; qeq. Qed.

(** X3. A price found in an updated side has the size the merge gave
    it, and that size is positive: a level whose last update has size
    zero is gone, and a removal of a price that is not there changes
    nothing.  For [trd], and for [atb] and [atl] as long as at most ten
    levels compete, the converse holds too: every price with a positive
    merged size is found with that size. *)
Theorem update_runner_ladder_lookup
    (rl : runner_ladder) (chg : runner_change) (key : price_key) (k : Q) :
  dict_wf Qeq_bool (side_of rl key) ->
  let merged :=
    dupdate Qeq_bool (side_of rl key) (list_ladder_to_dict (change_of chg key)) in
  let result := update_runner_ladder rl chg key in
  (forall v, dget Qeq_bool result k = Some v -> kept_size merged k = Some v) /\
  (kept_size merged k = None -> dget Qeq_bool result k = None) /\
  (key = TRD \/ (List.length (filter positive_size merged) <= 10)%nat ->
   dget Qeq_bool result k = kept_size merged k).
Proof.
  intros Hwf merged result.
  assert (Hmwf : dict_wf Qeq_bool merged) by now apply ladder_wf_dupdate.
  assert (Hsound : forall v, dget Qeq_bool result k = Some v ->
                             kept_size merged k = Some v).
  { intros v H. apply dget_In in H. destruct H as (k' & Hk & Hin).
    apply update_runner_ladder_In in Hin. unfold kept_levels in Hin.
    apply filter_In in Hin. destruct Hin as [Hin Hpos].
    unfold kept_size. rewrite <- (ladder_dget_keq merged k' k Hk).
    rewrite (ladder_In_dget merged k' v Hmwf Hin).
    unfold positive_size in Hpos. simpl in Hpos. now rewrite Hpos. }
  split; [exact Hsound|]. split.
  - intros Hnone. destruct (dget Qeq_bool result k) as [v|] eqn:E; [|reflexivity].
    specialize (Hsound v eq_refl). congruence.
  - intros Hfull.
    destruct (kept_size merged k) as [v|] eqn:Ek.
    + unfold kept_size in Ek.
      destruct (dget Qeq_bool merged k) as [v0|] eqn:Em; [|discriminate].
      destruct (Qlt_bool 0 v0) eqn:Ep; [|discriminate]. injection Ek as ->.
      apply dget_In in Em. destruct Em as (k' & Hk & Hin).
      assert (Hkept : In (k', v) (filter positive_size merged)).
      { apply filter_In. split; [exact Hin|exact Ep]. }
      assert (Hres : In (k', v) result).
      { subst result. unfold update_runner_ladder. fold merged.
        destruct Hfull as [->|Hlen].
        - eapply Permutation_in; [symmetry; apply py_sorted_perm|exact Hkept].
        - destruct key.
          + rewrite firstn_all2.
            * eapply Permutation_in; [symmetry; apply py_sorted_perm|exact Hkept].
            * rewrite (Permutation_length (py_sorted_perm item_gtb _)). exact Hlen.
          + rewrite firstn_all2.
            * eapply Permutation_in; [symmetry; apply py_sorted_perm|exact Hkept].
            * rewrite (Permutation_length (py_sorted_perm item_ltb _)). exact Hlen.
          + eapply Permutation_in; [symmetry; apply py_sorted_perm|exact Hkept]. }
      rewrite <- (ladder_dget_keq result k' k Hk).
      apply ladder_In_dget; [|exact Hres].
      now apply update_runner_ladder_wf.
    + destruct (dget Qeq_bool result k) as [v|] eqn:E; [|reflexivity].
      specialize (Hsound v eq_refl). congruence.
Qed.

Lemma update_runner_ladder_lookup_witness :
  dict_wf Qeq_bool (side_of example_runner ATB) /\
  dget Qeq_bool (update_runner_ladder example_runner example_change ATB) 29 = None /\
  dget Qeq_bool (update_runner_ladder example_runner example_change ATB) 31 = Some 3 /\
  (kept_size
     (dupdate Qeq_bool (side_of example_runner ATB)
        (list_ladder_to_dict (change_of example_change ATB))) 29 = None ->
   dget Qeq_bool (update_runner_ladder example_runner example_change ATB) 29 = None).
Proof.
  split; [exact example_levels_wf|]. split; [reflexivity|]. split; [reflexivity|].
  exact (proj1 (proj2
    (update_runner_ladder_lookup example_runner example_change ATB 29
       example_levels_wf))).
Defined.

(** ** A side that a runner change does not mention *)

Lemma py_sorted_of_sorted {A : Type} (ltb : A -> A -> bool) (l : list A) :
  StronglySorted (fun a b => ltb b a = false) l -> py_sorted ltb l = l.
Proof.
  induction 1 as [|x l Hs IH Hall]; simpl; [reflexivity|].
  rewrite IH. destruct l as [|y l]; [reflexivity|]. simpl.
  inversion Hall as [|? ? Hy _]; subst. now rewrite Hy.
Qed.

Lemma filter_all {A : Type} (f : A -> bool) (l : list A) :
  Forall (fun x => f x = true) l -> filter f l = l.
Proof.
  induction 1 as [|x l Hx _ IH]; simpl; [reflexivity|]. now rewrite Hx, IH.
Qed.

Lemma ascending_py_sorted (l : ladder) : ascending l -> py_sorted item_ltb l = l.
Proof.
  intros H. apply py_sorted_of_sorted.
  eapply StronglySorted_ind with (P := StronglySorted (fun a b => item_ltb b a = false));
    [constructor| |exact H].
  intros a l' _ IH Hall. constructor; [exact IH|].
  eapply Forall_impl; [|exact Hall].
  intros b Hb. unfold key_lt in Hb. unfold item_ltb.
  destruct (Qeq_bool (fst b) (fst a)) eqn:E; q_reflect; lra.
Qed.

Lemma descending_py_sorted (l : ladder) : descending l -> py_sorted item_gtb l = l.
Proof.
  intros H. apply py_sorted_of_sorted.
  eapply StronglySorted_ind with (P := StronglySorted (fun a b => item_gtb b a = false));
    [constructor| |exact H].
  intros a l' _ IH Hall. constructor; [exact IH|].
  eapply Forall_impl; [|exact Hall].
  intros b Hb. unfold key_gt in Hb. unfold item_gtb, item_ltb.
  destruct (Qeq_bool (fst a) (fst b)) eqn:E; q_reflect; lra.
Qed.

(** X4. A runner change without entries for a side leaves that side as
    it is, provided the side is in the state every update leaves it in
    (positive sizes, sorted, at most ten levels on [atb] and [atl]). *)
Theorem update_runner_ladder_no_entries
    (rl : runner_ladder) (chg : runner_change) (key : price_key) :
  side_ok key (side_of rl key) ->
  change_of chg key = [] ->
  update_runner_ladder rl chg key = side_of rl key.
Proof.
  intros [Hpos Hside] Hnone. unfold update_runner_ladder. rewrite Hnone.
  change (dupdate Qeq_bool (side_of rl key) (list_ladder_to_dict []))
    with (side_of rl key).
  rewrite filter_all.
  - destruct key.
    + destruct Hside as [Hs Hlen].
      rewrite descending_py_sorted by exact Hs. now apply firstn_all2.
    + destruct Hside as [Hs Hlen].
      rewrite ascending_py_sorted by exact Hs. now apply firstn_all2.
    + now apply ascending_py_sorted.
  - eapply Forall_impl; [|exact Hpos].
    intros kv H. unfold positive_size. now apply Qlt_bool_iff.
Qed.

Lemma example_levels_side_ok : side_ok ATB example_levels.
Proof.
  split.
  - unfold example_levels. repeat constructor.
  - split; [|simpl; lia].
    unfold example_levels, descending.
    repeat (constructor; [|repeat constructor; unfold key_gt; simpl; lra]).
    constructor.
Qed.

Lemma update_runner_ladder_no_entries_witness :
  side_ok ATB (side_of example_runner ATB) /\
  change_of trade_change ATB = [] /\
  update_runner_ladder example_runner trade_change ATB = example_levels.
Proof.
  split; [exact example_levels_side_ok|]. split; [reflexivity|].
  exact (update_runner_ladder_no_entries example_runner trade_change ATB
           example_levels_side_ok eq_refl).
Defined.

(** ** Invariants of the book along the run *)

Lemma update_runner_ladder_side_ok rl chg key :
  dict_wf Qeq_bool (side_of rl key) ->
  side_ok key (update_runner_ladder rl chg key).
Proof.
  intros Hwf. split.
  - apply Forall_forall. intros kv Hin.
    apply update_runner_ladder_In in Hin.
    pose proof (kept_levels_positive rl chg key) as Hpos.
    rewrite Forall_forall in Hpos. now apply Hpos.
  - destruct key.
    + split; [now apply update_runner_ladder_atb_descending|].
      unfold update_runner_ladder. apply firstn_le_length.
    + split; [now apply update_runner_ladder_atl_ascending|].
      unfold update_runner_ladder. apply firstn_le_length.
    + now apply update_runner_ladder_trd_ascending.
Qed.

Lemma sides_ok_changed rl chg : sides_ok rl -> sides_ok (changed_runner rl chg).
Proof.
  intros ((_ & Hb & _) & (_ & Hl & _) & (_ & Ht)).
  repeat split; simpl;
    try (apply (update_runner_ladder_side_ok rl chg ATB); now apply descending_wf);
    try (apply (update_runner_ladder_side_ok rl chg ATL); now apply ascending_wf);
    try (apply (update_runner_ladder_side_ok rl chg TRD); now apply ascending_wf).
Qed.

Lemma dset_every (P : runner_ladder -> Prop) (cl : book) id rl :
  book_every P cl -> P rl -> book_every P (dset Z.eqb cl id rl).
Proof.
  unfold book_every. induction 1 as [|[k v] cl Hv Hall IH]; intros Hrl; simpl.
  - now repeat constructor.
  - destruct (Z.eqb k id); constructor; auto.
Qed.

Lemma dget_every (P : runner_ladder -> Prop) (cl : book) id rl :
  book_every P cl -> dget Z.eqb cl id = Some rl -> P rl.
Proof.
  intros Hall H. apply dget_In in H. destruct H as (k & _ & Hin).
  unfold book_every in Hall. rewrite Forall_forall in Hall.
  exact (Hall _ Hin).
Qed.

Section BookEvery.
Variable P : runner_ladder -> Prop.
Hypothesis P_change : forall rl chg, P rl -> P (changed_runner rl chg).
Hypothesis P_best : forall rl b l, P rl -> P (set_best rl b l).
Hypothesis P_trades : forall rl, P rl -> P (set_trades rl []).
Hypothesis P_empty : P empty_runner_ladder.

Lemma create_ladder_ds_every ids : book_every P (create_ladder_ds ids).
Proof.
  unfold create_ladder_ds.
  assert (Hgen : forall l cl, book_every P cl ->
    book_every P (fold_left (fun runners runner_id =>
      dset Z.eqb runners runner_id empty_runner_ladder) l cl)).
  { induction l as [|i l IH]; intros cl H; simpl; [exact H|].
    apply IH. now apply dset_every. }
  apply Hgen. constructor.
Qed.

Lemma apply_runner_changes_every (rc : list runner_change) :
  forall cl cl', apply_runner_changes cl rc = Ok cl' ->
  book_every P cl -> book_every P cl'.
Proof.
  induction rc as [|chg rc IH]; intros cl cl' H Hall; simpl in H.
  - now injection H as <-.
  - apply bind_ok in H. destruct H as (cl1 & H1 & H).
    destruct (dget Z.eqb cl (rc_id chg)) as [rl|] eqn:E.
    + rewrite (apply_runner_change_known cl chg rl E) in H1.
      injection H1 as <-. apply (IH _ _ H).
      apply dset_every; [exact Hall|].
      apply P_change. exact (dget_every P cl _ rl Hall E).
    + rewrite (apply_runner_change_unknown cl chg E) in H1. discriminate.
Qed.

Lemma raise_if_arbitrage_every (fl : list (Z * formatted_runner)) :
  forall cl cl', raise_if_arbitrage cl fl = Ok cl' ->
  book_every P cl -> book_every P cl'.
Proof.
  induction fl as [|[id fr] fl IH]; intros cl cl' H Hall; simpl in H.
  - now injection H as <-.
  - unfold check_arbitrage in H.
    destruct (dget Z.eqb cl id) as [stored|] eqn:E; [|discriminate].
    simpl in H.
    assert (Hnext : book_every P
      (dset Z.eqb cl id
         (set_best stored
            (best_price_of (fun q => q) default_best_back_price (f_atb fr))
            (best_price_of Fin default_best_lay_price (f_atl fr))))).
    { apply dset_every; [exact Hall|]. apply P_best.
      exact (dget_every P cl _ stored Hall E). }
    destruct (gt_ext _ _); exact (IH _ _ H Hnext).
Qed.

Lemma reset_runner_trades_every cl :
  book_every P cl -> book_every P (reset_runner_trades cl).
Proof.
  unfold book_every, reset_runner_trades. intros H.
  apply Forall_map. eapply Forall_impl; [|exact H].
  intros [k v] Hv. simpl in *. now apply P_trades.
Qed.

Variable strptime : string -> option datetime.

(** One iteration keeps [P] on the book, and the snapshot it appends
    shows a book on which [P] holds. *)
Lemma run_packet_every lb p lb' :
  run_packet strptime lb p = Ok lb' ->
  book_every P (lb_current_ladder lb) ->
  book_every P (lb_current_ladder lb') /\
  exists doc cl1,
    lb_ladders lb' = lb_ladders lb ++ [doc] /\
    ts_runners doc = format_ladder cl1 /\ book_every P cl1.
Proof.
  intros H Hall. apply run_packet_inv in H.
  destruct H as (pt & mc & raw & rc & cl1 & mdef & cl2 & _ & _ & _ & H1 & _ & H2 & Hlb).
  cbv zeta in Hlb. subst lb'. simpl.
  pose proof (apply_runner_changes_every rc _ _ H1 Hall) as Hall1.
  split.
  - apply reset_runner_trades_every.
    exact (raise_if_arbitrage_every _ _ _ H2 Hall1).
  - eexists. exists cl1. split; [reflexivity|]. now split.
Qed.

Lemma run_packets_every (marketdata : list packet) :
  forall lb lb',
  run_packets strptime lb marketdata = Ok lb' ->
  book_every P (lb_current_ladder lb) ->
  book_every P (lb_current_ladder lb') /\
  exists docs,
    lb_ladders lb' = lb_ladders lb ++ docs /\
    Forall (fun doc => exists cl1,
              ts_runners doc = format_ladder cl1 /\ book_every P cl1) docs.
Proof.
  induction marketdata as [|p rest IH]; intros lb lb' H Hall; simpl in H.
  - injection H as <-. split; [exact Hall|].
    exists []. now rewrite app_nil_r.
  - apply bind_ok in H. destruct H as (lb1 & H1 & H).
    destruct (run_packet_every lb p lb1 H1 Hall)
      as (Hall1 & doc & cl1 & Hl1 & Hdoc & Hcl1).
    destruct (IH _ _ H Hall1) as (Hall' & docs & Hl & Hdocs).
    split; [exact Hall'|]. exists (doc :: docs). split.
    + rewrite Hl, Hl1. now rewrite <- app_assoc.
    + constructor; [now exists cl1|exact Hdocs].
Qed.

End BookEvery.

Lemma pipeline_inv strptime marketdata definition sp meta ladders raw :
  pipeline strptime marketdata definition sp = Ok (meta, ladders, raw) ->
  exists ids start e mb0 lb mb,
    get_runner_ids definition = Ok ids /\
    get_in_play_start_pt marketdata = Ok start /\
    get_in_play_end_pt marketdata = Ok e /\
    MetadataBuilder_init strptime sp marketdata start e = Ok mb0 /\
    run_packets strptime
      (mkLadderBuilder [] [] (create_ladder_ds ids) mb0) marketdata = Ok lb /\
    extend_post_market (lb_metadata_builder lb) = Ok mb /\
    meta = mb_metadata mb /\ ladders = lb_ladders lb /\ raw = lb_marketdata lb.
Proof.
  unfold pipeline, run, LadderBuilder_init. intros H.
  apply bind_ok in H. destruct H as (lb0 & Hinit & H).
  apply bind_ok in H. destruct H as (lb & Hrun & H).
  apply bind_ok in H. destruct H as (mb & Hpost & H).
  injection H as <- <- <-.
  apply bind_ok in Hinit. destruct Hinit as (ids & Hids & Hinit).
  apply bind_ok in Hinit. destruct Hinit as (start & Hs & Hinit).
  apply bind_ok in Hinit. destruct Hinit as (e & He & Hinit).
  apply bind_ok in Hinit. destruct Hinit as (mb0 & Hmb & Hinit).
  injection Hinit as <-.
  exists ids, start, e, mb0, lb, mb. now repeat split.
Qed.

Lemma format_runner_snapshot_ok rl : sides_ok rl -> snapshot_ok (format_runner rl).
Proof.
  intros (Hb & Hl & Ht). unfold snapshot_ok, format_runner. simpl.
  assert (Hne : forall (A : Type) (s l : list A),
            if_nonempty s = Some l -> l <> [] /\ l = s).
  { intros A s l. destruct s; simpl; [discriminate|].
    intros [= <-]. split; [discriminate|reflexivity]. }
  assert (Htr : forall v q, if_truthy v = Some q -> ~ q == 0).
  { intros v q. unfold if_truthy. destruct (truthy v) eqn:E; [|discriminate].
    intros ->. simpl in E. rewrite negb_true_iff in E. now q_reflect. }
  split; [|split; [|split; [|split; [|split]]]].
  - intros l H. destruct (Hne _ _ _ H) as [Hn ->]. now split.
  - intros l H. destruct (Hne _ _ _ H) as [Hn ->]. now split.
  - intros l H. destruct (Hne _ _ _ H) as [Hn ->]. now split.
  - intros q H. exact (Htr _ _ H).
  - intros q H. exact (Htr _ _ H).
  - intros l H. apply (Hne _ _ _ H).
Qed.

(** X5. In every snapshot of a completed run, each runner's [atb] (when
    present) is non-empty, has at most ten levels in strictly descending
    price order and only positive sizes; [atl] likewise in ascending
    order; [trd] is in ascending order with positive volumes; and [ltp]
    and [tv], when present, are not zero. *)
Theorem snapshots_are_sorted_and_bounded
    (strptime : string -> option datetime)
    (marketdata : list packet) (definition : market_definition) (sp : sport)
    (meta : metadata) (ladders : list ts_document) (raw : list raw_packet) :
  pipeline strptime marketdata definition sp = Ok (meta, ladders, raw) ->
  forall doc id fr,
    In doc ladders -> In (id, fr) (ts_runners doc) -> snapshot_ok fr.
Proof.
  intros H doc id fr Hdoc Hin.
  apply pipeline_inv in H.
  destruct H as (ids & start & e & mb0 & lb & mb & _ & _ & _ & _ & Hrun & _ & _ & -> & _).
  assert (Hempty : sides_ok empty_runner_ladder).
  { repeat split; simpl; try constructor; lia. }
  destruct (run_packets_every sides_ok sides_ok_changed
              (fun rl b l H => H) (fun rl H => H) strptime marketdata _ _ Hrun)
    as (_ & docs & Hl & Hdocs).
  { simpl. now apply create_ladder_ds_every. }
  simpl in Hl. subst docs. rewrite Forall_forall in Hdocs.
  destruct (Hdocs doc Hdoc) as (cl1 & Hfmt & Hcl1).
  rewrite Hfmt in Hin. apply format_ladder_In in Hin.
  destruct Hin as (rl & Hin & ->). apply format_runner_snapshot_ok.
  unfold book_every in Hcl1. rewrite Forall_forall in Hcl1.
  exact (Hcl1 _ Hin).
Qed.

Lemma snapshots_are_sorted_and_bounded_witness :
  exists meta ladders raw doc fr,
    pipeline strptime_iso example_marketdata
      (example_definition false example_roster) HorseRacing
      = Ok (meta, ladders, raw) /\
    nth_error ladders 2 = Some doc /\
    dget Z.eqb (ts_runners doc) 20%Z = Some fr /\
    f_atb fr = Some [(3, 10)] /\
    snapshot_ok fr.
Proof.
  do 5 eexists.
  split; [vm_compute; reflexivity|].
  split; [reflexivity|]. split; [reflexivity|]. split; [reflexivity|].
  eapply (snapshots_are_sorted_and_bounded strptime_iso example_marketdata
            (example_definition false example_roster) HorseRacing _ _ _).
  - vm_compute; reflexivity.
  - right. right. left. reflexivity.
  - right. left. reflexivity.
Defined.

(** ** The roster is fixed *)

Lemma dkeys_book_dset (cl : book) id rl :
  dget Z.eqb cl id <> None -> map fst (dset Z.eqb cl id rl) = map fst cl.
Proof. apply (dkeys_dset_present Z.eqb). Qed.

Lemma apply_runner_changes_keys (rc : list runner_change) :
  forall cl cl', apply_runner_changes cl rc = Ok cl' -> map fst cl' = map fst cl.
Proof.
  induction rc as [|chg rc IH]; intros cl cl' H; simpl in H.
  - now injection H as <-.
  - apply bind_ok in H. destruct H as (cl1 & H1 & H).
    destruct (dget Z.eqb cl (rc_id chg)) as [rl|] eqn:E.
    + rewrite (apply_runner_change_known cl chg rl E) in H1.
      injection H1 as <-. rewrite (IH _ _ H).
      apply dkeys_book_dset. congruence.
    + rewrite (apply_runner_change_unknown cl chg E) in H1. discriminate.
Qed.

Lemma raise_if_arbitrage_keys (fl : list (Z * formatted_runner)) :
  forall cl cl', raise_if_arbitrage cl fl = Ok cl' -> map fst cl' = map fst cl.
Proof.
  induction fl as [|[id fr] fl IH]; intros cl cl' H; simpl in H.
  - now injection H as <-.
  - unfold check_arbitrage in H.
    destruct (dget Z.eqb cl id) as [stored|] eqn:E; [|discriminate].
    simpl in H.
    assert (Hk : forall x, map fst (dset Z.eqb cl id x) = map fst cl)
      by (intros x; apply dkeys_book_dset; congruence).
    destruct (gt_ext _ _); rewrite (IH _ _ H); apply Hk.
Qed.

Lemma reset_runner_trades_keys cl : map fst (reset_runner_trades cl) = map fst cl.
Proof. unfold reset_runner_trades. now rewrite map_map. Qed.

Lemma dkeys_dset_In (cl : book) id rl x :
  In x (map fst (dset Z.eqb cl id rl)) <-> x = id \/ In x (map fst cl).
Proof.
  induction cl as [|[k v] cl IH]; simpl.
  - intuition.
  - destruct (Z.eqb k id) eqn:E; simpl.
    + apply Z.eqb_eq in E. subst k. intuition.
    + rewrite IH. intuition.
Qed.

Lemma dict_wf_NoDup (cl : book) : dict_wf Z.eqb cl -> NoDup (map fst cl).
Proof.
  induction 1 as [|[k v] cl Hnin _ IH]; simpl; constructor; [|exact IH].
  intros Hin. apply Hnin. apply in_map_iff in Hin.
  destruct Hin as ([k' v'] & Hk & Hin). simpl in Hk. subst k'.
  apply InA_alt. exists (k, v'). split; [|exact Hin].
  unfold eqk. simpl. apply Z.eqb_refl.
Qed.

Lemma create_ladder_ds_keys ids :
  NoDup (map fst (create_ladder_ds ids)) /\
  forall id, In id (map fst (create_ladder_ds ids)) <-> In id ids.
Proof.
  split; [apply dict_wf_NoDup; apply create_ladder_ds_ok|].
  unfold create_ladder_ds.
  assert (Hgen : forall l (cl : book) id,
    In id (map fst (fold_left (fun runners runner_id =>
      dset Z.eqb runners runner_id empty_runner_ladder) l cl)) <->
    In id l \/ In id (map fst cl)).
  { induction l as [|i l IH]; intros cl id; simpl; [intuition|].
    rewrite IH, dkeys_dset_In. intuition. }
  intros id. rewrite Hgen. simpl. intuition.
Qed.

Lemma process_packet_ok_inv p t m :
  process_packet p = Ok (t, m) -> p_pt p = Some t /\ p_mc p = Some [m].
Proof.
  unfold process_packet, to_datetime.
  destruct (p_pt p) as [pt|]; simpl; [|discriminate].
  destruct (p_mc p) as [[|m0 [|m' mc]]|]; simpl; try discriminate;
    destruct (timestamp_in_range pt); simpl; try discriminate.
  now intros [= <- <-].
Qed.

Section StreamFacts.
Variable strptime : string -> option datetime.

Lemma extend_pre_market_ids mb doc pt :
  mb_market_id (extend_pre_market mb doc pt) = mb_market_id mb /\
  m_marketId (mb_metadata (extend_pre_market mb doc pt)) = m_marketId (mb_metadata mb) /\
  m_inPlayEndTime (mb_metadata (extend_pre_market mb doc pt)) =
    m_inPlayEndTime (mb_metadata mb).
Proof.
  unfold extend_pre_market.
  destruct (mb_in_play_start mb) as [t|]; [|now repeat split].
  generalize (milliseconds_between t pt <? ONE_SECOND)%Z
    (milliseconds_between t pt <? FIVE_MINUTES)%Z
    (milliseconds_between t pt <? TEN_MINUTES)%Z.
  intros b0 b5 b10. destruct mb as [sp start e p10 p5 p0 m mid eid].
  destruct p0, p5, p10, b0, b5, b10; now repeat split.
Qed.

Lemma update_market_definition_present mc mdef :
  update_market_definition strptime mc = Ok mdef ->
  is_some mdef =
    match mc_marketDefinition mc with
    | Some d => md_truthy d
    | None => false
    end.
Proof.
  unfold update_market_definition.
  destruct (mc_marketDefinition mc) as [d|]; [|now intros [= <-]].
  destruct (md_truthy d); [|now intros [= <-]].
  intros H. apply bind_ok in H. destruct H as (r & _ & H). now injection H as <-.
Qed.

(** The snapshots and rewritten packets a run appends, packet by
    packet; the book keeps its runner ids and every snapshot lists
    them. *)
Lemma run_packets_stream (marketdata : list packet) :
  forall lb lb',
  run_packets strptime lb marketdata = Ok lb' ->
  let mid := mb_market_id (lb_metadata_builder lb) in
  mb_market_id (lb_metadata_builder lb') = mid /\
  m_marketId (mb_metadata (lb_metadata_builder lb')) =
    m_marketId (mb_metadata (lb_metadata_builder lb)) /\
  m_inPlayEndTime (mb_metadata (lb_metadata_builder lb')) =
    m_inPlayEndTime (mb_metadata (lb_metadata_builder lb)) /\
  map fst (lb_current_ladder lb') = map fst (lb_current_ladder lb) /\
  exists docs raws,
    lb_ladders lb' = lb_ladders lb ++ docs /\
    lb_marketdata lb' = lb_marketdata lb ++ raws /\
    Forall2 (snapshot_of mid) marketdata docs /\
    Forall2 (rewrite_of mid) marketdata raws /\
    Forall (fun doc => map fst (ts_runners doc) = map fst (lb_current_ladder lb)) docs.
Proof.
  induction marketdata as [|p rest IH]; intros lb lb' H; simpl in H.
  - injection H as <-. cbv zeta. repeat split.
    exists [], []. rewrite !app_nil_r. repeat split; constructor.
  - apply bind_ok in H. destruct H as (lb1 & H1 & H).
    apply run_packet_inv in H1.
    destruct H1 as (pt & mc & raw & rc & cl1 & mdef & cl2
                    & Hp & Hraw & Hrc & Happ & Hdef & Harb & Hlb).
    cbv zeta in Hlb.
    destruct (IH _ _ H) as (Hmid & Hm & He & Hk & docs & raws & Hl & Hr & Hd & Hw & Hroster).
    clear IH. subst lb1. simpl in *.
    destruct (extend_pre_market_ids (lb_metadata_builder lb)
      (create_ts_document (mb_market_id (lb_metadata_builder lb))
         (format_ladder cl1) mdef pt) pt) as (Ei & Em & Ee).
    rewrite Ei in *. rewrite Em in Hm. rewrite Ee in He.
    assert (Hkeys1 : map fst cl1 = map fst (lb_current_ladder lb))
      by exact (apply_runner_changes_keys rc _ _ Happ).
    assert (Hkeys2 : map fst (reset_runner_trades cl2) = map fst (lb_current_ladder lb)).
    { rewrite reset_runner_trades_keys, (raise_if_arbitrage_keys _ _ _ Harb).
      exact Hkeys1. }
    rewrite Hkeys2 in Hk, Hroster.
    split; [exact Hmid|]. split; [exact Hm|]. split; [exact He|].
    split; [exact Hk|].
    destruct (process_packet_ok_inv p pt mc Hp) as (Hpt & Hmc).
    eexists (_ :: docs), (raw :: raws).
    split; [rewrite Hl, <- app_assoc; reflexivity|].
    split; [rewrite Hr, <- app_assoc; reflexivity|].
    split; [|split].
    + constructor; [|exact Hd]. unfold snapshot_of, create_ts_document. simpl.
      split; [exact Hpt|]. split; [reflexivity|].
      exists mc. split; [exact Hmc|].
      exact (update_market_definition_present mc mdef Hdef).
    + constructor; [|exact Hw]. unfold rewrite_of.
      unfold set_raw_marketdata in Hraw.
      apply bind_ok in Hraw. destruct Hraw as (? & _ & Hraw).
      apply bind_ok in Hraw. destruct Hraw as (? & _ & Hraw).
      injection Hraw as <-. simpl. now repeat split.
    + constructor; [|exact Hroster]. simpl.
      now rewrite format_ladder_keys.
Qed.

End StreamFacts.

Lemma extend_post_market_keeps_end mb mb' :
  extend_post_market mb = Ok mb' ->
  m_inPlayEndTime (mb_metadata mb') = m_inPlayEndTime (mb_metadata mb).
Proof.
  unfold extend_post_market. intros H.
  apply bind_ok in H. destruct H as (name & _ & H).
  apply bind_ok in H. destruct H as (runners & _ & H).
  apply bind_ok in H. destruct H as (w & _ & H).
  apply bind_ok in H. destruct H as (f & _ & H).
  apply bind_ok in H. destruct H as (m1 & Hhook & H).
  injection H as <-. simpl.
  unfold sport_hook in Hhook.
  destruct (mb_sport mb).
  - now injection Hhook as <-.
  - now injection Hhook as <-.
  - apply bind_ok in Hhook. destruct Hhook as (mt & _ & Hhook).
    destruct (String.eqb mt "WIN"); now injection Hhook as <-.
Qed.

Lemma MetadataBuilder_init_ids strptime sp marketdata start e mb :
  MetadataBuilder_init strptime sp marketdata start e = Ok mb ->
  exists p mc more,
    last_item marketdata = Ok p /\ p_mc p = Some (mc :: more) /\
    mc_id mc = Some (mb_market_id mb) /\
    m_marketId (mb_metadata mb) = mb_market_id mb /\
    m_inPlayEndTime (mb_metadata mb) = Some e.
Proof.
  unfold MetadataBuilder_init. intros H.
  apply bind_ok in H. destruct H as (p & Hp & H).
  apply bind_ok in H. destruct H as (mcs & Hmc & H).
  apply bind_ok in H. destruct H as (mc0 & H0 & H).
  apply bind_ok in H. destruct H as ([[m id] eid] & Hf & H).
  injection H as <-. simpl.
  unfold subscript in Hmc. destruct (p_mc p) as [mcs'|] eqn:E; [|discriminate].
  injection Hmc as ->.
  destruct mcs as [|mc more]; [discriminate|]. injection H0 as ->.
  apply format_metadata_ok in Hf.
  destruct Hf as (d & d1 & d2 & d3 & (Hid & _) & ->).
  exists p, mc0, more. now repeat split.
Qed.

Lemma get_in_play_end_pt_last marketdata e :
  get_in_play_end_pt marketdata = Ok e ->
  exists p, last_item marketdata = Ok p /\ p_pt p = Some e.
Proof.
  unfold get_in_play_end_pt. intros H.
  apply bind_ok in H. destruct H as (p & Hp & H).
  apply bind_ok in H. destruct H as ([t mc] & Hpp & H).
  injection H as <-. exists p. split; [exact Hp|].
  exact (proj1 (process_packet_ok_inv p t mc Hpp)).
Qed.

(** X6. In a completed run the roster never changes: the runner ids of
    the book are those of the market definition the builder was given,
    each once, and every snapshot lists exactly these runner ids, in the
    same order. *)
Theorem snapshot_roster_is_fixed
    (strptime : string -> option datetime)
    (marketdata : list packet) (definition : market_definition) (sp : sport)
    (meta : metadata) (ladders : list ts_document) (raw : list raw_packet) :
  pipeline strptime marketdata definition sp = Ok (meta, ladders, raw) ->
  exists runners,
    md_runners definition = Some runners /\
    let roster := map fst (create_ladder_ds (map rd_id runners)) in
    NoDup roster /\
    (forall id, In id roster <-> In id (map rd_id runners)) /\
    Forall (fun doc => map fst (ts_runners doc) = roster) ladders.
Proof.
  intros H. apply pipeline_inv in H.
  destruct H as (ids & start & e & mb0 & lb & mb & Hids & _ & _ & _ & Hrun & _ & _ & -> & _).
  unfold get_runner_ids in Hids.
  apply bind_ok in Hids. destruct Hids as (runners & Hr & Hids).
  injection Hids as <-.
  unfold subscript in Hr. destruct (md_runners definition) as [rs|]; [|discriminate].
  injection Hr as ->. exists runners. split; [reflexivity|].
  destruct (create_ladder_ds_keys (map rd_id runners)) as [Hnd Hin].
  split; [exact Hnd|]. split; [exact Hin|].
  destruct (run_packets_stream strptime marketdata _ _ Hrun)
    as (_ & _ & _ & _ & docs & raws & Hl & _ & _ & _ & Hroster).
  simpl in Hl. subst docs. exact Hroster.
Qed.

Lemma snapshot_roster_is_fixed_witness :
  exists meta ladders raw,
    pipeline strptime_iso example_marketdata
      (example_definition false example_roster) HorseRacing
      = Ok (meta, ladders, raw) /\
    Forall (fun doc => map fst (ts_runners doc) = [10; 20]%Z) ladders /\
    exists runners,
      md_runners (example_definition false example_roster) = Some runners /\
      let roster := map fst (create_ladder_ds (map rd_id runners)) in
      NoDup roster /\
      (forall id, In id roster <-> In id (map rd_id runners)) /\
      Forall (fun doc => map fst (ts_runners doc) = roster) ladders.
Proof.
  do 3 eexists.
  split; [vm_compute; reflexivity|].
  split; [repeat constructor|].
  eapply (snapshot_roster_is_fixed strptime_iso example_marketdata
            (example_definition false example_roster) HorseRacing _ _ _).
  vm_compute; reflexivity.
Defined.

(** X7. A completed run makes one snapshot and one rewritten packet
    for every packet, in the order of the stream.  The snapshot has the
    packet's [pt] and carries a market definition exactly when the
    packet has a non-empty one; the rewritten packet has the packet's
    [pt] and its market changes.  All of them carry as [metadata] the
    market id of the last packet's market change, which is also the
    metadata record's [marketId], and [inPlayEndTime] is the [pt] of the
    last packet. *)
Theorem one_snapshot_per_packet
    (strptime : string -> option datetime)
    (marketdata : list packet) (definition : market_definition) (sp : sport)
    (meta : metadata) (ladders : list ts_document) (raw : list raw_packet) :
  pipeline strptime marketdata definition sp = Ok (meta, ladders, raw) ->
  Forall2 (snapshot_of (m_marketId meta)) marketdata ladders /\
  Forall2 (rewrite_of (m_marketId meta)) marketdata raw /\
  exists p mc more,
    last_item marketdata = Ok p /\ p_mc p = Some (mc :: more) /\
    mc_id mc = Some (m_marketId meta) /\
    p_pt p = m_inPlayEndTime meta.
Proof.
  intros H. apply pipeline_inv in H.
  destruct H as (ids & start & e & mb0 & lb & mb & _ & _ & He & Hmb & Hrun & Hpost
                 & -> & -> & ->).
  destruct (run_packets_stream strptime marketdata _ _ Hrun)
    as (_ & Hm & Hend & _ & docs & raws & Hl & Hr & Hd & Hw & _).
  simpl in *. subst docs raws.
  destruct (MetadataBuilder_init_ids _ _ _ _ _ _ Hmb)
    as (p & mc & more & Hp & Hmc & Hid & Hmid & Hme).
  destruct (extend_post_market_keeps _ _ Hpost) as (_ & _ & _ & _ & Hk & _).
  pose proof (extend_post_market_keeps_end _ _ Hpost) as Hke.
  cbv zeta in Hk. rewrite Hk, Hm, Hmid.
  split; [exact Hd|]. split; [exact Hw|].
  exists p, mc, more. repeat split; try assumption.
  rewrite Hke, Hend, Hme.
  destruct (get_in_play_end_pt_last _ _ He) as (p' & Hp' & Hpt).
  congruence.
Qed.

Lemma one_snapshot_per_packet_witness :
  exists meta ladders raw,
    pipeline strptime_iso example_marketdata
      (example_definition false example_roster) HorseRacing
      = Ok (meta, ladders, raw) /\
    m_inPlayEndTime meta = Some 1000000%Z /\
    Forall2 (snapshot_of (m_marketId meta)) example_marketdata ladders.
Proof.
  do 3 eexists.
  split; [vm_compute; reflexivity|]. split; [reflexivity|].
  refine (proj1
    (one_snapshot_per_packet strptime_iso example_marketdata
       (example_definition false example_roster) HorseRacing _ _ _ _)).
  vm_compute; reflexivity.
Defined.

(** ** The in-play start *)

Lemma md_truthy_false_inPlay d : md_truthy d = false -> md_inPlay d = None.
Proof.
  unfold md_truthy. destruct (md_inPlay d); [|reflexivity].
  rewrite !orb_false_iff. simpl. intros H. decompose [and] H. discriminate.
Qed.

Lemma get_in_play_start_pt_find
    (marketdata : list packet) (start : option timestamp) :
  get_in_play_start_pt marketdata = Ok start ->
  match find packet_in_play marketdata with
  | Some p => p_pt p = start /\ start <> None
  | None => start = None
  end.
Proof.
  induction marketdata as [|p rest IH]; simpl.
  - now intros [= <-].
  - intros H. apply bind_ok in H. destruct H as ([t mc] & Hp & H).
    destruct (process_packet_ok_inv p t mc Hp) as (Hpt & Hmc).
    unfold packet_in_play at 1. rewrite Hmc. simpl in H.
    destruct (mc_marketDefinition mc) as [d|]; [|now apply IH].
    destruct (md_truthy d) eqn:Et.
    + apply bind_ok in H. destruct H as (b & Hb & H).
      unfold subscript in Hb. destruct (md_inPlay d) as [b'|]; [|discriminate].
      injection Hb as ->. destruct b.
      * injection H as <-. split; [exact Hpt|discriminate].
      * now apply IH.
    + rewrite (md_truthy_false_inPlay d Et). now apply IH.
Qed.

(** X8. When [get_in_play_start_pt] returns, it returns the [pt] of the
    first packet of the stream whose market definition has [inPlay]
    true, and [None] when there is no such packet. *)
Theorem in_play_start_is_first_in_play_packet
    (marketdata : list packet) (start : option timestamp) :
  get_in_play_start_pt marketdata = Ok start ->
  match find packet_in_play marketdata with
  | Some p => p_pt p = start /\ start <> None
  | None => start = None
  end.
Proof. apply get_in_play_start_pt_find. Qed.

Lemma in_play_start_found (marketdata : list packet) t :
  get_in_play_start_pt marketdata = Ok (Some t) ->
  exists p, In p marketdata /\ p_pt p = Some t.
Proof.
  intros H. apply get_in_play_start_pt_find in H.
  destruct (find packet_in_play marketdata) as [p|] eqn:E; [|discriminate].
  apply find_some in E. exists p. split; [apply E|apply H].
Qed.

Lemma in_play_start_is_first_in_play_packet_witness :
  get_in_play_start_pt example_marketdata = Ok (Some 1000000%Z) /\
  find packet_in_play example_marketdata = nth_error example_marketdata 3 /\
  match find packet_in_play example_marketdata with
  | Some p => p_pt p = Some 1000000%Z /\ Some 1000000%Z <> None
  | None => Some 1000000%Z = None
  end.
Proof.
  split; [reflexivity|]. split; [reflexivity|].
  exact (in_play_start_is_first_in_play_packet example_marketdata
           (Some 1000000%Z) eq_refl).
Defined.

Lemma find_In_pt_docs mid (marketdata : list packet) (docs : list ts_document) p t :
  Forall2 (snapshot_of mid) marketdata docs ->
  In p marketdata -> p_pt p = Some t ->
  exists doc, In doc docs /\ ts_pt doc = t.
Proof.
  induction 1 as [|q doc ps ds Hq _ IH]; simpl; [easy|].
  intros [->|Hin] Hpt.
  - exists doc. split; [now left|].
    destruct Hq as (Hq & _). congruence.
  - destruct (IH Hin Hpt) as (doc' & Hd & Ht). exists doc'. auto.
Qed.

Lemma first_within_some t threshold docs doc :
  In doc docs -> within t threshold doc = true ->
  first_within t threshold docs <> None.
Proof.
  intros Hin Hw H. apply first_within_none in H. simpl in H.
  rewrite (H doc Hin) in Hw. discriminate.
Qed.

(** X9. In a completed run the three pre-in-play ladders are all
    present when the market went in-play and all absent when it did
    not: the snapshot of the packet that announces the in-play start is
    itself inside every window. *)
Theorem pre_ladders_present_iff_in_play
    (strptime : string -> option datetime)
    (marketdata : list packet) (definition : market_definition) (sp : sport)
    (meta : metadata) (ladders : list ts_document) (raw : list raw_packet) :
  pipeline strptime marketdata definition sp = Ok (meta, ladders, raw) ->
  (m_inPlayStartTime meta = None ->
     m_pre0ladder meta = None /\ m_pre5ladder meta = None /\
     m_pre10ladder meta = None) /\
  (m_inPlayStartTime meta <> None ->
     m_pre0ladder meta <> None /\ m_pre5ladder meta <> None /\
     m_pre10ladder meta <> None).
Proof.
  intros Hrun.
  destruct (pipeline_capture strptime _ _ _ _ _ _ Hrun)
    as (mb0 & Hfresh & Hstart & H0 & H5 & H10).
  pose proof (fresh_capture mb0 ladders Hfresh) as Hcap. cbv zeta in Hcap.
  rewrite Hstart, <- H0, <- H5, <- H10 in Hcap.
  split.
  - intros Hs. now rewrite Hs in Hcap.
  - intros Hs. destruct (m_inPlayStartTime meta) as [t|] eqn:Et; [|congruence].
    clear Hs. destruct Hcap as (C0 & C5 & C10).
    assert (Hdoc : exists doc, In doc ladders /\ ts_pt doc = t).
    { pose proof Hrun as Hrun'. apply pipeline_inv in Hrun'.
      destruct Hrun' as (ids & start & e & mb0' & lb & mb & _ & Hs & _ & Hmb & Hpk
                         & Hpost & -> & -> & _).
      destruct (run_packets_stream strptime marketdata _ _ Hpk)
        as (_ & _ & _ & _ & docs0 & raws0 & Hl0 & _ & Hd & _).
      simpl in Hl0. subst docs0.
      destruct (extend_post_market_keeps _ _ Hpost) as (Hk & _).
      cbv zeta in Hk. rewrite Hk in Et.
      destruct (run_packets_capture strptime _ _ _ Hpk) as (docs & _ & Hm).
      simpl in Hm. rewrite Hm in Et.
      destruct (capture_all_fields docs mb0') as (_ & Hs' & _).
      rewrite Hs' in Et.
      destruct (MetadataBuilder_init_fresh strptime _ _ _ _ _ Hmb) as (Hfr & Hst).
      destruct Hfr as (_ & _ & _ & _ & Hfr). rewrite Hfr, Hst in Et. subst start.
      destruct (in_play_start_found marketdata t Hs) as (p & Hin & Hpt).
      exact (find_In_pt_docs _ _ _ p t Hd Hin Hpt). }
    destruct Hdoc as (doc & Hin & Hpt).
    assert (Hw : forall threshold, (0 < threshold)%Z -> within t threshold doc = true).
    { intros th Hth. unfold within. rewrite Hpt. apply Z.ltb_lt. lia. }
    rewrite C0, C5, C10.
    repeat split; apply first_within_some with doc; try exact Hin; apply Hw; lia.
Qed.

Lemma pre_ladders_present_iff_in_play_witness :
  exists meta ladders raw,
    pipeline strptime_iso example_marketdata
      (example_definition false example_roster) HorseRacing
      = Ok (meta, ladders, raw) /\
    m_inPlayStartTime meta <> None /\
    (m_inPlayStartTime meta <> None ->
       m_pre0ladder meta <> None /\ m_pre5ladder meta <> None /\
       m_pre10ladder meta <> None).
Proof.
  do 3 eexists.
  split; [vm_compute; reflexivity|]. split; [discriminate|].
  refine (proj2
    (pre_ladders_present_iff_in_play strptime_iso example_marketdata
       (example_definition false example_roster) HorseRacing _ _ _ _)).
  vm_compute; reflexivity.
Defined.

(** ** A packet changes only the runners it names *)

Lemma apply_runner_changes_frame (rc : list runner_change) :
  forall cl cl' id,
  apply_runner_changes cl rc = Ok cl' -> unnamed id rc ->
  dget Z.eqb cl' id = dget Z.eqb cl id.
Proof.
  induction rc as [|chg rc IH]; intros cl cl' id H Hun; simpl in H.
  - now injection H as <-.
  - inversion Hun as [|? ? Hne Hrest]; subst.
    apply bind_ok in H. destruct H as (cl1 & H1 & H).
    destruct (dget Z.eqb cl (rc_id chg)) as [rl|] eqn:E.
    + rewrite (apply_runner_change_known cl chg rl E) in H1.
      injection H1 as <-. rewrite (IH _ _ id H Hrest), book_dget_dset.
      destruct (Z.eqb (rc_id chg) id) eqn:E'; [|reflexivity].
      apply Z.eqb_eq in E'. contradiction.
    + rewrite (apply_runner_change_unknown cl chg E) in H1. discriminate.
Qed.

Lemma rebest_fixed rl :
  runner_sorted rl -> bbp_ok rl -> blp_ok rl -> rebest rl = rl.
Proof.
  intros (Hb & Hl & _) Hbb Hbl. unfold bbp_ok, blp_ok in *.
  assert (Eb : best_back (atb rl) = bbp rl).
  { destruct (atb rl) as [|x l] eqn:E; simpl; [now rewrite Hbb|].
    destruct Hbb as ((v & Hin) & Hmax).
    destruct Hin as [->|Hin]; [reflexivity|].
    inversion Hb as [|? ? _ Hall]; subst.
    rewrite Forall_forall in Hall. specialize (Hall _ Hin).
    unfold key_gt in Hall. simpl in Hall.
    pose proof (Hmax (fst x) (snd x)) as Hx.
    assert (In (fst x, snd x) (x :: l)) by (left; now destruct x).
    specialize (Hx H). lra. }
  assert (El : best_lay (atl rl) = blp rl).
  { destruct (atl rl) as [|x l] eqn:E; simpl; [now rewrite Hbl|].
    destruct Hbl as (m & -> & (v & Hin) & Hmin).
    destruct Hin as [->|Hin]; [reflexivity|].
    inversion Hl as [|? ? _ Hall]; subst.
    rewrite Forall_forall in Hall. specialize (Hall _ Hin).
    unfold key_lt in Hall. simpl in Hall.
    pose proof (Hmin (fst x) (snd x)) as Hx.
    assert (In (fst x, snd x) (x :: l)) by (left; now destruct x).
    specialize (Hx H). lra. }
  unfold rebest. rewrite Eb, El. now destruct rl.
Qed.

Lemma create_ladder_ds_quiet ids : quiet (create_ladder_ds ids).
Proof.
  unfold create_ladder_ds, quiet.
  assert (Hgen : forall l cl,
    book_all (fun rl => trades rl = []) cl ->
    book_all (fun rl => trades rl = [])
      (fold_left (fun runners runner_id =>
         dset Z.eqb runners runner_id empty_runner_ladder) l cl)).
  { induction l as [|i l IH]; intros cl H; simpl; [exact H|].
    apply IH. intros id rl. rewrite book_dget_dset.
    destruct (Z.eqb i id); [now intros [= <-]|apply H]. }
  apply Hgen. intros id rl. discriminate.
Qed.

Lemma reset_runner_trades_quiet cl : quiet (reset_runner_trades cl).
Proof.
  intros id rl. unfold reset_runner_trades.
  rewrite (dget_map_values Z.eqb (fun v => set_trades v [])).
  destruct (dget Z.eqb cl id); simpl; [|discriminate]. now intros [= <-].
Qed.

Section FrameFacts.
Variable strptime : string -> option datetime.

Lemma run_packets_quiet (marketdata : list packet) :
  forall lb lb',
  run_packets strptime lb marketdata = Ok lb' ->
  quiet (lb_current_ladder lb) -> quiet (lb_current_ladder lb').
Proof.
  induction marketdata as [|p rest IH]; intros lb lb' H Hq; simpl in H.
  - now injection H as <-.
  - apply bind_ok in H. destruct H as (lb1 & H1 & H).
    apply (IH _ _ H). apply run_packet_inv in H1.
    destruct H1 as (pt & mc & raw & rc & cl1 & mdef & cl2 & _ & _ & _ & _ & _ & _ & Hlb).
    cbv zeta in Hlb. subst lb1. simpl. apply reset_runner_trades_quiet.
Qed.

Lemma run_packet_frame lb p lb' mc rc id :
  book_ok (lb_current_ladder lb) -> quiet (lb_current_ladder lb) ->
  run_packet strptime lb p = Ok lb' ->
  p_mc p = Some [mc] -> mc_rc mc = Some rc -> unnamed id rc ->
  dget Z.eqb (lb_current_ladder lb') id = dget Z.eqb (lb_current_ladder lb) id /\
  exists doc,
    lb_ladders lb' = lb_ladders lb ++ [doc] /\
    dget Z.eqb (ts_runners doc) id =
      option_map format_runner (dget Z.eqb (lb_current_ladder lb) id) /\
    forall fr, dget Z.eqb (ts_runners doc) id = Some fr -> f_trades fr = None.
Proof.
  intros Hok Hq H Hmc Hrc Hun. apply run_packet_inv in H.
  destruct H as (pt & mc' & raw & rc' & cl1 & mdef & cl2
                 & Hp & _ & Hrc' & Happ & _ & Harb & Hlb).
  cbv zeta in Hlb. subst lb'. simpl.
  destruct (process_packet_ok_inv p pt mc' Hp) as (_ & Hmc').
  assert (mc' = mc) by congruence. subst mc'.
  assert (rc' = rc) by congruence. subst rc'.
  pose proof (apply_runner_changes_frame rc _ _ id Happ Hun) as Hframe.
  destruct Hok as [Hwf Hall].
  destruct (apply_runner_changes_inv rc _ _ Happ Hwf) as (Hwf1 & _ & _).
  { intros i r Hg. exact (proj1 (Hall _ _ Hg)). }
  destruct (raise_if_arbitrage_rebest cl1 Hwf1) as (cl2' & Hrun & Hcl2).
  assert (cl2' = cl2) by congruence. subst cl2'.
  split.
  - unfold reset_runner_trades.
    rewrite (dget_map_values Z.eqb (fun v => set_trades v [])), Hcl2, Hframe.
    destruct (dget Z.eqb (lb_current_ladder lb) id) as [rl|] eqn:E; [|reflexivity].
    simpl. destruct (Hall _ _ E) as (Hs & Hb & Hl).
    rewrite (rebest_fixed rl Hs Hb Hl).
    pose proof (Hq _ _ E) as Ht. simpl in Ht.
    destruct rl. simpl in *. now subst.
  - eexists. split; [reflexivity|]. unfold create_ts_document. simpl.
    unfold format_ladder at 1 2.
    rewrite !(dget_map_values Z.eqb format_runner), Hframe.
    split; [reflexivity|].
    destruct (dget Z.eqb (lb_current_ladder lb) id) as [rl|] eqn:E; [|discriminate].
    simpl. intros fr [= <-]. simpl. now rewrite (Hq _ _ E).
Qed.

End FrameFacts.

(** X10. After any number of processed packets, a packet changes only
    the runners its [rc] list names: the whole ladder of every other
    runner (sides, scalars, [ttrdv], best prices, and the empty list of
    trades) is the same before and after the packet, and the packet's
    snapshot shows that runner as it was, without trades. *)
Theorem unnamed_runner_is_untouched
    (strptime : string -> option datetime)
    (marketdata processed : list packet) (definition : market_definition)
    (sp : sport) (lb0 lb lb' : ladder_builder)
    (p : packet) (mc : market_change) (rc : list runner_change) (id : Z) :
  LadderBuilder_init strptime marketdata definition sp = Ok lb0 ->
  run_packets strptime lb0 processed = Ok lb ->
  run_packet strptime lb p = Ok lb' ->
  p_mc p = Some [mc] -> mc_rc mc = Some rc -> unnamed id rc ->
  dget Z.eqb (lb_current_ladder lb') id = dget Z.eqb (lb_current_ladder lb) id /\
  exists doc,
    lb_ladders lb' = lb_ladders lb ++ [doc] /\
    dget Z.eqb (ts_runners doc) id =
      option_map format_runner (dget Z.eqb (lb_current_ladder lb) id) /\
    forall fr, dget Z.eqb (ts_runners doc) id = Some fr -> f_trades fr = None.
Proof.
  intros Hinit Hrun Hp Hmc Hrc Hun.
  destruct (LadderBuilder_init_book strptime _ _ _ _ Hinit) as (ids & _ & Hcl & _).
  apply (run_packet_frame strptime lb p lb' mc rc id); try assumption.
  - apply (run_packets_book_ok strptime processed lb0 lb); [|exact Hrun].
    rewrite Hcl. apply create_ladder_ds_ok.
  - apply (run_packets_quiet strptime processed lb0 lb Hrun).
    rewrite Hcl. apply create_ladder_ds_quiet.
Qed.

Lemma unnamed_runner_is_untouched_witness :
  exists lb0 lb lb' rl,
    LadderBuilder_init strptime_iso example_marketdata
      (example_definition false example_roster) HorseRacing = Ok lb0 /\
    run_packets strptime_iso lb0 (firstn 2 example_marketdata) = Ok lb /\
    run_packet strptime_iso lb
      (example_packet 999500
         [mkRunnerChange 20 (Some [(3, 10)]) (Some [(2, 10)]) None None None]
         None) = Ok lb' /\
    dget Z.eqb (lb_current_ladder lb) 10%Z = Some rl /\
    ttrdv rl = 1000 # 100 /\
    dget Z.eqb (lb_current_ladder lb') 10%Z = dget Z.eqb (lb_current_ladder lb) 10%Z.
Proof.
  do 4 eexists.
  split; [vm_compute; reflexivity|].
  split; [vm_compute; reflexivity|].
  split; [vm_compute; reflexivity|].
  split; [vm_compute; reflexivity|].
  split; [reflexivity|].
  refine (proj1
    (unnamed_runner_is_untouched strptime_iso example_marketdata
       (firstn 2 example_marketdata) (example_definition false example_roster)
       HorseRacing _ _ _
       (example_packet 999500
          [mkRunnerChange 20 (Some [(3, 10)]) (Some [(2, 10)]) None None None]
          None)
       _ _ 10%Z _ _ _ eq_refl eq_refl _)).
  - vm_compute; reflexivity.
  - vm_compute; reflexivity.
  - vm_compute; reflexivity.
  - repeat constructor. discriminate.
Defined.

(** ** When one iteration of [run] succeeds *)

Lemma apply_runner_changes_ok_known (rc : list runner_change) :
  forall cl cl',
  apply_runner_changes cl rc = Ok cl' -> Forall (known_runner cl) rc.
Proof.
  induction rc as [|chg rc IH]; intros cl cl' H; simpl in H; [constructor|].
  apply bind_ok in H. destruct H as (cl1 & H1 & H).
  destruct (dget Z.eqb cl (rc_id chg)) as [rl|] eqn:E.
  - rewrite (apply_runner_change_known cl chg rl E) in H1. injection H1 as <-.
    constructor; [unfold known_runner; congruence|].
    eapply Forall_impl; [|exact (IH _ _ H)].
    intros c Hc. unfold known_runner in *. rewrite book_dget_dset in Hc.
    destruct (Z.eqb (rc_id chg) (rc_id c)) eqn:E'; [|exact Hc].
    apply Z.eqb_eq in E'. congruence.
  - rewrite (apply_runner_change_unknown cl chg E) in H1. discriminate.
Qed.

Section IterationFacts.
Variable strptime : string -> option datetime.

Lemma update_market_definition_ok mc :
  (exists mdef, update_market_definition strptime mc = Ok mdef) <->
  definition_ok strptime mc.
Proof.
  unfold update_market_definition, definition_ok.
  destruct (mc_marketDefinition mc) as [d|] eqn:Ed; [|split; eauto].
  destruct (md_truthy d) eqn:Et.
  - split.
    + intros (mdef & H). apply bind_ok in H.
      destruct H as ([[m id] eid] & Hf & _).
      apply format_metadata_ok in Hf.
      destruct Hf as (d' & d1 & d2 & d3 & Hb & _).
      right. exists id, eid, d1, d2, d3.
      assert (d' = d) by (destruct Hb as (_ & Hd & _); congruence).
      now subst d'.
    + intros [Hf|(id & eid & d1 & d2 & d3 & Hb)]; [discriminate|].
      assert (Hf : format_metadata strptime mc =
                   Ok (base_record mc id eid d d1 d2 d3, id, eid)).
      { apply format_metadata_ok. now exists d, d1, d2, d3. }
      rewrite Hf. simpl. eexists. reflexivity.
  - split; [now left|]. intros _. eexists. reflexivity.
Qed.

End IterationFacts.

(** X11. One iteration of the loop of [run] completes only if the
    packet has a [pt] within the range of a [pd.Timestamp], an [mc] of
    exactly one market change, a [clk] and an [op]; the market change
    has an [rc] all of whose runner ids are in the book; and its market
    definition is absent, the empty object, or has the market id, the
    event id and three dates in the expected format.  The iteration then
    adds exactly one snapshot, with the packet's [pt], and one rewritten
    packet. *)
Theorem run_packet_succeeds_only_if
    (strptime : string -> option datetime) (lb lb' : ladder_builder)
    (p : packet) :
  run_packet strptime lb p = Ok lb' ->
  exists pt mc rc,
    p_pt p = Some pt /\ timestamp_in_range pt = true /\
    p_mc p = Some [mc] /\
    p_clk p <> None /\ p_op p <> None /\
    mc_rc mc = Some rc /\
    Forall (known_runner (lb_current_ladder lb)) rc /\
    definition_ok strptime mc /\
    exists doc raw,
      lb_ladders lb' = lb_ladders lb ++ [doc] /\ ts_pt doc = pt /\
      lb_marketdata lb' = lb_marketdata lb ++ [raw] /\ raw_pt raw = pt.
Proof.
  intros H. apply run_packet_inv in H.
  destruct H as (pt & mc & raw & rc & cl1 & mdef & cl2
                 & Hp & Hraw & Hrc & Happ & Hdef & _ & Hlb).
  cbv zeta in Hlb. subst lb'.
  destruct (process_packet_ok_inv p pt mc Hp) as (Hpt & Hmc).
  exists pt, mc, rc. split; [exact Hpt|].
  split.
  { unfold process_packet, to_datetime in Hp. rewrite Hpt, Hmc in Hp.
    simpl in Hp. now destruct (timestamp_in_range pt). }
  split; [exact Hmc|].
  unfold set_raw_marketdata in Hraw.
  destruct (p_clk p); [|discriminate]. destruct (p_op p); [|discriminate].
  simpl in Hraw. injection Hraw as <-.
  split; [discriminate|]. split; [discriminate|]. split; [exact Hrc|].
  split; [exact (apply_runner_changes_ok_known rc _ _ Happ)|].
  split; [apply update_market_definition_ok; now exists mdef|].
  do 2 eexists. simpl. repeat split; reflexivity.
Qed.

Lemma run_packet_succeeds_only_if_witness :
  exists lb0 lb',
    LadderBuilder_init strptime_iso example_marketdata
      (example_definition false example_roster) HorseRacing = Ok lb0 /\
    exists pt mc rc,
      p_pt (example_packet 500001
              [mkRunnerChange 10 (Some [(5 # 2, 100)]) (Some [(3, 50)])
                 None None None]
              (Some (example_definition false example_roster))) = Some pt /\
      timestamp_in_range pt = true /\
      p_mc (example_packet 500001
              [mkRunnerChange 10 (Some [(5 # 2, 100)]) (Some [(3, 50)])
                 None None None]
              (Some (example_definition false example_roster))) = Some [mc] /\
      Some "clk"%string <> None /\ Some "mcm"%string <> None /\
      mc_rc mc = Some rc /\
      Forall (known_runner (lb_current_ladder lb0)) rc /\
      definition_ok strptime_iso mc /\
      exists doc raw,
        lb_ladders lb' = lb_ladders lb0 ++ [doc] /\ ts_pt doc = pt /\
        lb_marketdata lb' = lb_marketdata lb0 ++ [raw] /\ raw_pt raw = pt.
Proof.
  do 2 eexists. split.
  - vm_compute; reflexivity.
  - apply (run_packet_succeeds_only_if strptime_iso).
    vm_compute; reflexivity.
Defined.

(** * Winner and favourites on aligned lists *)

Lemma collect_bsps_all (runners : list runner_def) :
  Forall (fun r => truthy (rd_bsp r) = true) runners ->
  map Some (collect_bsps runners) = map rd_bsp runners.
Proof.
  induction 1 as [|r runners Hr _ IH]; simpl; [reflexivity|].
  rewrite Hr. destruct (rd_bsp r) as [b|]; [|discriminate].
  simpl. now rewrite IH.
Qed.

Lemma index_of_find (runners : list runner_def) :
  match index_of "WINNER" (map rd_status runners) with
  | Some i =>
      exists r, nth_error runners i = Some r /\ find is_winner runners = Some r
  | None => find is_winner runners = None
  end.
Proof.
  induction runners as [|r runners IH]; simpl; [reflexivity|].
  unfold is_winner at 1 3.
  destruct (String.eqb (rd_status r) "WINNER"); [now exists r|].
  destruct (index_of "WINNER" (map rd_status runners)) as [i|]; exact IH.
Qed.

Lemma item_map {A B : Type} (f : A -> B) (l : list A) i a :
  nth_error l i = Some a -> item (map f l) i = Ok (f a).
Proof.
  intros H. unfold item. now rewrite nth_error_map, H.
Qed.

(** X12. When every runner of the final roster has a non-zero [bsp],
    the winner entry is the first runner whose status is [WINNER], with
    that runner's own name, id and [bsp]; without such a runner there is
    no winner entry.  No lookup raises. *)
Theorem winner_is_first_winner_runner (runners : list runner_def) :
  Forall (fun r => truthy (rd_bsp r) = true) runners ->
  extract_winner_info (map rd_name runners) (map rd_id runners)
    (map rd_status runners) (collect_bsps runners)
  = Ok (option_map winner_of (find is_winner runners)).
Proof.
  intros Hall. unfold extract_winner_info.
  pose proof (index_of_find runners) as Hidx.
  destruct (index_of "WINNER" (map rd_status runners)) as [i|];
    [|now rewrite Hidx].
  destruct Hidx as (r & Hnth & ->). simpl.
  rewrite (item_map rd_name runners i r Hnth). simpl.
  rewrite (item_map rd_id runners i r Hnth). simpl.
  pose proof (collect_bsps_all runners Hall) as Hb.
  assert (Hi : option_map Some (nth_error (collect_bsps runners) i) =
               Some (rd_bsp r)).
  { rewrite <- nth_error_map, Hb, nth_error_map, Hnth. reflexivity. }
  unfold item.
  destruct (collect_bsps runners) as [|b0 bs] eqn:E.
  - destruct i; discriminate.
  - destruct (nth_error (b0 :: bs) i) as [b|]; [|discriminate].
    simpl in Hi. injection Hi as Hi. unfold winner_of. now rewrite <- Hi.
Qed.

Lemma winner_is_first_winner_runner_witness :
  extract_winner_info (map rd_name example_result) (map rd_id example_result)
    (map rd_status example_result) (collect_bsps example_result)
  = Ok (option_map winner_of (find is_winner example_result)).
Proof.
  apply (winner_is_first_winner_runner example_result).
  repeat constructor.
Defined.

Lemma enumerate_from_snd {A : Type} (l : list A) :
  forall k, map snd (enumerate_from k l) = l.
Proof.
  induction l as [|x l IH]; intros k; simpl; [reflexivity|]. now rewrite IH.
Qed.

Lemma enumerate_from_In {A : Type} (l : list A) :
  forall k i x, In (i, x) (enumerate_from k l) ->
  (k <= i)%nat /\ nth_error l (i - k) = Some x.
Proof.
  induction l as [|y l IH]; intros k i x; simpl; [easy|].
  intros [[= <- <-]|Hin].
  - split; [lia|]. now rewrite Nat.sub_diag.
  - destruct (IH _ _ _ Hin) as [Hle Hnth]. split; [lia|].
    replace (i - k)%nat with (S (i - S k)) by lia. exact Hnth.
Qed.

Lemma enumerate_In {A : Type} (l : list A) i x :
  In (i, x) (enumerate l) -> nth_error l i = Some x.
Proof.
  intros H. apply enumerate_from_In in H. destruct H as [_ H].
  now rewrite Nat.sub_0_r in H.
Qed.

Lemma map_snd_filter {A B : Type} (p : B -> bool) (l : list (A * B)) :
  map snd (filter (fun ab => p (snd ab)) l) = filter p (map snd l).
Proof.
  induction l as [|[a b] l IH]; simpl; [reflexivity|].
  destruct (p b); simpl; now rewrite IH.
Qed.

Lemma StronglySorted_map {A B : Type} (f : A -> B) (R : B -> B -> Prop) l :
  StronglySorted R (map f l) -> StronglySorted (fun a b => R (f a) (f b)) l.
Proof.
  induction l as [|x l IH]; simpl; intros H; [constructor|].
  inversion H as [|? ? Hs Hall]; subst.
  constructor; [now apply IH|]. now rewrite Forall_map in Hall.
Qed.

Lemma StronglySorted_map_inv {A B : Type} (f : A -> B) (R : B -> B -> Prop) l :
  StronglySorted (fun a b => R (f a) (f b)) l -> StronglySorted R (map f l).
Proof.
  induction 1 as [|x l _ IH Hall]; simpl; constructor;
    [exact IH|now rewrite Forall_map].
Qed.

Lemma StronglySorted_weaken {A : Type} (R S : A -> A -> Prop) l :
  (forall a b, R a b -> S a b) -> StronglySorted R l -> StronglySorted S l.
Proof.
  intros HRS. induction 1 as [|x l _ IH Hall]; constructor; [exact IH|].
  eapply Forall_impl; [|exact Hall]. intros b. apply HRS.
Qed.

Lemma bsp_tuples_sorted (l : list (nat * Q)) :
  StronglySorted (fun a b => snd a <= snd b)
    (py_sorted (fun a b => Qlt_bool (snd a) (snd b)) l).
Proof.
  eapply StronglySorted_weaken;
    [|apply (py_sorted_sorted (fun a b : nat * Q => Qlt_bool (snd a) (snd b)))].
  - intros a b H. unfold leb in H. apply negb_true_iff in H. q_reflect. lra.
  - intros a b H. q_reflect. lra.
  - intros a b c H1 H2. unfold leb in *.
    apply negb_true_iff in H1, H2. apply negb_true_iff. q_reflect. lra.
Qed.

Lemma favourites_of_ok (runner_names : list string) (runner_ids : list Z)
    (bsp : list Q) (bsp_tuples : list (nat * Q)) :
  (length bsp <= length runner_names)%nat ->
  (length bsp <= length runner_ids)%nat ->
  (forall i b, In (i, b) bsp_tuples -> nth_error bsp i = Some b) ->
  exists favs,
    favourites_of runner_names runner_ids bsp_tuples = Ok favs /\
    map fav_bsp favs = map snd bsp_tuples /\
    forall f, In f favs ->
      exists i, favourite_at runner_names runner_ids bsp f i.
Proof.
  intros Hn Hi. induction bsp_tuples as [|[i b] rest IH]; intros Hin; simpl.
  - exists []. now repeat split.
  - destruct IH as (favs & Hf & Hmap & Hat).
    { intros j c H. apply Hin. now right. }
    assert (Hb : nth_error bsp i = Some b) by (apply Hin; now left).
    assert (Hlt : (i < length bsp)%nat).
    { apply nth_error_Some. congruence. }
    unfold item.
    destruct (nth_error runner_names i) as [name|] eqn:En;
      [|apply nth_error_None in En; lia].
    destruct (nth_error runner_ids i) as [id|] eqn:Ei;
      [|apply nth_error_None in Ei; lia].
    simpl. rewrite Hf. simpl. eexists. split; [reflexivity|]. split.
    + simpl. now rewrite Hmap.
    + intros f [<-|Hf']; [|now apply Hat].
      exists i. now repeat split.
Qed.

(** X13. When the list of starting prices is not empty and not longer
    than the lists of names and ids, [extract_favourite_info] returns a
    list and raises nothing; the list is in ascending order of [bsp], its
    prices are the non-zero starting prices it was given, each once, and
    every entry has the name, the id and the price found at one and the
    same position of the three lists. *)
Theorem favourites_ascending_and_positionwise
    (runner_names : list string) (runner_ids : list Z) (bsp : list Q) :
  bsp <> [] ->
  (length bsp <= length runner_names)%nat ->
  (length bsp <= length runner_ids)%nat ->
  exists favs,
    extract_favourite_info runner_names runner_ids bsp = Ok (Some favs) /\
    StronglySorted (fun a b => fav_bsp a <= fav_bsp b) favs /\
    Permutation (map fav_bsp favs)
      (filter (fun b => negb (Qeq_bool b 0)) bsp) /\
    forall f, In f favs ->
      exists i, favourite_at runner_names runner_ids bsp f i.
Proof.
  intros Hne Hn Hi. unfold extract_favourite_info.
  destruct bsp as [|b0 bs] eqn:Eb; [congruence|]. rewrite <- Eb in *.
  set (tuples := py_sorted (fun a b => Qlt_bool (snd a) (snd b))
                   (filter (fun ib => negb (Qeq_bool (snd ib) 0)) (enumerate bsp))).
  assert (Hperm : Permutation tuples
            (filter (fun ib => negb (Qeq_bool (snd ib) 0)) (enumerate bsp)))
    by apply py_sorted_perm.
  destruct (favourites_of_ok runner_names runner_ids bsp tuples Hn Hi)
    as (favs & Hf & Hmap & Hat).
  { intros i b Hin. apply enumerate_In.
    apply (Permutation_in _ Hperm) in Hin. now apply filter_In in Hin. }
  rewrite Hf. simpl. exists favs. split; [reflexivity|]. split; [|split].
  - apply StronglySorted_map. rewrite Hmap.
    apply StronglySorted_map_inv. apply bsp_tuples_sorted.
  - rewrite Hmap, (Permutation_map snd Hperm).
    rewrite (map_snd_filter (fun b => negb (Qeq_bool b 0))).
    unfold enumerate. now rewrite enumerate_from_snd.
  - exact Hat.
Qed.

Lemma favourites_ascending_and_positionwise_witness :
  exists favs,
    extract_favourite_info ["Arkle"; "Desert Orchid"; "Red Rum"]%string
      [10; 20; 30]%Z [5; 3] = Ok (Some favs) /\
    StronglySorted (fun a b => fav_bsp a <= fav_bsp b) favs /\
    Permutation (map fav_bsp favs)
      (filter (fun b => negb (Qeq_bool b 0)) [5; 3]) /\
    forall f, In f favs ->
      exists i, favourite_at ["Arkle"; "Desert Orchid"; "Red Rum"]%string
                  [10; 20; 30]%Z [5; 3] f i.
Proof.
  apply (favourites_ascending_and_positionwise
           ["Arkle"; "Desert Orchid"; "Red Rum"]%string [10; 20; 30]%Z [5; 3]).
  - discriminate.
  - simpl; lia.
  - simpl; lia.
Defined.

(** * The post-market fields *)

Lemma extend_pre_market_post mb doc pt :
  post_view (extend_pre_market mb doc pt) = post_view mb.
Proof.
  unfold extend_pre_market.
  destruct (mb_in_play_start mb) as [t|]; [|reflexivity].
  generalize (milliseconds_between t pt <? ONE_SECOND)%Z
    (milliseconds_between t pt <? FIVE_MINUTES)%Z
    (milliseconds_between t pt <? TEN_MINUTES)%Z.
  intros b0 b5 b10. destruct mb as [sp start e p10 p5 p0 m mid eid].
  destruct p0, p5, p10, b0, b5, b10; reflexivity.
Qed.

Lemma collect_bsps_nonzero (runners : list runner_def) :
  Forall (fun b => negb (Qeq_bool b 0) = true) (collect_bsps runners).
Proof.
  induction runners as [|r runners IH]; simpl; [constructor|].
  destruct (rd_bsp r) as [b|] eqn:E; simpl; [|exact IH].
  destruct (negb (Qeq_bool b 0)) eqn:Eb; [|exact IH].
  now constructor.
Qed.

Lemma enumerate_from_length {A : Type} (l : list A) :
  forall k, length (enumerate_from k l) = length l.
Proof.
  induction l as [|x l IH]; intros k; simpl; [reflexivity|]. now rewrite IH.
Qed.

Lemma favourites_of_length runner_names runner_ids (bsp_tuples : list (nat * Q)) :
  forall favs,
  favourites_of runner_names runner_ids bsp_tuples = Ok favs ->
  length favs = length bsp_tuples.
Proof.
  induction bsp_tuples as [|[i b] rest IH]; intros favs H; simpl in H.
  - now injection H as <-.
  - apply bind_ok in H. destruct H as (name & _ & H).
    apply bind_ok in H. destruct H as (id & _ & H).
    apply bind_ok in H. destruct H as (favs' & Hf & H).
    injection H as <-. simpl. now rewrite (IH _ Hf).
Qed.

(** The favourites made of the collected starting prices are never an
    empty list: the assignment guarded by [if favourite_info] keeps
    whatever [extract_favourite_info] returned. *)
Lemma favourites_of_collected runner_names runner_ids runners f :
  extract_favourite_info runner_names runner_ids (collect_bsps runners) = Ok f ->
  match f with Some (_ :: _) => f | _ => None end = f.
Proof.
  unfold extract_favourite_info.
  pose proof (collect_bsps_nonzero runners) as Hnz.
  destruct (collect_bsps runners) as [|b bs] eqn:E; [now intros [= <-]|].
  intros H. apply bind_ok in H. destruct H as (favs & Hf & H).
  injection H as <-. apply favourites_of_length in Hf.
  rewrite (Permutation_length (py_sorted_perm _ _)) in Hf.
  rewrite filter_all in Hf.
  - unfold enumerate in Hf. rewrite enumerate_from_length in Hf.
    destruct favs; [discriminate|reflexivity].
  - apply Forall_forall. intros [i c] Hin. simpl.
    apply enumerate_In in Hin. apply nth_error_In in Hin.
    rewrite Forall_forall in Hnz. now apply Hnz.
Qed.

Section PostFacts.
Variable strptime : string -> option datetime.

Lemma run_packets_post (marketdata : list packet) :
  forall lb lb',
  run_packets strptime lb marketdata = Ok lb' ->
  post_view (lb_metadata_builder lb') = post_view (lb_metadata_builder lb).
Proof.
  induction marketdata as [|p rest IH]; intros lb lb' H; simpl in H.
  - now injection H as <-.
  - apply bind_ok in H. destruct H as (lb1 & H1 & H).
    rewrite (IH _ _ H). apply run_packet_inv in H1.
    destruct H1 as (pt & mc & raw & rc & cl1 & mdef & cl2 & _ & _ & _ & _ & _ & _ & Hlb).
    cbv zeta in Hlb. subst lb1. simpl. apply extend_pre_market_post.
Qed.

Lemma MetadataBuilder_init_post sp marketdata start e mb :
  MetadataBuilder_init strptime sp marketdata start e = Ok mb ->
  exists p mc more d pd,
    last_item marketdata = Ok p /\ p_mc p = Some (mc :: more) /\
    mc_marketDefinition mc = Some d /\ pd_fields pd = d /\
    post_view mb = (sp, pd, None, None, None, None, None).
Proof.
  unfold MetadataBuilder_init. intros H.
  apply bind_ok in H. destruct H as (p & Hp & H).
  apply bind_ok in H. destruct H as (mcs & Hmc & H).
  apply bind_ok in H. destruct H as (mc0 & H0 & H).
  apply bind_ok in H. destruct H as ([[m id] eid] & Hf & H).
  injection H as <-.
  unfold subscript in Hmc. destruct (p_mc p) as [mcs'|] eqn:E; [|discriminate].
  injection Hmc as ->.
  destruct mcs as [|mc more]; [discriminate|]. injection H0 as ->.
  apply format_metadata_ok in Hf.
  destruct Hf as (d & d1 & d2 & d3 & (_ & Hd & _) & ->).
  exists p, mc0, more, d, (mkParsedDefinition d d1 d2 d3).
  now repeat split.
Qed.

End PostFacts.

(** X14. The post-market fields of the emitted metadata are computed
    from the market definition of the LAST packet, not from the
    definition the builder was constructed with: the winner and the
    favourites are what [extract_winner_info] and
    [extract_favourite_info] return on that definition's runners and
    their collected starting prices, and the three race fields are
    present exactly for the horse racing builder on a [WIN] market, where
    they are computed from that definition's name. *)
Theorem post_market_reads_the_last_packet
    (strptime : string -> option datetime) (marketdata : list packet)
    (definition : market_definition) (sp : sport)
    (meta : metadata) (ladders : list ts_document) (raw : list raw_packet) :
  pipeline strptime marketdata definition sp = Ok (meta, ladders, raw) ->
  exists p mc more d name runners,
    last_item marketdata = Ok p /\ p_mc p = Some (mc :: more) /\
    mc_marketDefinition mc = Some d /\
    pd_fields (m_marketDefinition meta) = d /\
    md_name d = Some name /\ md_runners d = Some runners /\
    extract_winner_info (map rd_name runners) (map rd_id runners)
      (map rd_status runners) (collect_bsps runners) = Ok (m_winnerInfo meta) /\
    extract_favourite_info (map rd_name runners) (map rd_id runners)
      (collect_bsps runners) = Ok (m_favouriteInfo meta) /\
    m_raceTypeAdjusted meta =
      (if race_market sp d then Some (extract_race_type_adjusted name) else None) /\
    m_distance meta =
      (if race_market sp d then Some (extract_distance name) else None) /\
    m_isHandicap meta =
      (if race_market sp d then Some (is_handicap name) else None).
Proof.
  intros H. apply pipeline_inv in H.
  destruct H as (ids & start & e & mb0 & lb & mb
                 & _ & _ & _ & Hinit & Hrun & Hpost & -> & _ & _).
  apply MetadataBuilder_init_post in Hinit.
  destruct Hinit as (p & mc & more & d & pd & Hp & Hmc & Hd & Hpd & Hview0).
  apply run_packets_post in Hrun. simpl in Hrun. rewrite Hview0 in Hrun.
  unfold post_view in Hrun. injection Hrun as Hsp Hdef Hw Hf Hr Hdi Hh.
  unfold extend_post_market in Hpost. rewrite Hdef, Hpd in Hpost.
  apply bind_ok in Hpost. destruct Hpost as (name & Hname & Hpost).
  apply bind_ok in Hpost. destruct Hpost as (runners & Hrunners & Hpost).
  apply bind_ok in Hpost. destruct Hpost as (w & Hwin & Hpost).
  apply bind_ok in Hpost. destruct Hpost as (f & Hfav & Hpost).
  apply bind_ok in Hpost. destruct Hpost as (m1 & Hhook & Hpost).
  injection Hpost as <-. simpl.
  unfold subscript in Hname, Hrunners.
  destruct (md_name d) as [name'|] eqn:En; [injection Hname as ->|discriminate].
  destruct (md_runners d) as [rs|] eqn:Er; [injection Hrunners as ->|discriminate].
  exists p, mc, more, d, name, runners.
  split; [exact Hp|]. split; [exact Hmc|]. split; [exact Hd|].
  pose proof (favourites_of_collected _ _ _ _ Hfav) as Hkeep.
  assert (Hm1 :
    pd_fields (m_marketDefinition m1) = d /\
    m_winnerInfo m1 = w /\ m_favouriteInfo m1 = f /\
    m_raceTypeAdjusted m1 =
      (if race_market sp d then Some (extract_race_type_adjusted name) else None) /\
    m_distance m1 =
      (if race_market sp d then Some (extract_distance name) else None) /\
    m_isHandicap m1 =
      (if race_market sp d then Some (is_handicap name) else None)).
  { unfold sport_hook in Hhook. rewrite Hsp in Hhook. unfold race_market.
    destruct sp.
    - injection Hhook as <-. simpl. rewrite Hdef, Hpd, Hw, Hf, Hr, Hdi, Hh.
      split; [reflexivity|]. split; [now destruct w|]. now repeat split.
    - injection Hhook as <-. simpl. rewrite Hdef, Hpd, Hw, Hf, Hr, Hdi, Hh.
      split; [reflexivity|]. split; [now destruct w|]. now repeat split.
    - simpl in Hhook. rewrite Hdef, Hpd in Hhook.
      destruct (md_marketType d) as [mt|]; [|discriminate]. simpl in Hhook.
      destruct (String.eqb mt "WIN"); injection Hhook as <-; simpl;
        rewrite Hdef, Hpd, Hw, Hf, ?Hr, ?Hdi, ?Hh;
        (split; [reflexivity|]); (split; [now destruct w|]); now repeat split. }
  destruct Hm1 as (H1 & H2 & H3 & H4 & H5 & H6).
  split; [exact H1|]. split; [exact En|]. split; [exact Er|].
  split; [now rewrite H2|]. split; [now rewrite H3|].
  split; [exact H4|]. split; [exact H5|exact H6].
Qed.

Lemma post_market_reads_the_last_packet_witness :
  exists meta ladders raw,
    pipeline strptime_iso example_marketdata
      (example_definition false example_roster) HorseRacing
      = Ok (meta, ladders, raw) /\
    m_winnerInfo meta = Some (mkWinnerInfo "Desert Orchid" 20 (Some 3)) /\
    exists p mc more d name runners,
      last_item example_marketdata = Ok p /\ p_mc p = Some (mc :: more) /\
      mc_marketDefinition mc = Some d /\
      pd_fields (m_marketDefinition meta) = d /\
      md_name d = Some name /\ md_runners d = Some runners /\
      extract_winner_info (map rd_name runners) (map rd_id runners)
        (map rd_status runners) (collect_bsps runners) = Ok (m_winnerInfo meta) /\
      extract_favourite_info (map rd_name runners) (map rd_id runners)
        (collect_bsps runners) = Ok (m_favouriteInfo meta) /\
      m_raceTypeAdjusted meta =
        (if race_market HorseRacing d
         then Some (extract_race_type_adjusted name) else None) /\
      m_distance meta =
        (if race_market HorseRacing d then Some (extract_distance name) else None) /\
      m_isHandicap meta =
        (if race_market HorseRacing d then Some (is_handicap name) else None).
Proof.
  do 3 eexists.
  split; [vm_compute; reflexivity|]. split; [reflexivity|].
  eapply (post_market_reads_the_last_packet strptime_iso example_marketdata
            (example_definition false example_roster) HorseRacing).
  vm_compute; reflexivity.
Defined.

(** * The playing time of the over/under strategy *)





(** * The distance of a race *)

Lemma append_assoc (a b c : string) :
  ((a ++ b) ++ c)%string = (a ++ (b ++ c))%string.
Proof. induction a as [|x a IH]; simpl; [reflexivity|]. now rewrite IH. Qed.

Lemma span_digits_spec (s : string) :
  s = (fst (span_digits s) ++ snd (span_digits s))%string /\
  all_digits (fst (span_digits s)) = true.
Proof.
  induction s as [|c s IH]; simpl; [now split|].
  destruct (is_digit c) eqn:E; [|now split].
  destruct (span_digits s) as [ds rest]. simpl in *.
  destruct IH as [IH1 IH2]. split; [now rewrite <- IH1|now rewrite E].
Qed.

Lemma span_digits_last (s : string) :
  forall ds l rest,
  span_digits s = (ds, String l rest) -> ds <> EmptyString ->
  exists pre c, s = (pre ++ String c (String l rest))%string /\ is_digit c = true.
Proof.
  induction s as [|a s IH]; intros ds l rest H Hne; simpl in H.
  - injection H as <- _. congruence.
  - destruct (is_digit a) eqn:Ea; [|injection H as <- _; congruence].
    destruct (span_digits s) as [ds' rest'] eqn:Es.
    injection H as <- ->.
    destruct ds' as [|d ds'].
    + pose proof (span_digits_spec s) as [Hs _]. rewrite Es in Hs. simpl in Hs.
      exists EmptyString, a. simpl. now rewrite Hs.
    + destruct (IH _ _ _ eq_refl) as (pre & c & Hs & Hc); [discriminate|].
      exists (String a pre), c. simpl. now rewrite Hs.
Qed.

Ltac str_eq := simpl; rewrite ?append_assoc; simpl; rewrite ?append_assoc; reflexivity.

Lemma distance_match_at_spec (s m : string) :
  distance_match_at s = Some m ->
  (exists post, s = (m ++ post)%string) /\ distance_shape m /\ has_distance s.
Proof.
  unfold distance_match_at. intros H.
  pose proof (span_digits_spec s) as [Hs Hd].
  pose proof (span_digits_last s) as Hlast.
  destruct (span_digits s) as [ds rest]. simpl in Hs, Hd.
  destruct ds as [|d ds]; [discriminate|].
  destruct rest as [|l rest]; [discriminate|].
  destruct (Hlast _ _ _ eq_refl) as (pre & c & Hname & Hc); [discriminate|].
  clear Hlast.
  destruct (Ascii.eqb l "m") eqn:Em.
  - apply Ascii.eqb_eq in Em. subst l.
    assert (Hhas : has_distance s).
    { exists pre, c, "m"%char, rest. split; [exact Hname|]. split; [exact Hc|now left]. }
    pose proof (span_digits_spec rest) as [Hs2 Hd2].
    destruct (span_digits rest) as [ds2 rest2]. simpl in Hs2, Hd2.
    assert (Hshort :
      Some (String d ds ++ "m")%string = Some m ->
      (exists post, s = (m ++ post)%string) /\ distance_shape m /\ has_distance s).
    { intros Hm. injection Hm as Hm. rewrite <- Hm.
      split; [|split; [|exact Hhas]].
      - exists rest. rewrite Hs at 1. str_eq.
      - exists (String d ds). split; [discriminate|]. split; [exact Hd|now left]. }
    destruct rest2 as [|l2 rest2]; [exact (Hshort H)|].
    destruct (Ascii.eqb l2 "f") eqn:Ef.
    + apply Ascii.eqb_eq in Ef. subst l2. injection H as H. rewrite <- H.
      split; [|split; [|exact Hhas]].
      * exists rest2. rewrite Hs at 1. rewrite Hs2. str_eq.
      * exists (String d ds). split; [discriminate|]. split; [exact Hd|].
        right; right. exists ds2. split; [exact Hd2|]. str_eq.
    + destruct l2 as [[] [] [] [] [] [] [] []];
        first [exact (Hshort H) | (vm_compute in Ef; discriminate)].
  - destruct (Ascii.eqb l "f") eqn:Ef.
    + apply Ascii.eqb_eq in Ef. subst l. injection H as H. rewrite <- H.
      split; [|split].
      * exists rest. rewrite Hs at 1. str_eq.
      * exists (String d ds). split; [discriminate|]. split; [exact Hd|].
        right; now left.
      * exists pre, c, "f"%char, rest.
        split; [exact Hname|]. split; [exact Hc|now right].
    + destruct l as [[] [] [] [] [] [] [] []];
        first [discriminate H | (vm_compute in Ef; discriminate)
              | (vm_compute in Em; discriminate)].
Qed.

Lemma distance_match_at_found (c l : ascii) (post : string) :
  is_digit c = true -> l = "m"%char \/ l = "f"%char ->
  distance_match_at (String c (String l post)) <> None.
Proof.
  intros Hc Hl. unfold distance_match_at. simpl. rewrite Hc.
  assert (Hl' : is_digit l = false) by (destruct Hl; subst l; reflexivity).
  rewrite Hl'.
  destruct Hl; subst l.
  - destruct (span_digits post) as [ds2 rest2].
    destruct rest2 as [|l2 rest2]; [discriminate|].
    destruct l2 as [[] [] [] [] [] [] [] []]; discriminate.
  - discriminate.
Qed.

Lemma extract_distance_found (pre : string) :
  forall c l post,
  is_digit c = true -> l = "m"%char \/ l = "f"%char ->
  extract_distance (pre ++ String c (String l post)) <> None.
Proof.
  induction pre as [|a pre IH]; intros c l post Hc Hl.
  - simpl append. unfold extract_distance.
    pose proof (distance_match_at_found c l post Hc Hl) as H.
    destruct (distance_match_at (String c (String l post))); [discriminate|congruence].
  - change (String a pre ++ String c (String l post))%string
      with (String a (pre ++ String c (String l post))).
    cbn [extract_distance].
    destruct (distance_match_at _); [discriminate|]. now apply IH.
Qed.

(** X16. [extract_distance] finds a distance exactly when the market
    name has a digit directly followed by the letter [m] or [f]; what it
    returns is then a piece of the name of one of the forms digits-[m],
    digits-[f] or digits-[m]-digits-[f]. *)
Theorem extract_distance_found_iff (name : string) :
  (extract_distance name <> None <-> has_distance name) /\
  forall m, extract_distance name = Some m ->
    distance_shape m /\
    exists pre post, name = (pre ++ m ++ post)%string.
Proof.
  split; [split|].
  - induction name as [|a name IH]; [now intros H|].
    cbn [extract_distance].
    destruct (distance_match_at (String a name)) as [m|] eqn:E.
    + intros _. now apply distance_match_at_spec in E.
    + intros H. destruct (IH H) as (pre & c & l & post & -> & Hc & Hl).
      exists (String a pre), c, l, post. now repeat split.
  - intros (pre & c & l & post & -> & Hc & Hl).
    now apply extract_distance_found.
  - induction name as [|a name IH]; intros m H; [discriminate|].
    cbn [extract_distance] in H.
    destruct (distance_match_at (String a name)) as [m'|] eqn:E.
    + injection H as ->. apply distance_match_at_spec in E.
      destruct E as ((post & Hpost) & Hshape & _).
      split; [exact Hshape|]. exists EmptyString, post. exact Hpost.
    + destruct (IH m H) as (Hshape & pre & post & ->).
      split; [exact Hshape|]. now exists (String a pre), post.
Qed.

(** * Market files *)

Lemma split_slash_nonempty (s : string) : split_slash s <> [].
Proof.
  induction s as [|c s IH]; simpl; [discriminate|].
  destruct (Ascii.eqb c "/"); [discriminate|].
  now destruct (split_slash s).
Qed.

Lemma split_slash_no_slash (name : string) :
  no_slash name = true -> split_slash name = [name].
Proof.
  induction name as [|c name IH]; simpl; [reflexivity|].
  destruct (Ascii.eqb c "/"); [discriminate|]. simpl.
  intros H. now rewrite (IH H).
Qed.

Lemma split_slash_app (dir rest : string) :
  split_slash (dir ++ String "/" rest) = split_slash dir ++ split_slash rest.
Proof.
  induction dir as [|c dir IH].
  - reflexivity.
  - change (String c dir ++ String "/" rest)%string
      with (String c (dir ++ String "/" rest)).
    cbn [split_slash]. rewrite IH.
    destruct (Ascii.eqb c "/"); [reflexivity|].
    pose proof (split_slash_nonempty dir) as Hne.
    now destruct (split_slash dir).
Qed.

Lemma last_app_nonempty {A : Type} (l1 l2 : list A) d :
  l2 <> [] -> last (l1 ++ l2) d = last l2 d.
Proof.
  intros Hne. induction l1 as [|x l1 IH]; simpl; [reflexivity|].
  rewrite IH. destruct (l1 ++ l2) eqn:E; [|reflexivity].
  apply app_eq_nil in E. destruct E as [_ E]. congruence.
Qed.

(** X17. Whether a key is a market file depends only on what follows
    its last slash: for a file name without a slash, under any
    directory prefix (however many slashes it has) and also for the bare
    name, [is_market_file] says whether the name starts with [1.]. *)
Theorem is_market_file_last_component (dir name : string) :
  no_slash name = true ->
  is_market_file (dir ++ String "/" name) = prefix "1." name /\
  is_market_file name = prefix "1." name.
Proof.
  intros H. unfold is_market_file.
  rewrite split_slash_app, (split_slash_no_slash name H).
  now rewrite last_app_nonempty.
Qed.

Lemma is_market_file_last_component_witness :
  is_market_file "horse-racing/2023/Jan/3/322919/1.23456.bz2" = true /\
  is_market_file "1.23456.bz2" = true.
Proof.
  apply (is_market_file_last_component
           "horse-racing/2023/Jan/3/322919" "1.23456.bz2").
  reflexivity.
Defined.

(** * Batched inserts *)

Lemma batches_concat {A : Type} (n : nat) :
  forall k (data : list A),
  (length data <= k * n)%nat ->
  concat (map (fun j => firstn n (skipn (j * n) data)) (seq 0 k)) = data.
Proof.
  induction k as [|k IH]; intros data Hlen.
  - destruct data; [reflexivity|simpl in Hlen; lia].
  - rewrite <- cons_seq, <- seq_shift. cbn [map concat]. rewrite map_map.
    rewrite Nat.mul_0_l. cbn [skipn].
    transitivity (firstn n data ++ skipn n data); [|apply firstn_skipn].
    f_equal.
    transitivity (concat (map (fun j => firstn n (skipn (j * n) (skipn n data)))
                            (seq 0 k))).
    + f_equal. apply map_ext. intros j. rewrite skipn_skipn.
      now replace (S j * n)%nat with (j * n + n)%nat by lia.
    + apply IH. rewrite length_skipn. lia.
Qed.

Lemma ceil_div_bound (m n : nat) :
  (0 < n)%nat -> (m <= (m + n - 1) / n * n)%nat.
Proof.
  intros Hn.
  pose proof (Nat.div_mod_eq (m + n - 1) n) as Hd.
  pose proof (Nat.mod_upper_bound (m + n - 1) n) as Hm.
  nia.
Qed.

Lemma inserted_map_InsertMany {A : Type} (l : list (list A)) :
  inserted (map InsertMany l) = l.
Proof. induction l as [|x l IH]; simpl; [reflexivity|]. now rewrite IH. Qed.

Lemma firstn_length_bound {A : Type} (n : nat) (l : list A) :
  (length (firstn n l) <= n)%nat.
Proof. rewrite length_firstn. lia. Qed.

(** X18. When the metadata was a duplicate, [insert_many] issues no
    call at all.  Otherwise the batches it inserts, taken in order, are
    exactly the documents it was given; from a thousand documents on,
    every batch has between one and a thousand documents; and the
    collection is created first exactly when it is a time series that is
    not listed yet. *)
Theorem insert_many_batches_partition {A : Type}
    (listed ts : bool) (data : list A) :
  insert_many true listed ts data = [] /\
  let calls := insert_many false listed ts data in
  concat (inserted calls) = data /\
  ((BATCH <= length data)%nat ->
   Forall (fun batch => (1 <= length batch <= BATCH)%nat) (inserted calls)) /\
  (In CreateCollection calls <-> listed = false /\ ts = true) /\
  (In CreateCollection calls -> hd_error calls = Some CreateCollection).
Proof.
  split; [reflexivity|]. cbv zeta. unfold insert_many.
  set (create := if negb listed && ts then [@CreateCollection A] else []).
  set (batches := if (length data <? BATCH)%nat then [InsertMany data]
                  else map (fun i => InsertMany (slice data i (i + BATCH)))
                         (range_step (length data) BATCH)).
  assert (Hcreate : inserted (create ++ batches) = inserted batches).
  { unfold create. now destruct (negb listed && ts). }
  assert (Hslices : map (fun i => InsertMany (slice data i (i + BATCH)))
                      (range_step (length data) BATCH) =
                    map InsertMany
                      (map (fun j => firstn BATCH (skipn (j * BATCH) data))
                         (seq 0 ((length data + BATCH - 1) / BATCH)))).
  { unfold range_step, slice. rewrite !map_map. apply map_ext. intros j.
    now replace (j * BATCH + BATCH - j * BATCH)%nat with BATCH by lia. }
  assert (Hnot : forall l : list (list A), ~ In CreateCollection (map InsertMany l)).
  { intros l Hin. apply in_map_iff in Hin. now destruct Hin as (x & Hx & _). }
  assert (Hbatches : ~ In CreateCollection batches).
  { unfold batches. destruct (length data <? BATCH)%nat.
    - intros [H|[]]. discriminate.
    - rewrite Hslices. apply Hnot. }
  simpl. rewrite Hcreate. split; [|split; [|split]].
  - unfold batches. destruct (length data <? BATCH)%nat eqn:E.
    + simpl. apply app_nil_r.
    + rewrite Hslices, inserted_map_InsertMany. apply batches_concat.
      apply ceil_div_bound. unfold BATCH. lia.
  - intros Hbig. unfold batches.
    destruct (length data <? BATCH)%nat eqn:E; [apply Nat.ltb_lt in E; lia|].
    rewrite Hslices, inserted_map_InsertMany.
    apply Forall_forall. intros batch Hin.
    apply in_map_iff in Hin. destruct Hin as (j & <- & Hj).
    apply in_seq in Hj. split; [|apply firstn_length_bound].
    rewrite length_firstn, length_skipn.
    assert (j * BATCH < length data)%nat.
    { destruct Hj as [_ Hj]. rewrite Nat.add_0_l in Hj.
      pose proof (Nat.div_mod_eq (length data + BATCH - 1) BATCH) as Hd.
      pose proof (Nat.mod_upper_bound (length data + BATCH - 1) BATCH) as Hm.
      unfold BATCH in *. nia. }
    unfold BATCH in *. lia.
  - unfold create. rewrite in_app_iff.
    destruct listed, ts; simpl; split; intros H;
      try (destruct H as [[]|H]; now apply Hbatches in H);
      try (destruct H as [[H|[]]|H]; [discriminate H|now apply Hbatches in H]);
      try (destruct H; discriminate); try (now split); try (now left; left).
  - unfold create. rewrite in_app_iff.
    destruct (negb listed && ts); simpl; [reflexivity|].
    intros [[]|H]. now apply Hbatches in H.
Qed.
